(** * Matchmaking core of the room server: a shallow embedding

    The development follows [src/MatchMaker.ts] and
    [src/transport/WebSocketTransport.ts].  Asynchronous methods are
    functions in a state-and-promise monad over a [World] that holds the
    fields of the matchmaker together with the collaborators it talks
    to: presence, the registry driver, timers and the network.  Objects
    typed [any] in the source are [JSValue]s.

    Embedded are [remoteRoomCall], [reserveSeatFor],
    [awaitRoomAvailable], [queryRoom], [createRoom], the room
    references with [lockRoom], [unlockRoom] and [disposeRoom],
    [joinOrCreate], [create], [joinById], [query], [getRoomById] and
    the room-join path [handleMatchJoin] of the transport.  Debug
    output is left out. *)

From stdpp Require Import gmap strings list fin_maps pretty.

Local Open Scope string_scope.
Local Open Scope Z_scope.
Local Open Scope list_scope.

(** ** JavaScript values *)

#[warnings="-register-all"]
Inductive JSValue :=
| VUndefined
| VNull
| VBool (b : bool)
| VNum (n : Z)
| VStr (s : string)
| VObj (o : gmap string JSValue).

(** An object literal or an options bag. *)
Abbreviation JSObject := (gmap string JSValue).

(** [o.k]; a missing property reads as [undefined]. *)
Definition get (o : JSObject) (k : string) : JSValue :=
  default VUndefined (o !! k).

(** ToBoolean.  Numbers of the model are integers, so NaN does not occur. *)
Definition truthy (v : JSValue) : bool :=
  match v with
  | VUndefined | VNull => false
  | VBool b => b
  | VNum n => negb (Z.eqb n 0)
  | VStr s => negb (String.eqb s "")
  | VObj _ => true
  end.

(** [a === b].  Two object values of the model stand for two distinct
    references, which are never strictly equal. *)
Definition strict_eq (a b : JSValue) : bool :=
  match a, b with
  | VUndefined, VUndefined => true
  | VNull, VNull => true
  | VBool x, VBool y => Bool.eqb x y
  | VNum x, VNum y => Z.eqb x y
  | VStr x, VStr y => String.eqb x y
  | _, _ => false
  end.

(** String(v), as used for property keys and template strings. *)
Definition toString (v : JSValue) : string :=
  match v with
  | VUndefined => "undefined"
  | VNull => "null"
  | VBool true => "true"
  | VBool false => "false"
  | VNum n => pretty n
  | VStr s => s
  | VObj _ => "[object Object]"
  end.

(** ** Protocol constants and errors *)

(** The members of [Protocol] the two files mention; their wire numbers
    are declared in Protocol.ts and play no role here. *)
Inductive Protocol :=
| ERR_MATCHMAKE_NO_HANDLER
| ERR_MATCHMAKE_INVALID_CRITERIA
| ERR_MATCHMAKE_INVALID_ROOM_ID
| ERR_MATCHMAKE_UNHANDLED
| ERR_MATCHMAKE_EXPIRED
| JOIN_ERROR
| WS_CLOSE_WITH_ERROR.

(** The first component of a reply message.  [IpcOther] is any value
    that is neither [IpcProtocol.SUCCESS] nor [IpcProtocol.ERROR]. *)
Inductive IpcProtocol :=
| SUCCESS
| ERROR
| IpcOther.

(** [RemoteRoomResponse]: the pair [[processId, value]]. *)
Definition RemoteRoomResponse : Type := option string * JSValue.

(** What a promise can be rejected with: an error object of one of the
    classes the code names, or the data of a remote reply. *)
Inductive Thrown :=
| MatchMakeError (message : string) (code : Protocol)
| SeatReservationError (message : string)
| TypeError (message : string)
| Error (message : string)
| RemoteError (data : RemoteRoomResponse).

(** [e.constructor], which the retry white list is compared with. *)
Inductive ErrorClass :=
| MatchMakeErrorC
| SeatReservationErrorC
| TypeErrorC
| ErrorC
| ArrayC.

Definition constructor (e : Thrown) : ErrorClass :=
  match e with
  | MatchMakeError _ _ => MatchMakeErrorC
  | SeatReservationError _ => SeatReservationErrorC
  | TypeError _ => TypeErrorC
  | Error _ => ErrorC
  | RemoteError _ => ArrayC
  end.

Global Instance ErrorClass_eq_dec : EqDecision ErrorClass.
Proof. solve_decision. Defined.

Global Instance Protocol_eq_dec : EqDecision Protocol.
Proof. solve_decision. Defined.

(** [e.message]; an array has none. *)
Definition message_of (e : Thrown) : JSValue :=
  match e with
  | MatchMakeError m _ | SeatReservationError m | TypeError m | Error m => VStr m
  | RemoteError _ => VUndefined
  end.

(** The state of the promise an asynchronous call returns once the
    events of the run have been played. *)
Inductive Outcome (A : Type) :=
| Resolved (a : A)
| Rejected (e : Thrown)
| Unsettled.
Arguments Resolved {A} a.
Arguments Rejected {A} e.
Arguments Unsettled {A}.

(** ** Presence *)

(** The callbacks the matchmaker hands to [presence.subscribe], named
    by the closure they are: the reply handler of one remote call, or
    the request handler of a room created with [init = true]. *)
Inductive Subscriber :=
| ReplyHandler (roomId requestId : string)
| RoomChannelHandler (roomId : string).

(** A published payload: a request [[method, requestId, args]] on a room
    channel or a reply [[code, [processId, data]]] on a reply channel. *)
Inductive Payload :=
| Request (method requestId : string) (args : option (list JSValue))
| Reply (code : IpcProtocol) (data : RemoteRoomResponse).

Inductive PresenceCall :=
| Psubscribe (channel : string)
| Punsubscribe (channel : string)
| Ppublish (channel : string) (payload : Payload)
| Psadd (key member : string)
| Psrem (key member : string)
| Pincr (key : string)
| Pdecr (key : string)
| Pdel (key : string).

(** Modelled from the spec: the Presence interface (presence/Presence.ts
    is not among the sources).  Section 4.1 gives its contract: pub/sub
    channels, atomic counters, set membership and key/value delete.
    [calls] records every operation issued, in order, newest first. *)
Record Presence := {
  channels : gmap string (list Subscriber);
  data : gmap string (gset string);
  keys : gmap string Z;
  calls : list PresenceCall;
}.

(** Modelled from the spec: the operations of Presence, as section 4.1
    lists them. *)
Module presence.

Definition subscribe (channel : string) (cb : Subscriber) (p : Presence) : Presence :=
  {| channels := <[channel := default [] (channels p !! channel) ++ [cb]]> (channels p);
     data := data p; keys := keys p;
     calls := Psubscribe channel :: calls p |}.

Definition unsubscribe (channel : string) (p : Presence) : Presence :=
  {| channels := delete channel (channels p);
     data := data p; keys := keys p;
     calls := Punsubscribe channel :: calls p |}.

(** Delivery to other processes is the network's business; the call is
    recorded with its payload. *)
Definition publish (channel : string) (payload : Payload) (p : Presence) : Presence :=
  {| channels := channels p; data := data p; keys := keys p;
     calls := Ppublish channel payload :: calls p |}.

Definition sadd (key member : string) (p : Presence) : Presence :=
  {| channels := channels p;
     data := <[key := {[member]} ∪ default ∅ (data p !! key)]> (data p);
     keys := keys p;
     calls := Psadd key member :: calls p |}.

Definition srem (key member : string) (p : Presence) : Presence :=
  {| channels := channels p;
     data := match data p !! key with
             | Some s => <[key := s ∖ {[member]}]> (data p)
             | None => data p
             end;
     keys := keys p;
     calls := Psrem key member :: calls p |}.

(** [incr] and [decr] return the new value of the counter. *)
Definition incr (key : string) (p : Presence) : Z * Presence :=
  let n := default 0 (keys p !! key) + 1 in
  (n, {| channels := channels p; data := data p;
         keys := <[key := n]> (keys p);
         calls := Pincr key :: calls p |}).

Definition decr (key : string) (p : Presence) : Z * Presence :=
  let n := default 0 (keys p !! key) - 1 in
  (n, {| channels := channels p; data := data p;
         keys := <[key := n]> (keys p);
         calls := Pdecr key :: calls p |}).

Definition del (key : string) (p : Presence) : Presence :=
  {| channels := channels p; data := data p;
     keys := delete key (keys p);
     calls := Pdel key :: calls p |}.

(** The members of the set [key]. *)
Definition smembers (key : string) (p : Presence) : gset string :=
  default ∅ (data p !! key).

(** The value of counter [key]; an absent counter counts as 0. *)
Definition counter (key : string) (p : Presence) : Z :=
  default 0 (keys p !! key).

(** How many callbacks are subscribed, over all channels. *)
Definition subscriptions (p : Presence) : nat :=
  map_fold (λ _ cbs n, (length cbs + n)%nat) 0%nat (channels p).

End presence.

(** ** Registry driver *)

(** A room listing is an object with an open set of fields: [roomId],
    [name], [processId], [locked], [private], [maxClients], [clients]
    and the filter fields projected from the join options. *)
Abbreviation RoomListingData := (gmap string JSValue).

(** Modelled from the spec: the filter of [find] and [findOne] (section
    4.2).  A room passes when each field of the conditions is strictly
    equal to the field of the room. *)
Definition matches (conditions : JSObject) (room : RoomListingData) : bool :=
  bool_decide (map_Forall (λ field v, strict_eq (get room field) v = true) conditions).

(** Modelled from the spec: the registry driver (matchmaker/drivers/ is
    not among the sources).  Section 4.2: filtered [find], ordered
    [findOne], [createInstance] buffered until [save], per-listing
    [save] and [remove].  [rooms] are the persisted rows. *)
Record MatchMakerDriver := {
  rooms : list RoomListingData;
}.

(** A sort specification, taken as the reordering of the rows it induces. *)
Definition SortOptions : Type := list RoomListingData → list RoomListingData.

(** The query object [findOne] returns; awaiting it runs it. *)
Record Query := {
  q_conditions : JSObject;
  q_sort : option SortOptions;
}.

(** Modelled from the spec: the operations of the registry driver, as
    section 4.2 lists them. *)
Module driver.

Definition find (conditions : JSObject) (d : MatchMakerDriver) : list RoomListingData :=
  filter (λ room, matches conditions room = true) (rooms d).

Definition findOne (conditions : JSObject) : Query :=
  {| q_conditions := conditions; q_sort := None |}.

Definition sort (spec : SortOptions) (q : Query) : Query :=
  {| q_conditions := q_conditions q; q_sort := Some spec |}.

(** [await query]: the first row that passes, in the order asked for;
    [None] is the [null] of an empty result. *)
Definition await (q : Query) (d : MatchMakerDriver) : option RoomListingData :=
  head (default id (q_sort q) (find (q_conditions q) d)).

(** A new listing is public and unlocked and has no clients. *)
Definition createInstance (initialValues : JSObject) : RoomListingData :=
  initialValues ∪ {[ "clients" := VNum 0; "locked" := VBool false; "private" := VBool false ]}.

Definition same_row (a b : RoomListingData) : bool :=
  strict_eq (get a "roomId") (get b "roomId").

(** [listing.save()]: the row becomes visible, replacing an older
    version of itself. *)
Definition save (listing : RoomListingData) (d : MatchMakerDriver) : MatchMakerDriver :=
  {| rooms := filter (λ r, same_row listing r = false) (rooms d) ++ [listing] |}.

(** [listing.remove()]. *)
Definition remove (listing : RoomListingData) (d : MatchMakerDriver) : MatchMakerDriver :=
  {| rooms := filter (λ r, same_row listing r = false) (rooms d) |}.

End driver.

(** ** Registered handlers and rooms *)

(** Modelled from the spec: RegisteredHandler (matchmaker/RegisteredHandler.ts
    is not among the sources): the room class, the default options, the
    filter projection of the join options and an optional sort
    specification (section 3). *)
Record RegisteredHandler := {
  klass : string;
  options : JSObject;
  getFilterOptions : JSObject → JSObject;
  sortOptions : option SortOptions;
}.

Inductive RoomInternalState := CREATING | CREATED | DISCONNECTING | DISPOSED.

(** The listeners [createRoom] binds on a room, named by the method and
    the arguments bound. *)
Inductive Listener :=
| BoundLockRoom (roomName : string)
| BoundUnlockRoom (roomName : string)
| BoundOnClientJoinRoom
| BoundOnClientLeaveRoom
| BoundDisposeRoom (roomName : string)
| RemoveAllListeners.

(** Modelled from the spec: the local room handle (Room.ts is not among
    the sources), with the fields the matchmaker reads and writes;
    [props] are the further own properties of the instance. *)
Record Room := {
  className : string;
  roomId : string;
  roomName : string;
  listing : RoomListingData;
  maxClients : JSValue;
  _internalState : RoomInternalState;
  listeners : list (string * Listener);
  props : JSObject;
}.

(** ** The transport's client *)

(** A frame sent to the client: a protocol code and its message. *)
Inductive Frame :=
| Framed (code : Protocol) (message : JSValue).

(** The websocket of one client, with the frames sent on it and the
    codes [close] was called with, newest first. *)
Record Client := {
  pingCount : Z;
  id : JSValue;
  sessionId : JSValue;
  sent : list Frame;
  closed : list Protocol;
}.

(** ** The world *)

(** What the run leaves behind besides state: timers and emitted events,
    newest first.  [SetTimeout] is a timer armed, [ClearTimeout] a call
    of [clearTimeout] with the timer variable as it is then. *)
Inductive Effect :=
| SetTimeout (ms : Z)
| ClearTimeout
| Emit (handler event roomId : string).

(** What the network does to one pending remote call: the first message
    that arrives on its reply channel, or nothing until the timer fires.
    A presence that calls the subscribers from within [publish], as one
    that lives in the process does, hands the reply over while
    [publish] is still running: that is [Immediate]. *)
Inductive NetEvent :=
| Message (code : IpcProtocol) (data : RemoteRoomResponse)
| Silence
| Immediate (code : IpcProtocol) (data : RemoteRoomResponse).

(** The fields of the [MatchMaker] instance, followed by the environment
    of the process: the objects callers share with it, the source of
    generated ids, the effects so far and the script of the network. *)
Record World := {
  handlers : gmap string RegisteredHandler;
  processId : option string;
  localRooms : gmap string Room;
  presence : Presence;
  driver : MatchMakerDriver;
  isGracefullyShuttingDown : bool;
  heap : gmap nat JSObject;
  idSeed : N;
  effects : list Effect;
  network : list NetEvent;
}.

Definition set_localRooms (f : gmap string Room → gmap string Room) (w : World) : World :=
  {| handlers := handlers w; processId := processId w; localRooms := f (localRooms w);
     presence := presence w; driver := driver w;
     isGracefullyShuttingDown := isGracefullyShuttingDown w;
     heap := heap w; idSeed := idSeed w; effects := effects w; network := network w |}.

Definition set_presence (f : Presence → Presence) (w : World) : World :=
  {| handlers := handlers w; processId := processId w; localRooms := localRooms w;
     presence := f (presence w); driver := driver w;
     isGracefullyShuttingDown := isGracefullyShuttingDown w;
     heap := heap w; idSeed := idSeed w; effects := effects w; network := network w |}.

Definition set_driver (f : MatchMakerDriver → MatchMakerDriver) (w : World) : World :=
  {| handlers := handlers w; processId := processId w; localRooms := localRooms w;
     presence := presence w; driver := f (driver w);
     isGracefullyShuttingDown := isGracefullyShuttingDown w;
     heap := heap w; idSeed := idSeed w; effects := effects w; network := network w |}.

Definition set_heap (f : gmap nat JSObject → gmap nat JSObject) (w : World) : World :=
  {| handlers := handlers w; processId := processId w; localRooms := localRooms w;
     presence := presence w; driver := driver w;
     isGracefullyShuttingDown := isGracefullyShuttingDown w;
     heap := f (heap w); idSeed := idSeed w; effects := effects w; network := network w |}.

Definition set_idSeed (n : N) (w : World) : World :=
  {| handlers := handlers w; processId := processId w; localRooms := localRooms w;
     presence := presence w; driver := driver w;
     isGracefullyShuttingDown := isGracefullyShuttingDown w;
     heap := heap w; idSeed := n; effects := effects w; network := network w |}.

Definition set_network (l : list NetEvent) (w : World) : World :=
  {| handlers := handlers w; processId := processId w; localRooms := localRooms w;
     presence := presence w; driver := driver w;
     isGracefullyShuttingDown := isGracefullyShuttingDown w;
     heap := heap w; idSeed := idSeed w; effects := effects w; network := l |}.

(** Record one effect. *)
Definition effect (e : Effect) (w : World) : World :=
  {| handlers := handlers w; processId := processId w; localRooms := localRooms w;
     presence := presence w; driver := driver w;
     isGracefullyShuttingDown := isGracefullyShuttingDown w;
     heap := heap w; idSeed := idSeed w; effects := e :: effects w; network := network w |}.

(** ** Asynchronous computations *)

(** An [async] function: from the world it starts in to the state of its
    promise and the world it leaves. *)
Definition Async (A : Type) : Type := World → Outcome A * World.

Definition ret {A} (a : A) : Async A := λ w, (Resolved a, w).

Definition throw {A} (e : Thrown) : Async A := λ w, (Rejected e, w).

(** [await m] followed by [k]: a rejection or a promise that never
    settles ends the function there. *)
Definition bind {A B} (m : Async A) (k : A → Async B) : Async B :=
  λ w, match m w with
       | (Resolved a, w') => k a w'
       | (Rejected e, w') => (Rejected e, w')
       | (Unsettled, w') => (Unsettled, w')
       end.

(** A step that cannot fail. *)
Definition step (f : World → World) : Async unit := λ w, (Resolved tt, f w).

Global Instance Async_ret : MRet Async := @ret.
Global Instance Async_bind : MBind Async := λ A B k m, bind m k.

(** What a room class brings: the optional [onCreate] hook, the methods
    callable by name and [_onJoin].  A method receives [this] and the
    arguments and may change the world. *)
Record RoomClass := {
  construct : Room;
  onCreate : option (Room → JSObject → World → Outcome Room * World);
  methods : string → option (Room → list JSValue → World → Outcome JSValue * World);
  _onJoin : Room → Client → World → Outcome unit * (Client * World);
}.

(** Modelled from the spec: [generateId] (index.ts is not among the
    sources) produces opaque ids that do not collide (section 6); here
    the n-th id of the process is the numeral of n. *)
Definition generateId (w : World) : string * World :=
  (pretty (idSeed w), set_idSeed (N.succ (idSeed w)) w).

(** A synchronous call that returns a value. *)
Definition call {A} (f : World → A * World) : Async A :=
  λ w, let '(a, w') := f w in (Resolved a, w').

(** The double quote, for the messages that quote a name. *)
Definition dq : string := String (Ascii.ascii_of_nat 34) EmptyString.

(** Modelled from the spec: [merge] (Utils.ts is not among the sources)
    copies the properties of the sources into the target, later sources
    winning. *)
Definition merge (target a b : JSObject) : JSObject := b ∪ a ∪ target.

(** The object at a reference; every reference the code holds is live. *)
Definition deref (ref : nat) (w : World) : JSObject := default ∅ (heap w !! ref).

(** [ref.k = v] *)
Definition assign (ref : nat) (k : string) (v : JSValue) (w : World) : World :=
  set_heap (λ h, <[ref := <[k := v]> (default ∅ (h !! ref))]> h) w.

(** A new object literal. *)
Definition alloc (o : JSObject) (w : World) : nat * World :=
  let ref := fresh (dom (heap w)) in (ref, set_heap (<[ref := o]>) w).

(** One pending remote call: the variables its closures share.
    [unsubscribeTimeout] tells whether a timer of the call is armed and
    has neither fired nor been cleared. *)
Record RemoteCall := {
  rc_roomId : string;
  rc_method : string;
  rc_args : option (list JSValue);
  rc_rejectionTimeout : Z;
  rc_requestId : string;
  unsubscribeTimeout : bool;
  promise : Outcome RemoteRoomResponse;
}.

(** What happens to a pending call: a message is published on its reply
    channel, or its timer runs out. *)
Inductive Event :=
| Arrives (code : IpcProtocol) (data : RemoteRoomResponse)
| TimerFires.

Global Instance Subscriber_eq_dec : EqDecision Subscriber.
Proof. solve_decision. Defined.

(** What [room[method]] evaluates to. *)
Inductive Member :=
| Property (v : JSValue)
| Function (f : Room → list JSValue → World → Outcome JSValue * World).

Definition optional_string (s : option string) : JSValue :=
  match s with Some s => VStr s | None => VUndefined end.

(** The own properties of a room handle. *)
Definition own (room : Room) (name : string) : option JSValue :=
  if String.eqb name "roomId" then Some (VStr (roomId room))
  else if String.eqb name "roomName" then Some (VStr (roomName room))
  else if String.eqb name "maxClients" then Some (maxClients room)
  else if String.eqb name "listing" then Some (VObj (listing room))
  else props room !! name.

(** ** MatchMaker.ts *)

Section MatchMaker.

(** The value of the environment variable when the process started:
    [None] when it is unset or empty, [Some n] when it holds the
    numeral of [n]. *)
Variable COLYSEUS_PRESENCE_SHORT_TIMEOUT : option Z.

(** The room classes handlers are registered with, by name. *)
Variable classes : string → RoomClass.

(** The built-in [JSON.stringify] on argument arrays. *)
Variable JSON_stringify : list JSValue → string.

Definition REMOTE_ROOM_SHORT_TIMEOUT : Z :=
  default 2000 COLYSEUS_PRESENCE_SHORT_TIMEOUT.

Definition getRoomChannel (roomId : string) : string := "$" +:+ roomId.

Definition getHandlerConcurrencyKey (name : string) : string := name +:+ ":c".

(** [room[method]]: an own property, else a method of the class, else
    [undefined]. *)
Definition member (room : Room) (method : string) : Member :=
  match own room method with
  | Some v => Property v
  | None =>
      match methods (classes (className room)) method with
      | Some f => Function f
      | None => Property VUndefined
      end
  end.

(** *** remoteRoomCall, the remote branch *)

Definition channel_of (rc : RemoteCall) : string :=
  rc_roomId rc +:+ ":" +:+ rc_requestId rc.

(** A promise is settled once; later calls of [resolve] and [reject]
    do nothing. *)
Definition settle (o : Outcome RemoteRoomResponse) (rc : RemoteCall) : RemoteCall :=
  match promise rc with
  | Unsettled =>
      {| rc_roomId := rc_roomId rc; rc_method := rc_method rc; rc_args := rc_args rc;
         rc_rejectionTimeout := rc_rejectionTimeout rc; rc_requestId := rc_requestId rc;
         unsubscribeTimeout := unsubscribeTimeout rc; promise := o |}
  | _ => rc
  end.

Definition resolve (data : RemoteRoomResponse) : RemoteCall → RemoteCall :=
  settle (Resolved data).

Definition reject (e : Thrown) : RemoteCall → RemoteCall :=
  settle (Rejected e).

(** The closure [unsubscribe]: drop the reply channel and call
    [clearTimeout] on the timer variable.  No timer of the call is
    pending after it: an armed one is cleared, and while the variable
    is not assigned there is none. *)
Definition unsubscribe (rc : RemoteCall) (w : World) : RemoteCall * World :=
  ({| rc_roomId := rc_roomId rc; rc_method := rc_method rc; rc_args := rc_args rc;
      rc_rejectionTimeout := rc_rejectionTimeout rc; rc_requestId := rc_requestId rc;
      unsubscribeTimeout := false; promise := promise rc |},
   effect ClearTimeout (set_presence (presence.unsubscribe (channel_of rc)) w)).

(** The callback subscribed to the reply channel. *)
Definition onReply (code : IpcProtocol) (data : RemoteRoomResponse)
    (rc : RemoteCall) (w : World) : RemoteCall * World :=
  let rc :=
    match code with
    | SUCCESS => resolve data rc
    | ERROR => reject (RemoteError data) rc
    | IpcOther => rc
    end in
  unsubscribe rc w.

Definition timeout_message (roomId method : string) (args : option (list JSValue))
    (rejectionTimeout : Z) : string :=
  let request :=
    method +:+
    match args with
    | Some args => " with args " +:+ JSON_stringify args
    | None => EmptyString
    end in
  "remote room (" +:+ roomId +:+ ") timed out, requesting " +:+ dq +:+ request +:+ dq +:+ ". " +:+
  "Timeout setting: " +:+ pretty rejectionTimeout +:+ "ms".

(** The callback of the timer. *)
Definition onTimeout (rc : RemoteCall) (w : World) : RemoteCall * World :=
  let '(rc, w) := unsubscribe rc w in
  (reject (Error (timeout_message (rc_roomId rc) (rc_method rc) (rc_args rc)
                    (rc_rejectionTimeout rc))) rc, w).

(** The body of the promise up to [publish]: the request id, the
    subscription to the reply channel and the request.  The timer
    variable is not assigned yet. *)
Definition open_request (roomId method : string) (args : option (list JSValue))
    (rejectionTimeout : Z) (w : World) : RemoteCall * World :=
  let '(requestId, w) := generateId w in
  let channel := roomId +:+ ":" +:+ requestId in
  let w := set_presence (presence.subscribe channel (ReplyHandler roomId requestId)) w in
  let w := set_presence (presence.publish (getRoomChannel roomId) (Request method requestId args)) w in
  ({| rc_roomId := roomId; rc_method := method; rc_args := args;
      rc_rejectionTimeout := rejectionTimeout; rc_requestId := requestId;
      unsubscribeTimeout := false; promise := Unsettled |}, w).

(** [unsubscribeTimeout = setTimeout(..., rejectionTimeout)], the
    statement after [publish]. *)
Definition arm (s : RemoteCall * World) : RemoteCall * World :=
  let '(rc, w) := s in
  ({| rc_roomId := rc_roomId rc; rc_method := rc_method rc; rc_args := rc_args rc;
      rc_rejectionTimeout := rc_rejectionTimeout rc; rc_requestId := rc_requestId rc;
      unsubscribeTimeout := true; promise := promise rc |},
   effect (SetTimeout (rc_rejectionTimeout rc)) w).

(** The body of the promise when [publish] returns before any reply is
    delivered: subscribe, publish the request, arm the timer. *)
Definition send_request (roomId method : string) (args : option (list JSValue))
    (rejectionTimeout : Z) (w : World) : RemoteCall * World :=
  arm (open_request roomId method args rejectionTimeout w).

(** Is the reply handler of the call still subscribed to its channel? *)
Definition listening (rc : RemoteCall) (w : World) : bool :=
  bool_decide (ReplyHandler (rc_roomId rc) (rc_requestId rc)
               ∈ default [] (channels (presence w) !! channel_of rc)).

(** One event: presence hands a message to the reply handler if it is
    still subscribed, the timer runs its callback if it has not been
    cleared. *)
Definition handle (ev : Event) (s : RemoteCall * World) : RemoteCall * World :=
  let '(rc, w) := s in
  match ev with
  | Arrives code data =>
      if listening rc w then onReply code data rc w else (rc, w)
  | TimerFires =>
      if unsubscribeTimeout rc then onTimeout rc w else (rc, w)
  end.

Definition play (evs : list Event) (s : RemoteCall * World) : RemoteCall * World :=
  foldl (λ s ev, handle ev s) s evs.

(** The first thing that happens to a call once its timer is armed,
    from the script of the network; when the script is over nobody
    answers.  A reply handed over within [publish] has been dealt with
    by then, and what is left to happen is the timer. *)
Definition next_event (w : World) : Event * World :=
  match network w with
  | Message code data :: rest => (Arrives code data, set_network rest w)
  | Silence :: rest => (TimerFires, set_network rest w)
  | Immediate _ _ :: rest => (TimerFires, set_network rest w)
  | [] => (TimerFires, w)
  end.

(** The remote branch as it runs: the body of the promise, in which
    [publish] may hand the reply to the reply handler before the timer
    is armed, then the first event.  A caller whose promise the reply
    within [publish] has settled goes on at once, with the timer still
    armed behind it. *)
Definition remote_call (roomId method : string) (args : option (list JSValue))
    (rejectionTimeout : Z) (w : World) : RemoteCall * World :=
  let '(rc, w) := open_request roomId method args rejectionTimeout w in
  let published :=
    match network w with
    | Immediate code data :: _ => handle (Arrives code data) (rc, w)
    | _ => (rc, w)
    end in
  let '(rc, w) := arm published in
  let '(ev, w) := next_event w in
  match promise rc with
  | Unsettled => handle ev (rc, w)
  | _ => (rc, w)
  end.

(** *** remoteRoomCall *)

Definition remoteRoomCall (roomId method : string) (args : option (list JSValue))
    (rejectionTimeout : option Z) : Async RemoteRoomResponse :=
  λ w,
  let rejectionTimeout := default REMOTE_ROOM_SHORT_TIMEOUT rejectionTimeout in
  match localRooms w !! roomId with
  | None =>
      let '(rc, w) := remote_call roomId method args rejectionTimeout w in
      (promise rc, w)
  | Some room =>
      match args, member room method with
      | None, Property v => (Resolved (processId w, v), w)
      | _, Function f =>
          match f room (default [] args) w with
          | (Resolved v, w') => (Resolved (processId w, v), w')
          | (Rejected e, w') => (Rejected e, w')
          | (Unsettled, w') => (Unsettled, w')
          end
      | Some _, Property VUndefined =>
          (Rejected (TypeError "Cannot read property 'apply' of undefined"), w)
      | Some _, Property _ =>
          (Rejected (TypeError "room[method].apply is not a function"), w)
      end
  end.

(** *** Seat reservation *)

(** The object [{ room, sessionId }]. *)
Definition SeatReservation : Type := RoomListingData * JSValue.

Definition reserveSeatFor (room : RoomListingData) (options : JSObject) : Async SeatReservation :=
  sessionId ← call generateId;
  '(_, reserveSeatSuccessful) ←
    remoteRoomCall (toString (get room "roomId")) "_reserveSeat"
      (Some [VStr sessionId; VObj options]) None;
  if negb (truthy reserveSeatSuccessful)
  then throw (SeatReservationError (toString (get room "roomId") +:+ " is already full."))
  else mret (room, VStr sessionId).

(** *** The admission gate *)

Definition awaitRoomAvailable {A} (roomToJoin : string) (callback : Async A) : Async A :=
  λ w,
  let concurrencyKey := getHandlerConcurrencyKey roomToJoin in
  let '(n, p) := presence.incr concurrencyKey (presence w) in
  let concurrency := n - 1 in
  let concurrencyTimeout := Z.min (concurrency * 100) REMOTE_ROOM_SHORT_TIMEOUT in
  let w := effect (SetTimeout concurrencyTimeout) (set_presence (λ _, p) w) in
  match callback w with
  | (Unsettled, w) => (Unsettled, w)
  | (result, w) => (result, set_presence (λ p, (presence.decr concurrencyKey p).2) w)
  end.

Definition queryRoom (roomName : string) (options : JSObject) : Async (option RoomListingData) :=
  awaitRoomAvailable roomName (λ w,
    match handlers w !! roomName with
    | None =>
        (Rejected (MatchMakeError ("no available handler for " +:+ dq +:+ roomName +:+ dq)
                     ERR_MATCHMAKE_NO_HANDLER), w)
    | Some handler =>
        let query :=
          driver.findOne
            (getFilterOptions handler options
             ∪ {[ "locked" := VBool false; "name" := VStr roomName ]}) in
        let query :=
          match sortOptions handler with
          | Some spec => driver.sort spec query
          | None => query
          end in
        (Resolved (driver.await query (driver w)), w)
    end).

(** *** Room references *)

Definition createRoomReferences (room : Room) (init : bool) : Async bool :=
  step (set_localRooms (<[roomId room := room]>));;
  step (set_presence (presence.sadd (roomName room) (roomId room)));;
  (if init
   then step (set_presence
                (presence.subscribe (getRoomChannel (roomId room))
                   (RoomChannelHandler (roomId room))))
   else mret tt);;
  mret true.

Definition clearRoomReferences (room : Room) (w : World) : World :=
  let w := set_presence (presence.srem (roomName room) (roomId room)) w in
  set_presence (presence.del (roomId room)) w.

(** [this.handlers[name].emit(event, room)]; the listeners are the
    application's, the emission is recorded. *)
Definition emit (name event : string) (room : Room) : Async unit :=
  λ w, match handlers w !! name with
       | Some _ => (Resolved tt, effect (Emit name event (roomId room)) w)
       | None => (Rejected (TypeError "Cannot read property 'emit' of undefined"), w)
       end.

(** The first argument is the name bound at creation; as in the source
    the body reads [room.roomName] instead. *)
Definition lockRoom (name : string) (room : Room) : Async unit :=
  step (clearRoomReferences room);;
  emit (roomName room) "lock" room.

Definition unlockRoom (name : string) (room : Room) : Async unit :=
  created ← createRoomReferences room false;
  if created : bool then emit (roomName room) "unlock" room else mret tt.

Definition disposeRoom (name : string) (room : Room) : Async unit :=
  step (set_driver (driver.remove (listing room)));;
  emit name "dispose" room;;
  step (set_presence (presence.del (getHandlerConcurrencyKey name)));;
  step (clearRoomReferences room);;
  step (set_presence (presence.unsubscribe (getRoomChannel (roomId room))));;
  step (set_localRooms (delete (roomId room))).

Definition getRoomById (roomId : string) (w : World) : option Room :=
  localRooms w !! roomId.

Definition hasHandler (name : string) (w : World) : bool :=
  bool_decide (is_Some (handlers w !! name)).

(** *** createRoom *)

(** [room.roomId = ...; room.roomName = ...; room.listing = ...] on
    the instance the constructor returned. *)
Definition set_public_attributes (room : Room) (class id name : string)
    (l : RoomListingData) : Room :=
  {| className := class; roomId := id; roomName := name; listing := l;
     maxClients := maxClients room; _internalState := _internalState room;
     listeners := listeners room; props := props room |}.

(** [room._internalState = CREATED] and the two stamps on the listing. *)
Definition set_created (room : Room) : Room :=
  {| className := className room; roomId := roomId room; roomName := roomName room;
     listing := <["maxClients" := maxClients room]>
                  (<["roomId" := VStr (roomId room)]> (listing room));
     maxClients := maxClients room; _internalState := CREATED;
     listeners := listeners room; props := props room |}.

(** The six [room.on] and [room.once] calls. *)
Definition bind_listeners (room : Room) (name : string) : Room :=
  {| className := className room; roomId := roomId room; roomName := roomName room;
     listing := listing room; maxClients := maxClients room;
     _internalState := _internalState room;
     listeners :=
       listeners room ++
       [("lock", BoundLockRoom name);
        ("unlock", BoundUnlockRoom name);
        ("join", BoundOnClientJoinRoom);
        ("leave", BoundOnClientLeaveRoom);
        ("dispose", BoundDisposeRoom name);
        ("disconnect", RemoveAllListeners)];
     props := props room |}.

(** The message [new MatchMakeError(message, code)] has: that of the
    [Error] it extends, which is empty when built from [undefined]
    (errors/MatchMakeError.ts is not among the sources). *)
Definition error_message (message : JSValue) : string :=
  match message with
  | VUndefined => EmptyString
  | message => toString message
  end.

Definition createRoom (roomName : string) (clientOptions : JSObject) : Async RoomListingData :=
  λ w,
  match handlers w !! roomName with
  | None => (Rejected (TypeError "Cannot read property 'klass' of undefined"), w)
  | Some registeredHandler =>
      let class := classes (klass registeredHandler) in
      let room := construct class in
      let '(id, w) := generateId w in
      let room :=
        set_public_attributes room (klass registeredHandler) id roomName
          (driver.createInstance
             (getFilterOptions registeredHandler clientOptions
              ∪ {[ "name" := VStr roomName;
                   "processId" := optional_string (processId w) ]})) in
      let created :=
        match onCreate class with
        | Some onCreate =>
            match onCreate room (merge ∅ clientOptions (options registeredHandler)) w with
            | (Rejected e, w) =>
                (Rejected (MatchMakeError (error_message (message_of e))
                             ERR_MATCHMAKE_UNHANDLED), w)
            | r => r
            end
        | None => (Resolved room, w)
        end in
      match created with
      | (Resolved room, w) =>
          let room := bind_listeners (set_created room) roomName in
          (createRoomReferences room true;;
           step (set_driver (driver.save (listing room)));;
           step (effect (Emit roomName "create" (roomId room)));;
           mret (listing room)) w
      | (Rejected e, w) => (Rejected e, w)
      | (Unsettled, w) => (Unsettled, w)
      end
  end.

(** *** The matchmaking methods *)

(** Modelled from the spec: [retry] (Utils.ts is not among the
    sources).  Section 4.4: the callback is run, and run again up to
    [maxRetries] times, only after a rejection whose kind is in the
    white list; any other rejection, and the one that follows the last
    retry, is the result. *)
Fixpoint retry {A} (cb : Async A) (maxRetries : nat) (errorWhiteList : list ErrorClass)
    : Async A :=
  λ w,
  match cb w with
  | (Rejected e, w') =>
      if bool_decide (constructor e ∈ errorWhiteList)
      then match maxRetries with
           | S n => retry cb n errorWhiteList w'
           | O => (Rejected e, w')
           end
      else (Rejected e, w')
  | r => r
  end.

(** The callback [joinOrCreate] hands to [retry]. *)
Definition joinOrCreate_attempt (roomName : string) (options : JSObject)
    : Async SeatReservation :=
  room ← queryRoom roomName options;
  room ← match room with
         | Some room => mret room
         | None => createRoom roomName options
         end;
  reserveSeatFor room options.

Definition joinOrCreate (roomName : string) (options : JSObject) : Async SeatReservation :=
  retry (joinOrCreate_attempt roomName options) 5 [SeatReservationErrorC].

Definition create (roomName : string) (options : JSObject) : Async SeatReservation :=
  λ w,
  match handlers w !! roomName with
  | None =>
      (Rejected (MatchMakeError ("no available handler for " +:+ dq +:+ roomName +:+ dq)
                   ERR_MATCHMAKE_NO_HANDLER), w)
  | Some _ =>
      (room ← createRoom roomName options;
       reserveSeatFor room options) w
  end.

Definition joinById (roomId : string) (options : JSObject) : Async SeatReservation :=
  room ← call (λ w, (driver.await (driver.findOne {[ "roomId" := VStr roomId ]}) (driver w), w));
  match room with
  | Some room =>
      let rejoinSessionId := get options "sessionId" in
      if truthy rejoinSessionId then
        '(_, hasReservedSeat) ←
          remoteRoomCall (toString (get room "roomId")) "hasReservedSeat"
            (Some [rejoinSessionId]) None;
        if truthy hasReservedSeat
        then mret (room, rejoinSessionId)
        else throw (MatchMakeError "session expired" ERR_MATCHMAKE_EXPIRED)
      else if negb (truthy (get room "locked")) then
        reserveSeatFor room options
      else
        throw (MatchMakeError ("room " +:+ dq +:+ roomId +:+ dq +:+ " is locked")
                 ERR_MATCHMAKE_INVALID_ROOM_ID)
  | None =>
      throw (MatchMakeError ("room " +:+ dq +:+ roomId +:+ dq +:+ " not found")
               ERR_MATCHMAKE_INVALID_ROOM_ID)
  end.

(** [conditions] is a reference to the caller's object, or [None] when
    the argument is left out and the default [{}] is made. *)
Definition query (roomName : option string) (conditions : option nat)
    : Async (list RoomListingData) :=
  λ w,
  let '(conditions, w) :=
    match conditions with
    | Some ref => (ref, w)
    | None => alloc ∅ w
    end in
  let w :=
    if truthy (optional_string roomName)
    then assign conditions "name" (optional_string roomName) w
    else w in
  let w := assign conditions "private" (VBool false) w in
  (Resolved (driver.find (deref conditions w) (driver w)), w).

End MatchMaker.

(** ** transport/WebSocketTransport.ts *)

Module WebSocketTransport.

(** The two parts of the parsed URL the join path reads. *)
Record UrlWithStringQuery := {
  pathname : string;
  url_query : string;
}.

(** A character of the class [[a-zA-Z0-9_\-]]. *)
Definition word_char (c : Ascii.ascii) : bool :=
  let n := Ascii.nat_of_ascii c in
  ((97 <=? n) && (n <=? 122) || (65 <=? n) && (n <=? 90) || (48 <=? n) && (n <=? 57)
   || (n =? 95) || (n =? 45))%nat.

(** The longest prefix of word characters, and the rest. *)
Fixpoint span_word (l : list Ascii.ascii) : list Ascii.ascii * list Ascii.ascii :=
  match l with
  | c :: l' =>
      if word_char c
      then let '(a, b) := span_word l' in (c :: a, b)
      else ([], l)
  | [] => ([], [])
  end.

Definition slash : Ascii.ascii := Ascii.ascii_of_nat 47.

(** Group 1 of [pathname.match(/\/[a-zA-Z0-9_\-]+\/([a-zA-Z0-9_\-]+)$/)]:
    the path must end in two non-empty words, each after a slash; read
    from the end, the last word is the longest run of word characters. *)
Definition match_room_path (path : string) : option string :=
  let '(last, rest) := span_word (reverse (String.list_ascii_of_string path)) in
  match last, rest with
  | _ :: _, s :: rest =>
      if Ascii.eqb s slash then
        let '(before, rest) := span_word rest in
        match before, rest with
        | _ :: _, s' :: _ =>
            if Ascii.eqb s' slash
            then Some (String.string_of_list_ascii (reverse last))
            else None
        | _, _ => None
        end
      else None
  | _, _ => None
  end.

(** Modelled from the spec: [send[Protocol.JOIN_ERROR](client, message)]
    of Protocol.ts, which is not among the sources, sends the client a
    framed message (section 4.7). *)
Definition send (code : Protocol) (message : JSValue) (client : Client) : Client :=
  {| pingCount := pingCount client; id := id client; sessionId := sessionId client;
     sent := sent client ++ [Framed code message]; closed := closed client |}.

(** [client.close(code)] *)
Definition close (code : Protocol) (client : Client) : Client :=
  {| pingCount := pingCount client; id := id client; sessionId := sessionId client;
     sent := sent client; closed := code :: closed client |}.

Section Transport.

Variable classes : string → RoomClass.

(** [parseQueryString] of Utils.ts. *)
Variable parseQueryString : string → JSObject.

(** The [catch] block of [handleMatchJoin]. *)
Definition join_failed (e : Thrown) (client : Client) : Client :=
  let message := if truthy (message_of e) then message_of e else VStr EmptyString in
  close WS_CLOSE_WITH_ERROR (send JOIN_ERROR message client).

Definition handleMatchJoin (client : Client) (parsedURL : UrlWithStringQuery)
    (w : World) : Client * World :=
  let sessionId' := get (parseQueryString (url_query parsedURL)) "sessionId" in
  let processAndRoomId := match_room_path (pathname parsedURL) in
  (* [null] is used as the key "null" *)
  let roomId := default "null" processAndRoomId in
  let room := getRoomById roomId w in
  let client :=
    {| pingCount := 0; id := sessionId'; sessionId := sessionId';
       sent := sent client; closed := closed client |} in
  let '(joined, (client, w)) :=
    match room with
    | Some room => _onJoin (classes (className room)) room client w
    | None =>
        (Rejected (TypeError "Cannot read property '_onJoin' of undefined"), (client, w))
    end in
  match joined with
  | Rejected e => (join_failed e client, w)
  | _ => (client, w)
  end.

End Transport.

End WebSocketTransport.

(** ** A sample deployment

    A room class with two seats, used to run the definitions on concrete
    worlds. *)

Module Sample.

Definition seat_key (sessionId : JSValue) : string := "seat:" +:+ toString sessionId.

(** The handle as the world has it now. *)
Definition current (this : Room) (w : World) : Room :=
  default this (localRooms w !! roomId this).

Definition with_props (room : Room) (p : JSObject) : Room :=
  {| className := className room; roomId := roomId room; roomName := roomName room;
     listing := listing room; maxClients := maxClients room;
     _internalState := _internalState room; listeners := listeners room; props := p |}.

Definition seats_taken (room : Room) : Z :=
  match get (props room) "reserved" with VNum n => n | _ => 0 end.

Definition capacity (room : Room) : Z :=
  match maxClients room with VNum n => n | _ => 0 end.

Definition _reserveSeat (this : Room) (args : list JSValue) (w : World)
    : Outcome JSValue * World :=
  let room := current this w in
  let sessionId := default VUndefined (head args) in
  if seats_taken room <? capacity room then
    let room :=
      with_props room
        (<[seat_key sessionId := VBool true]>
           (<["reserved" := VNum (seats_taken room + 1)]> (props room))) in
    (Resolved (VBool true), set_localRooms (<[roomId room := room]>) w)
  else (Resolved (VBool false), w).

Definition hasReservedSeat (this : Room) (args : list JSValue) (w : World)
    : Outcome JSValue * World :=
  let room := current this w in
  let sessionId := default VUndefined (head args) in
  (Resolved (VBool (bool_decide (is_Some (props room !! seat_key sessionId)))), w).

Definition explode (this : Room) (args : list JSValue) (w : World)
    : Outcome JSValue * World :=
  (Rejected (Error "boom"), w).

Definition blank : Room :=
  {| className := "ChatRoom"; roomId := EmptyString; roomName := EmptyString;
     listing := ∅; maxClients := VNum 2; _internalState := CREATING;
     listeners := []; props := ∅ |}.

Definition ChatRoom : RoomClass :=
  {| construct := blank;
     onCreate := None;
     methods := λ name,
       if String.eqb name "_reserveSeat" then Some _reserveSeat
       else if String.eqb name "hasReservedSeat" then Some hasReservedSeat
       else if String.eqb name "explode" then Some explode
       else None;
     _onJoin := λ room client w,
       if bool_decide (is_Some (props (current room w) !! seat_key (sessionId client)))
       then (Resolved tt, (client, w))
       else (Rejected (Error "seat reservation expired"), (client, w)) |}.

Definition classes (name : string) : RoomClass := ChatRoom.

Definition JSON_stringify (args : list JSValue) : string :=
  "[" +:+ String.concat "," (toString <$> args) +:+ "]".

Definition chat : RegisteredHandler :=
  {| klass := "ChatRoom"; options := ∅; getFilterOptions := λ _, ∅; sortOptions := None |}.

Definition no_presence : Presence :=
  {| channels := ∅; data := ∅; keys := ∅; calls := [] |}.

(** A process that has registered the handler and hosts no room. *)
Definition started : World :=
  {| handlers := {[ "chat" := chat ]};
     processId := Some "p1";
     localRooms := ∅;
     presence := no_presence;
     driver := {| rooms := [] |};
     isGracefullyShuttingDown := false;
     heap := ∅; idSeed := 0%N; effects := []; network := [] |}.

(** The same process after one client has joined or created "chat". *)
Definition one_room : World :=
  (joinOrCreate None classes JSON_stringify "chat" ∅ started).2.

(** The handle of the room made. *)
Definition room0 : Room := default blank (localRooms one_room !! "0").

(** The process once both seats of the room are taken. *)
Definition full_room : World :=
  (joinOrCreate None classes JSON_stringify "chat" ∅ one_room).2.

(** The same process with nine requests for "chat" in flight. *)
Definition busy : World :=
  set_presence
    (λ p, {| channels := channels p; data := data p;
             keys := {[ "chat:c" := 9 ]}; calls := calls p |})
    started.

(** A listing whose owner is another process. *)
Definition remote_listing : RoomListingData :=
  {[ "roomId" := VStr "r9"; "name" := VStr "chat"; "processId" := VStr "p2";
     "locked" := VBool false; "private" := VBool false; "clients" := VNum 1 ]}.

Definition locked_listing : RoomListingData :=
  {[ "roomId" := VStr "r8"; "name" := VStr "chat"; "processId" := VStr "p2";
     "locked" := VBool true; "private" := VBool false; "clients" := VNum 2 ]}.

(** A process that sees two rooms of another process in the registry. *)
Definition with_remote : World :=
  set_driver (λ _, {| rooms := [remote_listing; locked_listing] |}) started.

End Sample.

(** ** MatchMaker.ts, the other methods *)

Section MatchMakerRest.

Variable COLYSEUS_PRESENCE_SHORT_TIMEOUT : option Z.
Variable classes : string → RoomClass.
Variable JSON_stringify : list JSValue → string.

(** The defaults of the second and third parameter of [retry], which
    Utils.ts declares. *)
Variable defaultMaxRetries : nat.
Variable defaultErrorWhiteList : list ErrorClass.

(** A thrown value as the value that goes out in a reply when it has no
    message. *)
Variable thrown_value : Thrown → JSValue.

(** The callback [join] hands to [retry]. *)
Definition join_attempt (roomName : string) (options : JSObject) : Async SeatReservation :=
  room ← queryRoom COLYSEUS_PRESENCE_SHORT_TIMEOUT roomName options;
  match room with
  | None =>
      throw (MatchMakeError "no rooms found with provided criteria"
               ERR_MATCHMAKE_INVALID_CRITERIA)
  | Some room =>
      reserveSeatFor COLYSEUS_PRESENCE_SHORT_TIMEOUT classes JSON_stringify room options
  end.

Definition join (roomName : string) (options : JSObject) : Async SeatReservation :=
  retry (join_attempt roomName options) defaultMaxRetries defaultErrorWhiteList.

(** *** The request handler of a room channel *)

(** The closure [reply] of the callback [createRoomReferences]
    subscribes: the answer goes out on the reply channel of the request. *)
Definition reply (room : Room) (requestId : string) (code : IpcProtocol) (data : JSValue)
    (w : World) : World :=
  set_presence
    (presence.publish (roomId room +:+ ":" +:+ requestId) (Reply code (processId w, data)))
    w.

(** [e.message || e] *)
Definition error_data (e : Thrown) : JSValue :=
  if truthy (message_of e) then message_of e else thrown_value e.

(** The callback itself, on the message [[method, requestId, args]].  A
    method that throws and a method whose promise is rejected are both
    the outcome [Rejected]; a promise that never settles is never
    answered. *)
Definition onRequest (room : Room) (method requestId : string)
    (args : option (list JSValue)) (w : World) : World :=
  match args, member classes room method with
  | None, Property v => reply room requestId SUCCESS v w
  | _, Function f =>
      match f room (default [] args) w with
      | (Resolved response, w') => reply room requestId SUCCESS response w'
      | (Rejected e, w') => reply room requestId ERROR (error_data e) w'
      | (Unsettled, w') => w'
      end
  | Some _, Property VUndefined =>
      reply room requestId ERROR (VStr "Cannot read property 'apply' of undefined") w
  | Some _, Property _ =>
      reply room requestId ERROR (VStr "room[method].apply is not a function") w
  end.

(** *** Room types and stale rooms *)

(** The object [{ roomId: room.roomId, roomName } as Room] handed to
    [clearRoomReferences]: no other field of it is read. *)
Definition stale_room (room : RoomListingData) (name : string) : Room :=
  {| className := EmptyString; roomId := toString (get room "roomId"); roomName := name;
     listing := ∅; maxClients := VUndefined; _internalState := CREATING;
     listeners := []; props := ∅ |}.

(** The function mapped over the cached rooms: the room is asked for
    its [roomId]; when the call is rejected the listing is removed and
    the references are cleared. *)
Definition cleanup_room (name : string) (room : RoomListingData) (w : World) : World :=
  match remoteRoomCall COLYSEUS_PRESENCE_SHORT_TIMEOUT classes JSON_stringify
          (toString (get room "roomId")) "roomId" None None w with
  | (Rejected _, w) =>
      clearRoomReferences (stale_room room name) (set_driver (driver.remove room) w)
  | (_, w) => w
  end.

(** The calls of [Promise.all] are played one after the other, in the
    order of the cached rooms; the source starts them together, which
    changes the order of the entries in the logs only.  The projection
    handed to [find] is left to the driver. *)
Definition cleanupStaleRooms (roomName : string) (w : World) : World :=
  let cachedRooms := driver.find {[ "name" := VStr roomName ]} (driver w) in
  let w := set_presence (presence.del (getHandlerConcurrencyKey roomName)) w in
  foldl (λ w room, cleanup_room roomName room w) w cachedRooms.

Definition set_handlers (f : gmap string RegisteredHandler → gmap string RegisteredHandler)
    (w : World) : World :=
  {| handlers := f (handlers w); processId := processId w; localRooms := localRooms w;
     presence := presence w; driver := driver w;
     isGracefullyShuttingDown := isGracefullyShuttingDown w;
     heap := heap w; idSeed := idSeed w; effects := effects w; network := network w |}.

(** [new RegisteredHandler(klass, defaultOptions)] is the handler given;
    the cleanup it starts is not awaited. *)
Definition defineRoomType (name : string) (registeredHandler : RegisteredHandler)
    (w : World) : RegisteredHandler * World :=
  let w := set_handlers (<[name := registeredHandler]>) w in
  (registeredHandler, cleanupStaleRooms name w).

Definition onClientJoinRoom (room : Room) : Async unit :=
  emit (roomName room) "join" room.

Definition onClientLeaveRoom (room : Room) : Async unit :=
  emit (roomName room) "leave" room.

(** The steps of [createRoom] between the listing and the references:
    the optional [onCreate] with the merged options, whose failure
    becomes ERR_MATCHMAKE_UNHANDLED. *)
Definition run_onCreate (registeredHandler : RegisteredHandler) (room : Room)
    (clientOptions : JSObject) : Async Room :=
  λ w,
  match onCreate (classes (klass registeredHandler)) with
  | Some onCreate =>
      match onCreate room (merge ∅ clientOptions (options registeredHandler)) w with
      | (Rejected e, w) =>
          (Rejected (MatchMakeError (error_message (message_of e))
                       ERR_MATCHMAKE_UNHANDLED), w)
      | r => r
      end
  | None => (Resolved room, w)
  end.

(** The room [createRoom] hands to [onCreate]: the new instance with
    its id, its name and its listing. *)
Definition new_room (registeredHandler : RegisteredHandler) (roomName : string)
    (clientOptions : JSObject) (w : World) : Room :=
  set_public_attributes (construct (classes (klass registeredHandler)))
    (klass registeredHandler) (generateId w).1 roomName
    (driver.createInstance
       (getFilterOptions registeredHandler clientOptions
        ∪ {[ "name" := VStr roomName;
             "processId" := optional_string (processId (generateId w).2) ]})).

End MatchMakerRest.

(** ** transport/WebSocketTransport.ts, the other methods *)

Module Transport.

(** *** The matchmake path *)

(** [url.match(allowedRoomNameChars)]: the maximal runs of word
    characters, in order; [cur] is the run being read, newest first. *)
Fixpoint word_runs (l : list Ascii.ascii) (cur : list Ascii.ascii) : list (list Ascii.ascii) :=
  match l with
  | [] => match cur with [] => [] | _ => [reverse cur] end
  | c :: l =>
      if WebSocketTransport.word_char c
      then word_runs l (c :: cur)
      else match cur with [] => [] | _ => [reverse cur] end ++ word_runs l []
  end.

Definition matchedParams (url : string) : list string :=
  String.string_of_list_ascii <$> word_runs (String.list_ascii_of_string url) [].

(** [matchedParams[matchedParams.length - 2]] and
    [matchedParams[matchedParams.length - 1]] *)
Definition method_of (params : list string) : option string :=
  match reverse params with _ :: m :: _ => Some m | _ => None end.

Definition name_of (params : list string) : option string :=
  head (reverse params).

Definition exposedMethods : list string := ["joinOrCreate"; "create"; "join"; "joinById"].

(** What [client.send(JSON.stringify(...))] is given: the seat
    reservation, or [{ code, error }]. *)
Inductive MatchmakeReply :=
| SeatReply (response : SeatReservation)
| ErrorReply (code : Protocol) (error : JSValue).

(** [e.code || Protocol.ERR_MATCHMAKE_UNHANDLED]: only a MatchMakeError
    has a code, and the codes of the protocol are not zero. *)
Definition code_of (e : Thrown) : Protocol :=
  match e with
  | MatchMakeError _ code => code
  | _ => ERR_MATCHMAKE_UNHANDLED
  end.

Section Matchmake.

Variable COLYSEUS_PRESENCE_SHORT_TIMEOUT : option Z.
Variable classes : string → RoomClass.
Variable JSON_stringify : list JSValue → string.
Variable defaultMaxRetries : nat.
Variable defaultErrorWhiteList : list ErrorClass.

(** [this.matchMaker[method](name, body)] for an exposed method. *)
Definition dispatch (method name : string) (body : JSObject) : Async SeatReservation :=
  if String.eqb method "joinOrCreate" then
    joinOrCreate COLYSEUS_PRESENCE_SHORT_TIMEOUT classes JSON_stringify name body
  else if String.eqb method "create" then
    create COLYSEUS_PRESENCE_SHORT_TIMEOUT classes JSON_stringify name body
  else if String.eqb method "join" then
    join COLYSEUS_PRESENCE_SHORT_TIMEOUT classes JSON_stringify
      defaultMaxRetries defaultErrorWhiteList name body
  else
    joinById COLYSEUS_PRESENCE_SHORT_TIMEOUT classes JSON_stringify name body.

(** The frames the client is sent, if the call settles, and the world
    left.  [method] is [None] when the URL has a single run. *)
Definition handelMatchmake2 (method : option string) (name : string) (body : JSObject)
    (w : World) : list MatchmakeReply * World :=
  let attempt : Async SeatReservation :=
    match method with
    | Some m =>
        if bool_decide (m ∈ exposedMethods)
        then dispatch m name body
        else throw (MatchMakeError ("Invalid method " +:+ dq +:+ m +:+ dq)
                      ERR_MATCHMAKE_UNHANDLED)
    | None =>
        throw (MatchMakeError ("Invalid method " +:+ dq +:+ "undefined" +:+ dq)
                 ERR_MATCHMAKE_UNHANDLED)
    end in
  match attempt w with
  | (Resolved response, w) => ([SeatReply response], w)
  | (Rejected e, w) => ([ErrorReply (code_of e) (message_of e)], w)
  | (Unsettled, w) => ([], w)
  end.

(** [handleMatchmake1] followed by the first message: the URL gives the
    method and the name, the message the body.  A URL without a word
    throws before any handler is set. *)
Definition handleMatchmake (url : string) (body : JSObject) (w : World)
    : list MatchmakeReply * World :=
  let params := matchedParams url in
  match name_of params with
  | Some name => handelMatchmake2 (method_of params) name body w
  | None => ([], w)
  end.

End Matchmake.

(** *** Broken connections *)

(** A connected client as the server of the engine holds it. *)
Record Socket := {
  client : Client;
  pings : nat;
  terminated : bool;
}.

(** The defaults of the constructor. *)
Definition pingTimeout (option_pingTimeout : option Z) : Z := default 1500 option_pingTimeout.
Definition pingCountMax (option_pingCountMax : option Z) : Z := default 2 option_pingCountMax.

(** Is the interval started at all? *)
Definition autoTerminates (option_pingTimeout option_pingCountMax : option Z) : bool :=
  (0 <? pingTimeout option_pingTimeout) && (0 <? pingCountMax option_pingCountMax).

Definition set_pingCount (n : Z) (c : Client) : Client :=
  {| pingCount := n; id := id c; sessionId := sessionId c; sent := sent c; closed := closed c |}.

(** The listener of [pong]. *)
Definition heartbeat (s : Socket) : Socket :=
  {| client := set_pingCount 0 (client s); pings := pings s; terminated := terminated s |}.

(** One round of the interval on one client.  A terminated client has
    left the set of clients of the server. *)
Definition ping_round (max : Z) (s : Socket) : Socket :=
  if terminated s then s
  else if max <=? pingCount (client s)
  then {| client := client s; pings := pings s; terminated := true |}
  else {| client := set_pingCount (pingCount (client s) + 1) (client s);
          pings := S (pings s); terminated := false |}.

(** What happens to a client over time. *)
Inductive Beat := Round | Pong.

Definition beat (max : Z) (s : Socket) (b : Beat) : Socket :=
  match b with
  | Round => ping_round max s
  | Pong => heartbeat s
  end.

Definition beats (max : Z) (bs : list Beat) (s : Socket) : Socket :=
  foldl (beat max) s bs.

(** The longest run of rounds with no pong in between is at most [n]. *)
Fixpoint silent_at_most (n : nat) (run : nat) (bs : list Beat) : bool :=
  match bs with
  | [] => true
  | Round :: bs => (S run <=? n)%nat && silent_at_most n (S run) bs
  | Pong :: bs => silent_at_most n 0 bs
  end.

End Transport.

(** ** More of the sample deployment *)

Module Fixtures.

(** A room class whose [onCreate] always fails. *)
Definition Arena : RoomClass :=
  {| construct := Sample.blank;
     onCreate := Some (λ room options w, (Rejected (Error "no arena left"), w));
     methods := λ _, None;
     _onJoin := λ room client w, (Resolved tt, (client, w)) |}.

(** A room class whose [onCreate] fails with the data of a remote
    reply, which has no message. *)
Definition Relay : RoomClass :=
  {| construct := Sample.blank;
     onCreate := Some (λ room options w, (Rejected (RemoteError (Some "p2", VNull)), w));
     methods := λ _, None;
     _onJoin := λ room client w, (Resolved tt, (client, w)) |}.

Definition classes (name : string) : RoomClass :=
  if String.eqb name "Arena" then Arena
  else if String.eqb name "Relay" then Relay
  else Sample.ChatRoom.

Definition arena : RegisteredHandler :=
  {| klass := "Arena"; options := ∅; getFilterOptions := λ _, ∅; sortOptions := None |}.

Definition relay : RegisteredHandler :=
  {| klass := "Relay"; options := ∅; getFilterOptions := λ _, ∅; sortOptions := None |}.

(** A process with the three room types registered. *)
Definition three_types : World :=
  {| handlers := {[ "chat" := Sample.chat; "arena" := arena; "relay" := relay ]};
     processId := Some "p1";
     localRooms := ∅;
     presence := Sample.no_presence;
     driver := {| rooms := [] |};
     isGracefullyShuttingDown := false;
     heap := ∅; idSeed := 0%N; effects := []; network := [] |}.

(** The room [createRoom] hands to [onCreate] in the sample process,
    which is the room made, as the class has no [onCreate]. *)
Definition made : Room := new_room Sample.classes Sample.chat "chat" ∅ Sample.started.

(** A client that has just joined. *)
Definition joined : Transport.Socket :=
  {| Transport.client := {| pingCount := 0; id := VStr "s1"; sessionId := VStr "s1";
                            sent := []; closed := [] |};
     Transport.pings := 0;
     Transport.terminated := false |}.

(** A thrown value without a message goes out as [null]. *)
Definition thrown_value (e : Thrown) : JSValue := VNull.

(** The sample process with one client connecting to its room: the
    presence key of the room counts it. *)
Definition connecting : World :=
  set_presence
    (λ p, {| channels := channels p; data := data p;
             keys := <["0" := 1]> (keys p); calls := calls p |})
    Sample.one_room.

(** The process that sees the rooms of another process, on a presence
    that hands the answer of the owner over while [publish] runs. *)
Definition answered_at_once : World :=
  set_network [Immediate SUCCESS (Some "p2", VStr "r9")] Sample.with_remote.

End Fixtures.

(** ** Notions the properties are stated with *)

(** The outcome of the [k]-th run of a callback after the first, every
    run starting in the world the one before left. *)
Fixpoint rerun {A} (cb : Async A) (k : nat) (w : World) : Outcome A * World :=
  match k with
  | O => cb w
  | S k => rerun cb k (cb w).2
  end.

(** Did the run end in a SeatReservationError? *)
Definition seat_reservation_failed {A} (r : Outcome A * World) : Prop :=
  match r.1 with
  | Rejected e => constructor e = SeatReservationErrorC
  | _ => False
  end.

(** The reply [[processId, value]] around the outcome of a method. *)
Definition reply_with {A} (pid : option string) (o : Outcome A) : Outcome (option string * A) :=
  match o with
  | Resolved v => Resolved (pid, v)
  | Rejected e => Rejected e
  | Unsettled => Unsettled
  end.

(** The first reply is one the protocol has: the script of the network
    does not open with a message whose code is neither SUCCESS nor ERROR. *)
Definition protocol_reply (script : list NetEvent) : Prop :=
  match script with
  | Message IpcOther _ :: _ => False
  | _ => True
  end.

(** Two worlds that agree on what a remote call to another process
    leaves alone: the handlers, the local rooms, the registry, the
    objects shared with callers, the sets and keys of presence and the
    source of ids. *)
Definition same_frame (w' w : World) : Prop :=
  handlers w' = handlers w ∧ localRooms w' = localRooms w ∧ driver w' = driver w
  ∧ heap w' = heap w ∧ data (presence w') = data (presence w)
  ∧ keys (presence w') = keys (presence w) ∧ idSeed w' = idSeed w.

(** Is the reply handed over while [publish] runs? *)
Definition immediate (script : list NetEvent) : bool :=
  match script with
  | Immediate _ _ :: _ => true
  | _ => false
  end.

(** The conditions [query] calls [driver.find] with, from the object
    the caller passed as it was before the call. *)
Definition conditions_sent (roomName : option string) (before : JSObject) : JSObject :=
  <["private" := VBool false]>
    (if truthy (optional_string roomName)
     then <["name" := optional_string roomName]> before
     else before).

(** A non-empty string of word characters. *)
Definition word (s : string) : Prop :=
  s ≠ EmptyString ∧ Forall (λ c, WebSocketTransport.word_char c = true)
                       (String.list_ascii_of_string s).

(** The query [queryRoom] builds for a handler: unlocked rooms of the
    room name that pass the filter options, in the order of the
    handler. *)
Definition room_query (handler : RegisteredHandler) (roomName : string) (options : JSObject)
    : Query :=
  let query :=
    driver.findOne
      (getFilterOptions handler options
       ∪ {[ "locked" := VBool false; "name" := VStr roomName ]}) in
  match sortOptions handler with
  | Some spec => driver.sort spec query
  | None => query
  end.

(** A sort specification only reorders the rows it is given. *)
Definition reorders (handler : RegisteredHandler) : Prop :=
  match sortOptions handler with
  | Some spec => ∀ rows row, row ∈ spec rows → row ∈ rows
  | None => True
  end.

(** Is the room of a listing hosted by this process? *)
Definition hosted (locals : gmap string Room) (row : RoomListingData) : bool :=
  bool_decide (is_Some (locals !! toString (get row "roomId"))).

(** A row outlives the cleanup of the cached rooms when it is the row of
    none of the cached rooms that are hosted elsewhere. *)
Definition outlives (locals : gmap string Room) (cached : list RoomListingData)
    (row : RoomListingData) : bool :=
  forallb (λ stale, hosted locals stale || negb (driver.same_row stale row)) cached.

(** * Properties *)

Section Properties.

Context (env : option Z) (classes : string → RoomClass)
        (JSON_stringify : list JSValue → string).

(** *** remoteRoomCall on a room of this process *)

(** C5.  When the room is in [localRooms] the call is answered in
    place.  Without arguments a member that is not callable is read,
    and the world, presence included, is left as it was.  A callable
    member is invoked, and the world the call leaves is the one the
    method left: the call itself issues nothing on Presence.  Either
    way a reply is the pair of [processId] and the value.  Arguments
    given to a member that is not callable make the invocation fail
    with a TypeError. *)
Theorem remoteRoomCall_local (roomId method : string) (args : option (list JSValue))
    (rejectionTimeout : option Z) (room : Room) (w : World) :
  localRooms w !! roomId = Some room →
  match args, member classes room method with
  | None, Property v =>
      remoteRoomCall env classes JSON_stringify roomId method args rejectionTimeout w
      = (Resolved (processId w, v), w)
  | _, Function f =>
      remoteRoomCall env classes JSON_stringify roomId method args rejectionTimeout w
      = (reply_with (processId w) (f room (default [] args) w).1,
         (f room (default [] args) w).2)
  | Some _, Property _ =>
      ∃ message,
        remoteRoomCall env classes JSON_stringify roomId method args rejectionTimeout w
        = (Rejected (TypeError message), w)
  end.
Proof.
  intros Hlocal. unfold remoteRoomCall. rewrite Hlocal.
  destruct args as [args|], (member classes room method) as [v|f]; simpl.
  - destruct v; eauto.
  - by destruct (f room args w) as [[v| |] w'].
  - done.
  - by destruct (f room [] w) as [[v| |] w'].
Qed.

(** *** remoteRoomCall on a room of another process *)

(** The world a request leaves behind it when [publish] returns: one
    more callback is subscribed, and no timer is armed yet. *)
Lemma open_request_pending roomId method args T w :
  channels (presence w) !! (roomId +:+ ":" +:+ (generateId w).1) = None →
  let '(rc, w1) := open_request roomId method args T w in
  channel_of rc = roomId +:+ ":" +:+ (generateId w).1
  ∧ promise rc = Unsettled
  ∧ unsubscribeTimeout rc = false
  ∧ rc_rejectionTimeout rc = T
  ∧ listening rc w1 = true
  ∧ channels (presence w1)
    = <[channel_of rc := [ReplyHandler roomId (generateId w).1]]> (channels (presence w))
  ∧ calls (presence w1)
    = Ppublish (getRoomChannel roomId) (Request method (generateId w).1 args)
        :: Psubscribe (channel_of rc) :: calls (presence w)
  ∧ effects w1 = effects w
  ∧ network w1 = network w.
Proof.
  intros Hfresh. unfold open_request, listening, channel_of; simpl in *.
  rewrite Hfresh; simpl. rewrite lookup_insert_eq; simpl.
  repeat split; try done.
  apply bool_decide_eq_true. set_solver.
Qed.

(** The world a request leaves while its reply is awaited. *)
Lemma send_request_pending roomId method args T w :
  channels (presence w) !! (roomId +:+ ":" +:+ (generateId w).1) = None →
  let '(rc, w1) := send_request roomId method args T w in
  channel_of rc = roomId +:+ ":" +:+ (generateId w).1
  ∧ promise rc = Unsettled
  ∧ unsubscribeTimeout rc = true
  ∧ rc_rejectionTimeout rc = T
  ∧ listening rc w1 = true
  ∧ channels (presence w1)
    = <[channel_of rc := [ReplyHandler roomId (generateId w).1]]> (channels (presence w))
  ∧ calls (presence w1)
    = Ppublish (getRoomChannel roomId) (Request method (generateId w).1 args)
        :: Psubscribe (channel_of rc) :: calls (presence w)
  ∧ effects w1 = SetTimeout T :: effects w.
Proof.
  intros Hfresh. unfold send_request, arm, open_request, listening, channel_of; simpl in *.
  rewrite Hfresh; simpl. rewrite lookup_insert_eq; simpl.
  repeat split; try done.
  apply bool_decide_eq_true. set_solver.
Qed.

(** One more callback is subscribed while the reply is awaited. *)
Lemma subscriptions_insert_fresh (p : Presence) channel cbs :
  channels p !! channel = None →
  presence.subscriptions
    {| channels := <[channel := cbs]> (channels p); data := data p;
       keys := keys p; calls := calls p |}
  = (length cbs + presence.subscriptions p)%nat.
Proof.
  intros Hfresh. unfold presence.subscriptions; simpl.
  rewrite map_fold_insert_L; [done| |done].
  intros. lia.
Qed.

(** Dropping the reply channel gives back the subscriptions there were
    before the request. *)
Lemma unsubscribe_restores (m : gmap string (list Subscriber)) channel cbs :
  m !! channel = None → delete channel (<[channel := cbs]> m) = m.
Proof. intros Hfresh. by rewrite delete_insert_eq, delete_id. Qed.

Lemma channel_of_settle o rc : channel_of (settle o rc) = channel_of rc.
Proof. unfold settle. by destruct (promise rc). Qed.

(** Whatever happens first, the closure [unsubscribe] runs on the
    world as it is. *)
Lemma handle_first_world ev rc w :
  listening rc w = true → unsubscribeTimeout rc = true →
  (handle JSON_stringify ev (rc, w)).2
  = effect ClearTimeout (set_presence (presence.unsubscribe (channel_of rc)) w).
Proof.
  intros Hlisten Htimer. destruct ev as [code data'|]; simpl.
  - rewrite Hlisten. unfold onReply, unsubscribe; simpl.
    destruct code; unfold resolve, reject; by rewrite ?channel_of_settle.
  - by rewrite Htimer.
Qed.

(** And the promise is settled by it, unless the message has a code
    the handler does not know. *)
Lemma handle_first_promise ev rc w :
  listening rc w = true → unsubscribeTimeout rc = true → promise rc = Unsettled →
  promise (handle JSON_stringify ev (rc, w)).1
  = match ev with
    | Arrives SUCCESS data => Resolved data
    | Arrives ERROR data => Rejected (RemoteError data)
    | Arrives IpcOther _ => Unsettled
    | TimerFires =>
        Rejected (Error (timeout_message JSON_stringify (rc_roomId rc) (rc_method rc)
                           (rc_args rc) (rc_rejectionTimeout rc)))
    end.
Proof.
  intros Hlisten Htimer Hpromise. destruct ev as [code data'|]; simpl.
  - rewrite Hlisten. unfold onReply, unsubscribe, resolve, reject, settle.
    destruct code; simpl; by rewrite ?Hpromise.
  - rewrite Htimer. unfold onTimeout, unsubscribe, reject, settle; simpl.
    by rewrite Hpromise.
Qed.

(** The variables of the call the first event leaves: the timer is no
    longer pending, the rest is as it was. *)
Lemma handle_first_call ev rc w :
  listening rc w = true → unsubscribeTimeout rc = true →
  let rc' := (handle JSON_stringify ev (rc, w)).1 in
  channel_of rc' = channel_of rc ∧ rc_roomId rc' = rc_roomId rc
  ∧ rc_requestId rc' = rc_requestId rc ∧ unsubscribeTimeout rc' = false.
Proof.
  intros Hlisten Htimer. destruct ev as [code data'|]; simpl.
  - rewrite Hlisten. unfold onReply, unsubscribe, resolve, reject, settle, channel_of.
    destruct code; simpl; by destruct (promise rc).
  - rewrite Htimer. unfold onTimeout, unsubscribe, reject, settle, channel_of; simpl.
    by destruct (promise rc).
Qed.

(** After the first event the call is deaf: the handler is gone from
    the channel and the timer is cleared, so what comes later changes
    neither the promise nor the world. *)
Lemma handle_later ev rc w :
  listening rc w = false → unsubscribeTimeout rc = false →
  handle JSON_stringify ev (rc, w) = (rc, w).
Proof. intros Hlisten Htimer. destruct ev; simpl; by rewrite ?Hlisten, ?Htimer. Qed.

Lemma play_later evs rc w :
  listening rc w = false → unsubscribeTimeout rc = false →
  play JSON_stringify evs (rc, w) = (rc, w).
Proof.
  intros Hlisten Htimer. induction evs as [|ev evs IH]; [done|].
  change (play JSON_stringify (ev :: evs) (rc, w))
    with (play JSON_stringify evs (handle JSON_stringify ev (rc, w))).
  by rewrite handle_later.
Qed.

(** First wins: once the first event has been handled, whatever follows
    is dropped. *)
Lemma play_first_wins ev evs rc w :
  listening rc w = true → unsubscribeTimeout rc = true →
  channels (presence w) !! channel_of rc = Some [ReplyHandler (rc_roomId rc) (rc_requestId rc)] →
  play JSON_stringify (ev :: evs) (rc, w) = handle JSON_stringify ev (rc, w).
Proof.
  intros Hlisten Htimer Hsub.
  change (play JSON_stringify (ev :: evs) (rc, w))
    with (play JSON_stringify evs (handle JSON_stringify ev (rc, w))).
  pose proof (handle_first_world ev rc w Hlisten Htimer) as Hworld.
  pose proof (handle_first_call ev rc w Hlisten Htimer) as (Hch & Hroom & Hreq & Hcleared).
  destruct (handle JSON_stringify ev (rc, w)) as [rc' w'] eqn:Hfirst; cbn [fst snd] in *.
  apply play_later; [|exact Hcleared].
  unfold listening. rewrite Hch, Hworld; simpl. by rewrite lookup_delete_eq.
Qed.

(** A call that is settled and whose reply channel is gone stays as it
    is: a message finds no handler, and a timer that is still armed,
    when it fires, drops a channel that is not there and rejects a
    promise that is settled. *)
Lemma handle_settled ev rc w :
  channels (presence w) !! channel_of rc = None → promise rc ≠ Unsettled →
  let s := handle JSON_stringify ev (rc, w) in
  channel_of s.1 = channel_of rc ∧ promise s.1 = promise rc
  ∧ channels (presence s.2) = channels (presence w).
Proof.
  intros Hgone Hsettled. destruct ev as [code data'|]; simpl.
  - unfold listening. rewrite Hgone. simpl.
    first [done | by rewrite bool_decide_eq_false_2 by apply not_elem_of_nil].
  - destruct (unsubscribeTimeout rc); [|done].
    unfold onTimeout, unsubscribe, reject, settle, channel_of; simpl.
    destruct (promise rc); [| |done]; simpl; by rewrite delete_id.
Qed.

Lemma play_settled evs rc w :
  channels (presence w) !! channel_of rc = None → promise rc ≠ Unsettled →
  let s := play JSON_stringify evs (rc, w) in
  promise s.1 = promise rc ∧ channels (presence s.2) = channels (presence w).
Proof.
  revert rc w. induction evs as [|ev evs IH]; intros rc w Hgone Hsettled; [done|].
  change (play JSON_stringify (ev :: evs) (rc, w))
    with (play JSON_stringify evs (handle JSON_stringify ev (rc, w))).
  pose proof (handle_settled ev rc w Hgone Hsettled) as (Hch & Hpromise & Hchannels).
  destruct (handle JSON_stringify ev (rc, w)) as [rc' w']; cbn [fst snd] in *.
  destruct (IH rc' w') as [Hp Hc].
  - by rewrite Hchannels, Hch.
  - by rewrite Hpromise.
  - cbn zeta. by rewrite Hp, Hc, Hpromise, Hchannels.
Qed.

(** When [publish] returns before any reply, the call is the request
    followed by the first event. *)
Lemma remote_call_later roomId method args T w :
  immediate (network w) = false →
  remote_call JSON_stringify roomId method args T w
  = let s := send_request roomId method args T w in
    let e := next_event s.2 in
    handle JSON_stringify e.1 (s.1, e.2).
Proof.
  intros Hnet. unfold remote_call, send_request, arm, open_request, next_event; simpl.
  destruct (network w) as [|[code data'| |code data'] rest] eqn:Hscript;
    simpl in *; rewrite ?Hscript; simpl; done.
Qed.

(** When the reply is handed over while [publish] runs, the reply
    handler runs first, then the timer is armed; the timer is what
    settles a call the reply has not settled. *)
Lemma remote_call_immediate roomId method args T w code data rest :
  network w = Immediate code data :: rest →
  remote_call JSON_stringify roomId method args T w
  = let s := arm (handle JSON_stringify (Arrives code data)
                    (open_request roomId method args T w)) in
    let w' := set_network rest s.2 in
    match promise s.1 with
    | Unsettled => handle JSON_stringify TimerFires (s.1, w')
    | _ => (s.1, w')
    end.
Proof.
  intros Hnet. unfold remote_call.
  destruct (open_request roomId method args T w) as [rc w0] eqn:Hopen.
  assert (Hnet0 : network w0 = network w).
  { unfold open_request in Hopen. by inversion Hopen. }
  rewrite Hnet0, Hnet.
  destruct (handle JSON_stringify (Arrives code data) (rc, w0)) as [rc1 w1] eqn:Hreply.
  assert (Hnet1 : network w1 = Immediate code data :: rest).
  { rewrite <- Hnet, <- Hnet0.
    unfold handle, onReply, unsubscribe in Hreply.
    destruct (listening rc w0); inversion Hreply; by subst. }
  unfold arm, next_event; simpl. by rewrite Hnet1.
Qed.

Lemma remoteRoomCall_remote_unfold roomId method args rejectionTimeout w :
  localRooms w !! roomId = None →
  remoteRoomCall env classes JSON_stringify roomId method args rejectionTimeout w
  = let s := remote_call JSON_stringify roomId method args
               (default (REMOTE_ROOM_SHORT_TIMEOUT env) rejectionTimeout) w in
    (promise s.1, s.2).
Proof.
  intros Hremote. unfold remoteRoomCall. rewrite Hremote.
  by destruct (remote_call _ _ _ _ _ w).
Qed.

Lemma next_event_world w :
  let e := next_event w in
  presence e.2 = presence w ∧ effects e.2 = effects w ∧ handlers e.2 = handlers w
  ∧ localRooms e.2 = localRooms w ∧ driver e.2 = driver w ∧ heap e.2 = heap w
  ∧ idSeed e.2 = idSeed w.
Proof. unfold next_event. by destruct (network w) as [|[]]. Qed.

Lemma next_event_first w :
  (next_event w).1
  = match network w with
    | Message code data :: _ => Arrives code data
    | _ => TimerFires
    end.
Proof. unfold next_event. by destruct (network w) as [|[]]. Qed.

(** The parts of the world a remote call does not touch. *)
Lemma handle_frame ev rc w : same_frame (handle JSON_stringify ev (rc, w)).2 w.
Proof.
  destruct ev as [code data'|]; simpl.
  - destruct (listening rc w); [|done]. by destruct code.
  - by destruct (unsubscribeTimeout rc).
Qed.

Lemma remote_call_frame roomId method args T w :
  let w' := (remote_call JSON_stringify roomId method args T w).2 in
  handlers w' = handlers w ∧ localRooms w' = localRooms w ∧ driver w' = driver w
  ∧ heap w' = heap w ∧ data (presence w') = data (presence w)
  ∧ keys (presence w') = keys (presence w) ∧ idSeed w' = N.succ (idSeed w).
Proof.
  unfold remote_call.
  destruct (open_request roomId method args T w) as [rc w0] eqn:Hopen.
  assert (H0 : handlers w0 = handlers w ∧ localRooms w0 = localRooms w ∧ driver w0 = driver w
               ∧ heap w0 = heap w ∧ data (presence w0) = data (presence w)
               ∧ keys (presence w0) = keys (presence w) ∧ idSeed w0 = N.succ (idSeed w)).
  { unfold open_request in Hopen. by inversion Hopen. }
  assert (H1 : same_frame
                 (match network w0 with
                  | Immediate code data :: _ =>
                      handle JSON_stringify (Arrives code data) (rc, w0)
                  | _ => (rc, w0)
                  end).2 w0).
  { destruct (network w0) as [|[code data'| |code data'] rest]; try done.
    apply handle_frame. }
  destruct (match network w0 with
            | Immediate code data :: _ => handle JSON_stringify (Arrives code data) (rc, w0)
            | _ => (rc, w0)
            end) as [rc1 w1].
  cbn [snd] in H1. unfold arm.
  pose proof (next_event_world (effect (SetTimeout (rc_rejectionTimeout rc1)) w1)) as H2.
  destruct (next_event (effect (SetTimeout (rc_rejectionTimeout rc1)) w1)) as [ev w2].
  cbn [fst snd] in H2. cbn [promise].
  assert (H3 : same_frame w2 w1).
  { unfold same_frame. destruct H2 as (Hp & _ & Hh & Hl & Hd & Hheap & Hid).
    by rewrite Hp, Hh, Hl, Hd, Hheap, Hid. }
  assert (H4 : same_frame w2 w0).
  { unfold same_frame in *. intuition congruence. }
  destruct (promise rc1).
  - unfold same_frame in *. cbn [snd]. intuition congruence.
  - unfold same_frame in *. cbn [snd]. intuition congruence.
  - pose proof (handle_frame ev
                  {| rc_roomId := rc_roomId rc1; rc_method := rc_method rc1;
                     rc_args := rc_args rc1; rc_rejectionTimeout := rc_rejectionTimeout rc1;
                     rc_requestId := rc_requestId rc1; unsubscribeTimeout := true;
                     promise := Unsettled |} w2) as H5.
    unfold same_frame in *. intuition congruence.
Qed.

Lemma remoteRoomCall_remote_frame roomId method args rejectionTimeout w :
  localRooms w !! roomId = None →
  let w' := (remoteRoomCall env classes JSON_stringify roomId method args rejectionTimeout w).2 in
  handlers w' = handlers w ∧ localRooms w' = localRooms w ∧ driver w' = driver w
  ∧ heap w' = heap w ∧ data (presence w') = data (presence w)
  ∧ keys (presence w') = keys (presence w) ∧ idSeed w' = N.succ (idSeed w).
Proof.
  intros Hremote. rewrite remoteRoomCall_remote_unfold by done.
  apply remote_call_frame.
Qed.

(** The call after a reply handed over while [publish] runs, once the
    timer is armed: the reply channel is gone and the timer pending. *)
Lemma handed_over roomId method args T w code data :
  channels (presence w) !! (roomId +:+ ":" +:+ (generateId w).1) = None →
  let s := arm (handle JSON_stringify (Arrives code data)
                  (open_request roomId method args T w)) in
  promise s.1
  = match code with
    | SUCCESS => Resolved data
    | ERROR => Rejected (RemoteError data)
    | IpcOther => Unsettled
    end
  ∧ channel_of s.1 = roomId +:+ ":" +:+ (generateId w).1
  ∧ channels (presence s.2) = channels (presence w)
  ∧ effects s.2 = SetTimeout T :: ClearTimeout :: effects w
  ∧ unsubscribeTimeout s.1 = true.
Proof.
  intros Hfresh.
  pose proof (open_request_pending roomId method args T w Hfresh) as Hopen.
  destruct (open_request roomId method args T w) as [rc w1] eqn:Hrequest.
  destruct Hopen as (Hch & Hpromise & Htimer & HT & Hlisten & Hsubs & _ & Heff & _).
  assert (Hdropped : delete (channel_of rc) (channels (presence w1)) = channels (presence w)).
  { rewrite Hsubs. apply unsubscribe_restores. by rewrite Hch. }
  assert (Hhanded : handle JSON_stringify (Arrives code data) (rc, w1)
                    = onReply code data rc w1) by (simpl; by rewrite Hlisten).
  rewrite Hhanded. clear Hhanded Hrequest Hlisten.
  destruct rc as [r m a t q armed settled]. unfold channel_of in *.
  cbn in Hch, Hpromise, Htimer, HT, Hsubs, Hdropped. subst t armed settled.
  unfold onReply, unsubscribe, resolve, reject, settle, arm, channel_of.
  destruct code; cbn; unfold channel_of; cbn; by rewrite ?Hdropped, ?Heff.
Qed.

(** The calls whose reply is handed over while [publish] runs. *)
Lemma remote_call_immediate_state roomId method args T w code data rest :
  channels (presence w) !! (roomId +:+ ":" +:+ (generateId w).1) = None →
  network w = Immediate code data :: rest →
  let s := remote_call JSON_stringify roomId method args T w in
  promise s.1
  = match code with
    | SUCCESS => Resolved data
    | ERROR => Rejected (RemoteError data)
    | IpcOther => Rejected (Error (timeout_message JSON_stringify roomId method args T))
    end
  ∧ channel_of s.1 = roomId +:+ ":" +:+ (generateId w).1
  ∧ channels (presence s.2) = channels (presence w)
  ∧ effects s.2
    = match code with
      | IpcOther => ClearTimeout :: SetTimeout T :: ClearTimeout :: effects w
      | _ => SetTimeout T :: ClearTimeout :: effects w
      end
  ∧ unsubscribeTimeout s.1 = match code with IpcOther => false | _ => true end.
Proof.
  intros Hfresh Hnet s. subst s.
  rewrite (remote_call_immediate _ _ _ _ _ code data rest Hnet).
  pose proof (open_request_pending roomId method args T w Hfresh) as Hopen.
  destruct (open_request roomId method args T w) as [rc w1] eqn:Hrequest.
  destruct Hopen as (Hch & Hpromise & Htimer & HT & Hlisten & Hsubs & _ & Heff & _).
  assert (Hrc : rc_roomId rc = roomId ∧ rc_method rc = method ∧ rc_args rc = args).
  { unfold open_request in Hrequest. by inversion Hrequest. }
  destruct Hrc as (Hr1 & Hr2 & Hr3).
  assert (Hdropped : delete (channel_of rc) (channels (presence w1)) = channels (presence w)).
  { rewrite Hsubs. apply unsubscribe_restores. by rewrite Hch. }
  assert (Hhanded : handle JSON_stringify (Arrives code data) (rc, w1)
                    = onReply code data rc w1) by (simpl; by rewrite Hlisten).
  rewrite Hhanded. clear Hhanded Hrequest Hlisten.
  destruct rc as [r m a t q armed settled]. unfold channel_of in *.
  cbn in Hch, Hpromise, Htimer, HT, Hr1, Hr2, Hr3, Hsubs, Hdropped. subst r m a t armed settled.
  unfold onReply, unsubscribe, resolve, reject, settle, arm, channel_of.
  destruct code; cbn -[timeout_message]; unfold channel_of; cbn -[timeout_message];
    rewrite ?Hdropped, ?Heff; repeat split; try done.
  apply delete_id. by rewrite Hch.
Qed.

(** C6.  A call to a room that is not local is settled by the first
    thing that happens: a SUCCESS reply resolves it with the data, an
    ERROR reply rejects it with the data, and when the timer runs out
    first it is rejected with an error whose message names the room,
    the request with its arguments and the timeout, and which no
    remote error is.  The timer is armed with [rejectionTimeout],
    which is REMOTE_ROOM_SHORT_TIMEOUT when the caller gives none:
    2000 unless the environment variable sets it.  While the reply is
    awaited one more callback is subscribed; in every outcome the
    reply channel is dropped, so the subscriptions are those there were
    before the call, and nothing that happens later changes the promise
    or the channels.  The timer is cleared by a reply that comes after
    it is armed.  A reply handed over while [publish] still runs finds
    no timer to clear: the timer is armed after it and left pending
    when the reply has settled the call, and it is what rejects the
    call when the code of the reply is unknown. *)
Theorem remoteRoomCall_remote (roomId method : string) (args : option (list JSValue))
    (rejectionTimeout : option Z) (w : World) :
  localRooms w !! roomId = None →
  channels (presence w) !! (roomId +:+ ":" +:+ (generateId w).1) = None →
  protocol_reply (network w) →
  let T := default (REMOTE_ROOM_SHORT_TIMEOUT env) rejectionTimeout in
  let request :=
    method +:+ match args with
               | Some args => " with args " +:+ JSON_stringify args
               | None => EmptyString
               end in
  let timed_out :=
    Error ("remote room (" +:+ roomId +:+ ") timed out, requesting " +:+ dq +:+ request
           +:+ dq +:+ ". " +:+ "Timeout setting: " +:+ pretty T +:+ "ms") in
  let subscribed := (open_request roomId method args T w).2 in
  let s := remote_call JSON_stringify roomId method args T w in
  let r := remoteRoomCall env classes JSON_stringify roomId method args rejectionTimeout w in
  r = (promise s.1, s.2)
  ∧ match network w with
    | Message SUCCESS data :: _ | Immediate SUCCESS data :: _ => r.1 = Resolved data
    | Message ERROR data :: _ | Immediate ERROR data :: _ => r.1 = Rejected (RemoteError data)
    | _ => r.1 = Rejected timed_out
    end
  ∧ (∀ data, timed_out ≠ RemoteError data)
  ∧ presence.subscriptions (presence subscribed) = S (presence.subscriptions (presence w))
  ∧ channels (presence r.2) = channels (presence w)
  ∧ presence.subscriptions (presence r.2) = presence.subscriptions (presence w)
  ∧ match network w with
    | Immediate SUCCESS _ :: _ | Immediate ERROR _ :: _ =>
        effects r.2 = SetTimeout T :: ClearTimeout :: effects w
        ∧ unsubscribeTimeout s.1 = true
    | Immediate IpcOther _ :: _ =>
        effects r.2 = ClearTimeout :: SetTimeout T :: ClearTimeout :: effects w
        ∧ unsubscribeTimeout s.1 = false
    | _ =>
        effects r.2 = ClearTimeout :: SetTimeout T :: effects w
        ∧ unsubscribeTimeout s.1 = false
    end
  ∧ (∀ evs, promise (play JSON_stringify evs s).1 = r.1
            ∧ channels (presence (play JSON_stringify evs s).2) = channels (presence w))
  ∧ (rejectionTimeout = None →
     match env with Some n => T = n | None => T = 2000 end).
Proof.
  intros Hremote Hfresh Hreply T request timed_out subscribed s r.
  assert (Hr : r = (promise s.1, s.2)).
  { subst r s. by rewrite remoteRoomCall_remote_unfold. }
  assert (Hcount : presence.subscriptions (presence subscribed)
                   = S (presence.subscriptions (presence w))).
  { subst subscribed.
    pose proof (open_request_pending roomId method args T w Hfresh) as Hopen.
    destruct (open_request roomId method args T w) as [rc w1]. cbn [snd].
    destruct Hopen as (Hch & _ & _ & _ & _ & Hsubs & _).
    rewrite <- Hch in Hfresh.
    pose proof (subscriptions_insert_fresh (presence w) (channel_of rc)
                  [ReplyHandler roomId (generateId w).1] Hfresh) as Hinsert.
    unfold presence.subscriptions in *; simpl in *. by rewrite Hsubs, Hinsert. }
  assert (Hstate :
    match network w with
    | Message SUCCESS data :: _ | Immediate SUCCESS data :: _ => promise s.1 = Resolved data
    | Message ERROR data :: _ | Immediate ERROR data :: _ =>
        promise s.1 = Rejected (RemoteError data)
    | _ => promise s.1 = Rejected timed_out
    end
    ∧ channel_of s.1 = roomId +:+ ":" +:+ (generateId w).1
    ∧ channels (presence s.2) = channels (presence w)
    ∧ match network w with
      | Immediate SUCCESS _ :: _ | Immediate ERROR _ :: _ =>
          effects s.2 = SetTimeout T :: ClearTimeout :: effects w
          ∧ unsubscribeTimeout s.1 = true
      | Immediate IpcOther _ :: _ =>
          effects s.2 = ClearTimeout :: SetTimeout T :: ClearTimeout :: effects w
          ∧ unsubscribeTimeout s.1 = false
      | _ =>
          effects s.2 = ClearTimeout :: SetTimeout T :: effects w
          ∧ unsubscribeTimeout s.1 = false
      end).
  { destruct (immediate (network w)) eqn:Himmediate.
    - destruct (network w) as [|[| |code data'] rest] eqn:Hnet; try discriminate.
      pose proof (remote_call_immediate_state roomId method args T w code data' rest
                    Hfresh Hnet) as (Hp & Hch & Hchannels & Heff & Htimer).
      fold s in Hp, Hch, Hchannels, Heff, Htimer.
      by destruct code.
    - subst s. rewrite remote_call_later by done. cbv zeta.
      pose proof (send_request_pending roomId method args T w Hfresh) as Hpending.
      destruct (send_request roomId method args T w) as [rc w1] eqn:Hsend. cbn [fst snd].
      destruct Hpending as (Hch & Hpromise & Htimer & HT & Hlisten & Hsubs & _ & Heff).
      assert (Hrc : rc_roomId rc = roomId ∧ rc_method rc = method ∧ rc_args rc = args
                    ∧ network w1 = network w).
      { unfold send_request, arm, open_request in Hsend. by inversion Hsend. }
      destruct Hrc as (Hr1 & Hr2 & Hr3 & Hnet).
      pose proof (next_event_world w1) as (Hp & He & _).
      pose proof (next_event_first w1) as Hev. rewrite Hnet in Hev.
      destruct (next_event w1) as [ev w2]; cbn [fst snd] in *.
      assert (Hlisten2 : listening rc w2 = true).
      { unfold listening in *. by rewrite Hp. }
      pose proof (handle_first_world ev rc w2 Hlisten2 Htimer) as Hworld.
      pose proof (handle_first_promise ev rc w2 Hlisten2 Htimer Hpromise) as Hsettled.
      pose proof (handle_first_call ev rc w2 Hlisten2 Htimer) as (Hch' & _ & _ & Hcleared).
      destruct (handle JSON_stringify ev (rc, w2)) as [rc' w3]; cbn [fst snd] in *. subst w3.
      assert (Hchannels : delete (channel_of rc) (channels (presence w2))
                          = channels (presence w)).
      { rewrite Hp, Hsubs. apply unsubscribe_restores. by rewrite Hch. }
      split; [|split; [by rewrite Hch'|split; [exact Hchannels|]]].
      + rewrite Hsettled, Hev, Hr1, Hr2, Hr3, HT.
        destruct (network w) as [|[[] data'| |] rest]; done.
      + assert (Heffects : effects (effect ClearTimeout
                                      (set_presence (presence.unsubscribe (channel_of rc)) w2))
                           = ClearTimeout :: SetTimeout T :: effects w).
        { simpl. by rewrite He, Heff. }
        destruct (network w) as [|[[] data'| |] rest]; done. }
  destruct Hstate as (Hpromise & Hch & Hchannels & Heffects).
  rewrite Hr. cbn [fst snd].
  split; [done|]. split; [exact Hpromise|]. split; [done|]. split; [exact Hcount|].
  split; [exact Hchannels|].
  split; [unfold presence.subscriptions; by rewrite Hchannels|].
  split; [exact Heffects|]. split.
  - intros evs.
    assert (Hgone : channels (presence s.2) !! channel_of s.1 = None)
      by by rewrite Hchannels, Hch.
    assert (Hsettled : promise s.1 ≠ Unsettled).
    { destruct (network w) as [|[[] data'| |[] data'] rest]; by rewrite Hpromise. }
    destruct s as [rc' w']. cbn [fst snd] in *.
    destruct (play_settled evs rc' w' Hgone Hsettled) as [Hp Hc].
    by rewrite Hp, Hc.
  - intros ->. subst T. unfold REMOTE_ROOM_SHORT_TIMEOUT. by destruct env.
Qed.

(** *** Seat reservation *)

(** Ids drawn at different times differ. *)
Lemma generateId_fresh w0 w :
  (idSeed w0 < idSeed w)%N → (generateId w0).1 ≠ (generateId w).1.
Proof. simpl. intros Hlt Heq. apply (inj pretty) in Heq. lia. Qed.

(** C3.  [reserveSeatFor] draws a session id, which no earlier draw
    has returned and which changes nothing but the source of ids, and
    calls [_reserveSeat] on the room remotely with that id and the
    options.  When the call answers, the seat is refused with a
    SeatReservationError exactly when the answer is falsy; otherwise
    the result is the listing it was given, as it was given, with the
    session id.  The world it leaves is the one the remote call left:
    [reserveSeatFor] writes nothing itself, and when the room is not
    local the registry is the one it started with.  A call that fails
    or never settles ends it the same way. *)
Theorem reserveSeatFor_spec (room : RoomListingData) (options : JSObject) (w : World) :
  let sessionId := (generateId w).1 in
  let w0 := (generateId w).2 in
  let roomId := toString (get room "roomId") in
  let result := reserveSeatFor env classes JSON_stringify room options w in
  (∀ earlier, (idSeed earlier < idSeed w)%N → (generateId earlier).1 ≠ sessionId)
  ∧ w0 = set_idSeed (N.succ (idSeed w)) w
  ∧ match remoteRoomCall env classes JSON_stringify roomId "_reserveSeat"
            (Some [VStr sessionId; VObj options]) None w0 with
    | (Resolved (_, reserveSeatSuccessful), w') =>
        if truthy reserveSeatSuccessful
        then result = (Resolved (room, VStr sessionId), w')
        else ∃ message, result = (Rejected (SeatReservationError message), w')
    | (Rejected e, w') => result = (Rejected e, w')
    | (Unsettled, w') => result = (Unsettled, w')
    end
  ∧ (localRooms w !! roomId = None → driver result.2 = driver w).
Proof.
  intros sessionId w0 roomId result.
  split; [|split; [|split]].
  - intros earlier Hlt. by apply generateId_fresh.
  - done.
  - subst result. unfold reserveSeatFor, mbind, Async_bind, bind, call; simpl.
    fold sessionId roomId.
    change (set_idSeed (N.succ (idSeed w)) w) with w0.
    destruct (remoteRoomCall _ _ _ roomId _ _ _ w0) as [[[pid ok]|e|] w']; try done.
    destruct (truthy ok); simpl; eauto.
  - intros Hremote. subst result.
    unfold reserveSeatFor, mbind, Async_bind, bind, call; simpl.
    fold sessionId roomId.
    change (set_idSeed (N.succ (idSeed w)) w) with w0.
    assert (Hremote0 : localRooms w0 !! roomId = None) by done.
    pose proof (remoteRoomCall_remote_frame roomId "_reserveSeat"
                  (Some [VStr sessionId; VObj options]) None w0 Hremote0)
      as (_ & _ & Hdriver & _).
    destruct (remoteRoomCall _ _ _ roomId _ _ _ w0) as [[[pid ok]|e|] w'];
      simpl in *; try done.
    by destruct (truthy ok).
Qed.

(** *** joinById *)

(** The listing [findOne({ roomId })] finds is a row of the registry
    with that id, and it finds none only when no row has it. *)
Lemma findOne_roomId (roomId : string) (d : MatchMakerDriver) :
  match driver.await (driver.findOne {[ "roomId" := VStr roomId ]}) d with
  | Some room => room ∈ rooms d ∧ get room "roomId" = VStr roomId
  | None => ∀ room, room ∈ rooms d → get room "roomId" ≠ VStr roomId
  end.
Proof.
  unfold driver.await, driver.findOne, driver.find; simpl.
  assert (Hmatch : ∀ room : RoomListingData,
             matches {[ "roomId" := VStr roomId ]} room = true
             ↔ get room "roomId" = VStr roomId).
  { intros room. unfold matches. rewrite bool_decide_eq_true, map_Forall_singleton.
    destruct (get room "roomId") as [| | | |s|]; simpl; split; try done.
    - intros Heq%String.eqb_eq. by subst.
    - intros [= ->]. apply String.eqb_refl. }
  destruct (filter _ (rooms d)) as [|room rest] eqn:Hfilter; simpl.
  - intros room Hin Hid. apply Hmatch in Hid.
    assert (Hroom : room ∈ filter (λ room, matches {[ "roomId" := VStr roomId ]} room = true)
                            (rooms d)).
    { apply list_elem_of_filter. split; assumption. }
    rewrite Hfilter in Hroom. exact (not_elem_of_nil _ Hroom).
  - assert (Hroom : room ∈ filter (λ room, matches {[ "roomId" := VStr roomId ]} room = true)
                            (rooms d)).
    { rewrite Hfilter. left. }
    apply list_elem_of_filter in Hroom as [Hid Hin]. split; [exact Hin|].
    apply Hmatch, Hid.
Qed.

(** C2.  [joinById] looks the listing up in the registry.  With no
    listing it fails with ERR_MATCHMAKE_INVALID_ROOM_ID.  With a
    listing and a session id in the options it asks the room
    [hasReservedSeat(sessionId)] remotely and, when the call answers,
    returns the listing with that session id if the answer is truthy
    and fails with ERR_MATCHMAKE_EXPIRED if not.  With a listing,
    no session id and the listing unlocked it reserves a seat; with
    the listing locked it fails with ERR_MATCHMAKE_INVALID_ROOM_ID. *)
Theorem joinById_cases (roomId : string) (options : JSObject) (w : World) :
  let result := joinById env classes JSON_stringify roomId options w in
  let rejoinSessionId := get options "sessionId" in
  match driver.await (driver.findOne {[ "roomId" := VStr roomId ]}) (driver w) with
  | None =>
      (∀ room, room ∈ rooms (driver w) → get room "roomId" ≠ VStr roomId)
      ∧ ∃ message,
          result = (Rejected (MatchMakeError message ERR_MATCHMAKE_INVALID_ROOM_ID), w)
  | Some room =>
      room ∈ rooms (driver w) ∧ get room "roomId" = VStr roomId
      ∧ if truthy rejoinSessionId then
          match remoteRoomCall env classes JSON_stringify roomId "hasReservedSeat"
                  (Some [rejoinSessionId]) None w with
          | (Resolved (_, hasReservedSeat), w') =>
              if truthy hasReservedSeat
              then result = (Resolved (room, rejoinSessionId), w')
              else ∃ message,
                     result = (Rejected (MatchMakeError message ERR_MATCHMAKE_EXPIRED), w')
          | (Rejected e, w') => result = (Rejected e, w')
          | (Unsettled, w') => result = (Unsettled, w')
          end
        else if truthy (get room "locked") then
          ∃ message,
            result = (Rejected (MatchMakeError message ERR_MATCHMAKE_INVALID_ROOM_ID), w)
        else
          result = reserveSeatFor env classes JSON_stringify room options w
  end.
Proof.
  intros result rejoinSessionId.
  pose proof (findOne_roomId roomId (driver w)) as Hfound.
  subst result. unfold joinById, mbind, Async_bind, bind, call, throw; simpl.
  destruct (driver.await _ (driver w)) as [room|]; [|eauto].
  destruct Hfound as [Hin Hid]. do 2 (split; [done|]).
  fold rejoinSessionId. rewrite Hid; simpl.
  destruct (truthy rejoinSessionId).
  - destruct (remoteRoomCall _ _ _ roomId _ _ _ w) as [[[pid ok]|e|] w']; try done.
    destruct (truthy ok); simpl; eauto.
  - destruct (truthy (get room "locked")); simpl; eauto.
Qed.

(** *** joinOrCreate *)

(** [retry] returns the outcome of one of the runs of the callback:
    each run before it ended in a SeatReservationError, and unless the
    retries are used up that run did not. *)
Lemma retry_rerun {A} (cb : Async A) (maxRetries : nat) (w : World) :
  ∃ k, (k ≤ maxRetries)%nat
       ∧ retry cb maxRetries [SeatReservationErrorC] w = rerun cb k w
       ∧ (∀ j, (j < k)%nat → seat_reservation_failed (rerun cb j w))
       ∧ ((k < maxRetries)%nat → ¬ seat_reservation_failed (rerun cb k w)).
Proof.
  revert w. induction maxRetries as [|n IH]; intros w.
  - exists 0%nat. split; [lia|]. split; [|split; intros; lia].
    simpl. destruct (cb w) as [[a|e|] w']; [done| |done]. by case_bool_decide.
  - simpl. destruct (cb w) as [[a|e|] w'] eqn:Hcb.
    + exists 0%nat. simpl. rewrite Hcb. split; [lia|]. split; [done|].
      split; [intros; lia|]. by intros _ [].
    + case_bool_decide as Hlisted.
      * apply list_elem_of_singleton in Hlisted.
        destruct (IH w') as (k & Hk & Hretry & Hbefore & Hlast).
        exists (S k). simpl. rewrite Hcb; simpl.
        split; [lia|]. split; [exact Hretry|].
        split; [|intros; apply Hlast; lia].
        intros [|j] Hj; simpl; rewrite Hcb; simpl; [exact Hlisted|].
        apply Hbefore. lia.
      * exists 0%nat. simpl. rewrite Hcb. split; [lia|]. split; [done|].
        split; [intros; lia|].
        intros _ Hfailed. apply Hlisted, list_elem_of_singleton, Hfailed.
    + exists 0%nat. simpl. rewrite Hcb. split; [lia|]. split; [done|].
      split; [intros; lia|]. by intros _ [].
Qed.

(** C1.  One attempt of [joinOrCreate] queries a room, creates one if
    the query found none, and reserves a seat in it.  The result is
    that of the first attempt or of one of at most 5 further ones:
    each attempt before it ended in a SeatReservationError, and it is
    the first that did not, unless all 5 retries were used.  An
    attempt that fails in any other way is therefore the result, with
    no retry. *)
Theorem joinOrCreate_retries (roomName : string) (options : JSObject) (w : World) :
  let attempt := joinOrCreate_attempt env classes JSON_stringify roomName options in
  let result := joinOrCreate env classes JSON_stringify roomName options w in
  (∀ w,
     attempt w
     = match queryRoom env roomName options w with
       | (Resolved (Some room), w1) =>
           reserveSeatFor env classes JSON_stringify room options w1
       | (Resolved None, w1) =>
           match createRoom classes roomName options w1 with
           | (Resolved room, w2) =>
               reserveSeatFor env classes JSON_stringify room options w2
           | (Rejected e, w2) => (Rejected e, w2)
           | (Unsettled, w2) => (Unsettled, w2)
           end
       | (Rejected e, w1) => (Rejected e, w1)
       | (Unsettled, w1) => (Unsettled, w1)
       end)
  ∧ (∃ k, (k ≤ 5)%nat
          ∧ result = rerun attempt k w
          ∧ (∀ j, (j < k)%nat → seat_reservation_failed (rerun attempt j w))
          ∧ ((k < 5)%nat → ¬ seat_reservation_failed (rerun attempt k w)))
  ∧ (¬ seat_reservation_failed (attempt w) → result = attempt w).
Proof.
  intros attempt result.
  pose proof (retry_rerun attempt 5 w) as (k & Hk & Hretry & Hbefore & Hlast).
  split; [|split].
  - intros w0. subst attempt.
    unfold joinOrCreate_attempt, mbind, Async_bind, bind.
    destruct (queryRoom env roomName options w0) as [[[room|]|e|] w1]; try done.
  - by exists k.
  - intros Hother. subst result. unfold joinOrCreate. fold attempt. rewrite Hretry.
    destruct k as [|k]; [done|]. destruct Hother. apply (Hbefore 0%nat). lia.
Qed.

(** *** The admission gate *)

Lemma presence_set_presence f w : presence (set_presence f w) = f (presence w).
Proof. done. Qed.

Lemma counter_incr key p :
  (presence.incr key p).1 = presence.counter key p + 1
  ∧ presence.counter key (presence.incr key p).2 = presence.counter key p + 1.
Proof. unfold presence.incr, presence.counter; simpl. by rewrite lookup_insert_eq. Qed.

Lemma counter_decr key p :
  presence.counter key (presence.decr key p).2 = presence.counter key p - 1.
Proof. unfold presence.decr, presence.counter; simpl. by rewrite lookup_insert_eq. Qed.

(** The query of [queryRoom] leaves the counter of the room type at
    the value it found. *)
Lemma queryRoom_counter roomName options w :
  presence.counter (getHandlerConcurrencyKey roomName)
    (presence (queryRoom env roomName options w).2)
  = presence.counter (getHandlerConcurrencyKey roomName) (presence w).
Proof.
  unfold queryRoom, awaitRoomAvailable, presence.incr, presence.decr, presence.counter.
  cbn [handlers effect set_presence presence keys].
  destruct (handlers w !! roomName); cbn [snd presence set_presence keys];
    rewrite !lookup_insert_eq; simpl; rewrite ?lookup_insert_eq; simpl; lia.
Qed.

(** C4, as the code has it.  The gate increments the counter of the
    room type, takes the incremented counter minus 1 as the
    concurrency, and arms a timer of
    [min(concurrency * 100, REMOTE_ROOM_SHORT_TIMEOUT)] milliseconds,
    whose cap is 2000 only when the environment variable does not set
    another; the callback runs after it, in the world [w1].  Once the
    callback has settled, resolved or rejected, the result is its
    result and the counter is decremented, so a callback that leaves
    the counter alone leaves it, after the gate, at the value it had
    before the call; the query of [queryRoom] is such a callback. *)
Theorem awaitRoomAvailable_gate {A} (roomToJoin : string) (callback : Async A) (w : World) :
  let key := getHandlerConcurrencyKey roomToJoin in
  let counter := (presence.incr key (presence w)).1 in
  let concurrency := counter - 1 in
  let delay := Z.min (concurrency * 100) (REMOTE_ROOM_SHORT_TIMEOUT env) in
  let w1 := effect (SetTimeout delay)
              (set_presence (λ p, (presence.incr key p).2) w) in
  let result := awaitRoomAvailable env roomToJoin callback w in
  counter = presence.counter key (presence w) + 1
  ∧ presence.counter key (presence w1) = counter
  ∧ match callback w1 with
    | (Unsettled, w2) => result = (Unsettled, w2)
    | (settled, w2) =>
        result = (settled, set_presence (λ p, (presence.decr key p).2) w2)
        ∧ presence.counter key (presence result.2)
          = presence.counter key (presence w2) - 1
        ∧ (presence.counter key (presence w2) = counter →
           presence.counter key (presence result.2) = presence.counter key (presence w))
    end
  ∧ (∀ options,
       presence.counter key (presence (queryRoom env roomToJoin options w).2)
       = presence.counter key (presence w))
  ∧ match env with
    | None => REMOTE_ROOM_SHORT_TIMEOUT env = 2000
    | Some n => REMOTE_ROOM_SHORT_TIMEOUT env = n
    end.
Proof.
  intros key counter concurrency delay w1 result.
  pose proof (counter_incr key (presence w)) as [Hincr Hcounter].
  split; [exact Hincr|]. split; [exact Hcounter|].
  split; [|split; [intros; apply queryRoom_counter|by destruct env]].
  assert (Hgate : result
                  = match callback w1 with
                    | (Unsettled, w2) => (Unsettled, w2)
                    | (settled, w2) =>
                        (settled, set_presence (λ p, (presence.decr key p).2) w2)
                    end) by done.
  rewrite Hgate. clear Hgate.
  destruct (callback w1) as [[a|e|] w2]; [| |done].
  - split; [done|]. cbn [snd]. rewrite presence_set_presence, counter_decr.
    split; [done|]. intros ->. lia.
  - split; [done|]. cbn [snd]. rewrite presence_set_presence, counter_decr.
    split; [done|]. intros ->. lia.
Qed.

(** *** query *)

Lemma insert_congr {V} (m1 m2 : gmap nat V) i x y :
  <[i := y]> m1 = <[i := y]> m2 → <[i := x]> m1 = <[i := x]> m2.
Proof.
  intros Heq. by rewrite <- (insert_insert_eq m1 i x y), Heq, insert_insert_eq.
Qed.

Lemma deref_assign ref k v w :
  deref ref (assign ref k v w) = <[k := v]> (deref ref w).
Proof. unfold deref, assign; simpl. by rewrite lookup_insert_eq. Qed.

Lemma heap_assign ref k v w :
  heap (assign ref k v w) = <[ref := <[k := v]> (deref ref w)]> (heap w).
Proof. done. Qed.

Lemma driver_assign ref k v w : driver (assign ref k v w) = driver w.
Proof. done. Qed.

(** [query] writes into the object it is given, or into the default
    one, and hands that object to [driver.find]. *)
Lemma query_object (roomName : option string) (conditions : option nat) (w : World) :
  let ref := default (fresh (dom (heap w))) conditions in
  let before := match conditions with Some ref => deref ref w | None => ∅ end in
  let result := query roomName conditions w in
  heap result.2 = <[ref := conditions_sent roomName before]> (heap w)
  ∧ result.1 = Resolved (driver.find (conditions_sent roomName before) (driver w))
  ∧ driver result.2 = driver w.
Proof.
  intros ref before result. subst result. unfold query, conditions_sent.
  assert (Hstart : ∃ w0, (match conditions with
                          | Some ref => (ref, w)
                          | None => alloc ∅ w
                          end) = (ref, w0)
                         ∧ deref ref w0 = before ∧ driver w0 = driver w
                         ∧ <[ref := before]> (heap w0) = <[ref := before]> (heap w)).
  { destruct conditions as [r|]; simpl.
    - by exists w.
    - eexists. split; [done|]. unfold deref; simpl.
      rewrite lookup_insert_eq. split; [done|]. split; [done|].
      by rewrite insert_insert_eq. }
  destruct Hstart as (w0 & -> & Hbefore & Hdriver & Hheap).
  destruct (truthy (optional_string roomName)); cbn [fst snd].
  - rewrite !deref_assign, !heap_assign, !deref_assign, !driver_assign, Hbefore, Hdriver.
    split; [|done]. rewrite insert_insert_eq. by apply (insert_congr _ _ _ _ before).
  - rewrite !deref_assign, !heap_assign, !driver_assign, Hbefore, Hdriver.
    split; [|done]. by apply (insert_congr _ _ _ _ before).
Qed.

(** C7.  The conditions [query] calls [driver.find] with are the
    caller's with [private] forced to false and with [name] set to the
    room name when one is given, and left as the caller had it when
    none is.  No condition on [locked] is added: the one sent is the
    caller's own, if any.  So every room of the registry that meets
    the conditions sent is in the result, locked or not. *)
Theorem query_conditions (roomName : option string) (conditions : option nat) (w : World) :
  let before := match conditions with Some ref => deref ref w | None => ∅ end in
  let sent := conditions_sent roomName before in
  let result := query roomName conditions w in
  result.1 = Resolved (driver.find sent (driver w))
  ∧ sent !! "private" = Some (VBool false)
  ∧ sent !! "name" = (if truthy (optional_string roomName)
                      then Some (optional_string roomName)
                      else before !! "name")
  ∧ sent !! "locked" = before !! "locked"
  ∧ (∀ room locked,
       room ∈ rooms (driver w) →
       get room "locked" = locked →
       (∀ field v, sent !! field = Some v → strict_eq (get room field) v = true) →
       room ∈ driver.find sent (driver w)).
Proof.
  intros before sent result.
  pose proof (query_object roomName conditions w) as (_ & Hresult & _).
  split; [exact Hresult|]. subst sent. unfold conditions_sent.
  split; [by rewrite lookup_insert_eq|].
  split; [|split].
  - rewrite lookup_insert_ne by done.
    destruct (truthy (optional_string roomName)); [|done]. by rewrite lookup_insert_eq.
  - rewrite lookup_insert_ne by done.
    destruct (truthy (optional_string roomName)); [|done]. by rewrite lookup_insert_ne.
  - intros room locked Hin _ Hmeets. unfold driver.find.
    apply list_elem_of_filter. split; [|exact Hin].
    unfold matches. apply bool_decide_eq_true. exact Hmeets.
Qed.

(** C10.  The object the caller passes as conditions is the one
    [query] writes into and the one [driver.find] reads: after the
    call the caller's object has [private] set to false and, when a
    room name was given, [name] set to it; its other properties are
    as they were, and no other object of the heap is made or changed. *)
Theorem query_mutates_conditions (roomName : option string) (conditions : nat) (w : World) :
  let before := deref conditions w in
  let result := query roomName (Some conditions) w in
  let after := deref conditions result.2 in
  heap result.2 = <[conditions := after]> (heap w)
  ∧ after !! "private" = Some (VBool false)
  ∧ (if truthy (optional_string roomName)
     then after !! "name" = Some (optional_string roomName)
     else after !! "name" = before !! "name")
  ∧ (∀ field, field ≠ "private" → field ≠ "name" → after !! field = before !! field)
  ∧ result.1 = Resolved (driver.find after (driver w)).
Proof.
  intros before result after.
  pose proof (query_object roomName (Some conditions) w) as (Hheap & Hresult & _).
  cbn [default] in Hheap. fold result before in Hheap, Hresult.
  assert (Hafter : after = conditions_sent roomName before).
  { subst after. unfold deref. by rewrite Hheap, lookup_insert_eq. }
  rewrite Hafter. split; [exact Hheap|]. unfold conditions_sent.
  split; [by rewrite lookup_insert_eq|].
  split; [|split; [|exact Hresult]].
  - rewrite lookup_insert_ne by done.
    destruct (truthy (optional_string roomName)); [|done]. by rewrite lookup_insert_eq.
  - intros field Hprivate Hname. rewrite lookup_insert_ne by done.
    destruct (truthy (optional_string roomName)); [|done]. by rewrite lookup_insert_ne.
Qed.

(** *** Lock and unlock *)

Lemma smembers_srem key member p :
  presence.smembers key (presence.srem key member p)
  = presence.smembers key p ∖ {[member]}.
Proof.
  unfold presence.smembers, presence.srem; simpl.
  destruct (data p !! key) as [s|] eqn:Hs; simpl.
  - by rewrite lookup_insert_eq.
  - rewrite Hs. simpl. apply set_eq. intros x.
    rewrite elem_of_difference. split; [|tauto]. intros Hx. by apply not_elem_of_empty in Hx.
Qed.

Lemma data_srem_other key member p other :
  other ≠ key → data (presence.srem key member p) !! other = data p !! other.
Proof.
  intros Hother. unfold presence.srem; simpl.
  destruct (data p !! key); [|done]. by rewrite lookup_insert_ne.
Qed.

(** What [clearRoomReferences] does to the world. *)
Lemma clearRoomReferences_world room w :
  let w' := clearRoomReferences room w in
  handlers w' = handlers w ∧ localRooms w' = localRooms w ∧ driver w' = driver w
  ∧ channels (presence w') = channels (presence w)
  ∧ presence.smembers (roomName room) (presence w')
    = presence.smembers (roomName room) (presence w) ∖ {[roomId room]}
  ∧ (∀ other, other ≠ roomName room →
       data (presence w') !! other = data (presence w) !! other)
  ∧ keys (presence w') = delete (roomId room) (keys (presence w)).
Proof.
  unfold clearRoomReferences; cbn [handlers localRooms driver presence set_presence].
  repeat split.
  - apply (smembers_srem (roomName room) (roomId room) (presence w)).
  - intros other Hother.
    apply (data_srem_other (roomName room) (roomId room) (presence w) other Hother).
Qed.

(** What [queryRoom] answers is read from the handlers and the
    registry, and from nothing else. *)
Lemma queryRoom_reads roomName options w w' :
  handlers w' = handlers w → driver w' = driver w →
  (queryRoom env roomName options w').1 = (queryRoom env roomName options w).1.
Proof.
  intros Hhandlers Hdriver. unfold queryRoom, awaitRoomAvailable.
  cbn [presence.incr handlers driver effect set_presence fst snd].
  rewrite Hhandlers, Hdriver. by destruct (handlers w !! roomName).
Qed.

(** C8, as the code has it.  On the lock event the room id leaves the
    presence set of its room type and, besides, the presence key of
    the room is deleted; the rows of the registry, the handles in
    [localRooms], the other members of the set and the other sets stay
    as they are.  The set is not what [queryRoom] reads: it reads the
    registry, so it answers after the lock event what it answered
    before it.  The unlock event that follows puts the id back into
    the set and the handle at its id in [localRooms], still without
    touching the registry; the key that was deleted stays deleted. *)
Theorem lockRoom_unlockRoom (name : string) (room : Room) (w : World) :
  let locked := (lockRoom name room w).2 in
  let unlocked := (unlockRoom name room locked).2 in
  (driver locked = driver w
   ∧ localRooms locked = localRooms w
   ∧ presence.smembers (roomName room) (presence locked)
     = presence.smembers (roomName room) (presence w) ∖ {[roomId room]}
   ∧ (∀ other, other ≠ roomName room →
        data (presence locked) !! other = data (presence w) !! other)
   ∧ keys (presence locked) = delete (roomId room) (keys (presence w))
   ∧ channels (presence locked) = channels (presence w)
   ∧ (∀ roomName options,
        (queryRoom env roomName options locked).1 = (queryRoom env roomName options w).1))
  ∧ (driver unlocked = driver w
     ∧ localRooms unlocked = <[roomId room := room]> (localRooms w)
     ∧ presence.smembers (roomName room) (presence unlocked)
       = {[roomId room]} ∪ presence.smembers (roomName room) (presence w)
     ∧ (∀ other, other ≠ roomName room →
          data (presence unlocked) !! other = data (presence w) !! other)
     ∧ keys (presence unlocked) = delete (roomId room) (keys (presence w))
     ∧ channels (presence unlocked) = channels (presence w)).
Proof.
  intros locked unlocked.
  pose proof (clearRoomReferences_world room w)
    as (Hh & Hrooms & Hdriver & Hchannels & Hset & Hothers & Hkeys).
  assert (Hlocked : locked = clearRoomReferences room w
                    ∨ locked = effect (Emit (roomName room) "lock" (roomId room))
                                 (clearRoomReferences room w)).
  { subst locked. unfold lockRoom, emit, mbind, Async_bind, bind, step; simpl.
    destruct (handlers w !! roomName room); auto. }
  assert (Hlocked' : driver locked = driver w ∧ localRooms locked = localRooms w
                     ∧ presence locked = presence (clearRoomReferences room w)
                     ∧ handlers locked = handlers w).
  { by destruct Hlocked as [-> | ->]. }
  destruct Hlocked' as (Hd & Hl & Hp & Hhandlers).
  split.
  - rewrite Hp. repeat split; try done.
    intros roomName options. by apply queryRoom_reads.
  - assert (Hunlocked : driver unlocked = driver locked
              ∧ localRooms unlocked = <[roomId room := room]> (localRooms locked)
              ∧ presence unlocked
                = presence.sadd (roomName room) (roomId room) (presence locked)).
    { subst unlocked.
      unfold unlockRoom, createRoomReferences, emit, mbind, Async_bind, mret, Async_ret,
        bind, ret, step; simpl.
      by destruct (handlers locked !! roomName room). }
    destruct Hunlocked as (Hd' & Hl' & Hp').
    rewrite Hd', Hl', Hp', Hd, Hl, Hp. split; [done|]. split; [done|].
    split; [|split; [|split]].
    + unfold presence.smembers, presence.sadd in *; simpl in *.
      rewrite lookup_insert_eq; simpl. fold (presence.smembers (roomName room) (presence w)).
      change (default ∅ (data (presence (clearRoomReferences room w)) !! roomName room))
        with (presence.smembers (roomName room) (presence (clearRoomReferences room w))).
      rewrite Hset. apply set_eq. intros x.
      rewrite !elem_of_union, elem_of_difference, elem_of_singleton.
      destruct (decide (x = roomId room)); tauto.
    + intros other Hother. unfold presence.sadd; simpl.
      rewrite lookup_insert_ne by done. by apply Hothers.
    + unfold presence.sadd; simpl. exact Hkeys.
    + unfold presence.sadd; simpl. exact Hchannels.
Qed.

(** *** The room-join path of the transport *)

Context (parseQueryString : string → JSObject).

(** C9.  When the room id of the request is not that of a local room,
    [handleMatchJoin] ends in its [catch] block: reading [_onJoin]
    of the missing room throws inside the [try].  The client is sent
    a JOIN_ERROR frame and closed with WS_CLOSE_WITH_ERROR, and the
    world is untouched.  It is the block a failing [_onJoin] of an
    existing room ends in. *)
Theorem handleMatchJoin_unknown_room (client : Client)
    (parsedURL : WebSocketTransport.UrlWithStringQuery) (w : World) :
  let roomId := default "null"
                  (WebSocketTransport.match_room_path
                     (WebSocketTransport.pathname parsedURL)) in
  let sid := get (parseQueryString (WebSocketTransport.url_query parsedURL)) "sessionId" in
  let identified :=
    {| pingCount := 0; id := sid; sessionId := sid;
       sent := sent client; closed := closed client |} in
  let result := WebSocketTransport.handleMatchJoin classes parseQueryString client parsedURL w in
  getRoomById roomId w = None →
  (∃ message,
     result = (WebSocketTransport.join_failed (TypeError message) identified, w)
     ∧ sent result.1 = sent client ++ [Framed JOIN_ERROR (VStr message)]
     ∧ closed result.1 = WS_CLOSE_WITH_ERROR :: closed client)
  ∧ (∀ w0 room e client' w',
       getRoomById roomId w0 = Some room →
       _onJoin (classes (className room)) room identified w0 = (Rejected e, (client', w')) →
       WebSocketTransport.handleMatchJoin classes parseQueryString client parsedURL w0
       = (WebSocketTransport.join_failed e client', w')
       ∧ closed (WebSocketTransport.join_failed e client')
         = WS_CLOSE_WITH_ERROR :: closed client'
       ∧ ∃ message,
           sent (WebSocketTransport.join_failed e client')
           = sent client' ++ [Framed JOIN_ERROR message]).
Proof.
  intros roomId sid identified result Hmiss. split.
  - exists "Cannot read property '_onJoin' of undefined".
    subst result. unfold WebSocketTransport.handleMatchJoin.
    fold roomId sid. rewrite Hmiss. by fold identified.
  - intros w0 room e client' w' Hhit Hjoin.
    unfold WebSocketTransport.handleMatchJoin.
    fold roomId sid. rewrite Hhit. fold identified. rewrite Hjoin.
    split; [done|]. split; [done|]. by eexists.
Qed.

End Properties.

(** ** The properties on the sample deployment *)

(** C6 on the sample registry: nobody answers for room "r9", the call is
    rejected when the timer runs out, with the message that names the
    room, the request and the timeout, and no subscription is left. *)
Lemma remoteRoomCall_remote_witness :
  let r := remoteRoomCall None Sample.classes Sample.JSON_stringify "r9" "roomId" None None
             Sample.with_remote in
  r.1 = Rejected (Error ("remote room (" +:+ "r9" +:+ ") timed out, requesting " +:+ dq
                         +:+ ("roomId" +:+ EmptyString) +:+ dq +:+ ". "
                         +:+ "Timeout setting: " +:+ pretty 2000 +:+ "ms"))
  ∧ presence.subscriptions (presence r.2) = presence.subscriptions (presence Sample.with_remote)
  ∧ effects r.2 = [ClearTimeout; SetTimeout 2000].
Proof.
  assert (Hremote : localRooms Sample.with_remote !! "r9" = None) by reflexivity.
  assert (Hfresh : channels (presence Sample.with_remote)
                   !! ("r9" +:+ ":" +:+ (generateId Sample.with_remote).1) = None)
    by reflexivity.
  assert (Hreply : protocol_reply (network Sample.with_remote)) by exact I.
  pose proof (remoteRoomCall_remote None Sample.classes Sample.JSON_stringify
                "r9" "roomId" None None Sample.with_remote Hremote Hfresh Hreply)
    as (_ & Hsettled & _ & _ & _ & Hcount & [Heffects _] & _).
  split; [exact Hsettled|]. split; [exact Hcount|exact Heffects].
Defined.

(** C9 on the sample process, which hosts no room yet. *)
Lemma handleMatchJoin_unknown_room_witness :
  let client := {| pingCount := 3; id := VUndefined; sessionId := VUndefined;
                   sent := []; closed := [] |} in
  let url := {| WebSocketTransport.pathname := "/chat/abc";
                WebSocketTransport.url_query := "sessionId=s1" |} in
  let result := WebSocketTransport.handleMatchJoin Sample.classes
                  (λ _, {[ "sessionId" := VStr "s1" ]}) client url Sample.started in
  ∃ message,
    sent result.1 = [Framed JOIN_ERROR (VStr message)]
    ∧ closed result.1 = [WS_CLOSE_WITH_ERROR].
Proof.
  intros client url result.
  assert (Hmiss : getRoomById
                    (default "null"
                       (WebSocketTransport.match_room_path (WebSocketTransport.pathname url)))
                    Sample.started = None) by reflexivity.
  pose proof (handleMatchJoin_unknown_room Sample.classes (λ _, {[ "sessionId" := VStr "s1" ]})
                client url Sample.started Hmiss) as [(message & _ & Hsent & Hclosed) _].
  exists message. split; [exact Hsent|exact Hclosed].
Defined.

(** C4 with the cap of 2000 ms the specification writes fails when the
    environment variable is set: with the variable at 500 and nine
    requests in flight the gate arms its timer with 500 ms, which is
    not min(900, 2000) ms. *)
Lemma awaitRoomAvailable_wait_counterexample :
  let w := Sample.busy in
  let concurrency := (presence.incr "chat:c" (presence w)).1 - 1 in
  concurrency = 9
  ∧ effects (awaitRoomAvailable (Some 500) "chat" (ret tt) w).2 = [SetTimeout 500]
  ∧ SetTimeout 500 ≠ SetTimeout (Z.min (concurrency * 100) 2000).
Proof. split; [reflexivity|]. split; [reflexivity|]. intros [=]. Qed.

(** C8 with the words of the specification fails on the sample room
    with one client connecting.  The lock event does take the room out
    of the presence set of "chat", but that is not all it removes, and
    no query skips the room for it: the presence key of the room is
    deleted as well and is not back after the unlock event, and
    [queryRoom], which reads the registry, still answers with the
    room. *)
Lemma lockRoom_only_membership_counterexample :
  let w := Fixtures.connecting in
  let locked := (lockRoom "chat" Sample.room0 w).2 in
  let unlocked := (unlockRoom "chat" Sample.room0 locked).2 in
  presence.smembers "chat" (presence w) = {["0"]}
  ∧ presence.smembers "chat" (presence locked) = ∅
  ∧ (queryRoom None "chat" ∅ w).1 = Resolved (Some (listing Sample.room0))
  ∧ (queryRoom None "chat" ∅ locked).1 = Resolved (Some (listing Sample.room0))
  ∧ keys (presence w) !! "0" = Some 1
  ∧ keys (presence locked) !! "0" = None
  ∧ keys (presence unlocked) !! "0" = None
  ∧ presence.smembers "chat" (presence unlocked) = {["0"]}.
Proof. repeat split; vm_compute; reflexivity. Qed.

(** C5 on the sample room: the seat check of room "0" is answered in
    place, and the world is the one the method left. *)
Lemma remoteRoomCall_local_witness :
  remoteRoomCall None Sample.classes Sample.JSON_stringify "0" "hasReservedSeat"
    (Some [VStr "1"]) None Sample.one_room
  = (reply_with (processId Sample.one_room)
       (Sample.hasReservedSeat Sample.room0 [VStr "1"] Sample.one_room).1,
     (Sample.hasReservedSeat Sample.room0 [VStr "1"] Sample.one_room).2).
Proof.
  assert (Hlocal : localRooms Sample.one_room !! "0" = Some Sample.room0)
    by (vm_compute; reflexivity).
  exact (remoteRoomCall_local None Sample.classes Sample.JSON_stringify
           "0" "hasReservedSeat" (Some [VStr "1"]) None Sample.room0 Sample.one_room Hlocal).
Defined.

(** The reply is the process id with the answer of the room. *)
Example remoteRoomCall_local_reply :
  (remoteRoomCall None Sample.classes Sample.JSON_stringify "0" "hasReservedSeat"
     (Some [VStr "1"]) None Sample.one_room).1
  = Resolved (Some "p1", VBool true).
Proof. vm_compute. reflexivity. Qed.

(** A property is read without a call: here the room name. *)
Example remoteRoomCall_local_property :
  remoteRoomCall None Sample.classes Sample.JSON_stringify "0" "roomName" None None
    Sample.one_room
  = (Resolved (Some "p1", VStr "chat"), Sample.one_room).
Proof. vm_compute. reflexivity. Qed.

(** Without a handler the first attempt of [joinOrCreate] fails with
    ERR_MATCHMAKE_NO_HANDLER and is the only one: the gate was passed
    once. *)
Example joinOrCreate_no_handler :
  let r := joinOrCreate None Sample.classes Sample.JSON_stringify "lobby" ∅ Sample.started in
  (∃ message, r.1 = Rejected (MatchMakeError message ERR_MATCHMAKE_NO_HANDLER))
  ∧ effects r.2 = [SetTimeout 0].
Proof. split; [eexists|]; vm_compute; reflexivity. Qed.

(** When the owner of the room found does not answer, the timeout ends
    [joinOrCreate] after one attempt. *)
Example joinOrCreate_remote_timeout :
  let r := joinOrCreate None Sample.classes Sample.JSON_stringify "chat" ∅ Sample.with_remote in
  (∃ message, r.1 = Rejected (Error message))
  ∧ effects r.2 = [ClearTimeout; SetTimeout 2000; SetTimeout 0].
Proof. split; [eexists|]; vm_compute; reflexivity. Qed.

(** On a room that stays full every attempt ends in a
    SeatReservationError: the gate is passed six times, once for the
    first attempt and once for each of the five retries. *)
Example joinOrCreate_full_room :
  let r := joinOrCreate None Sample.classes Sample.JSON_stringify "chat" ∅ Sample.full_room in
  (∃ message, r.1 = Rejected (SeatReservationError message))
  ∧ length (effects r.2) = (length (effects Sample.full_room) + 6)%nat.
Proof. split; [eexists|]; vm_compute; reflexivity. Qed.

(** The listing of a locked public room is in the result of [query]. *)
Example query_includes_locked :
  (query (Some "chat") None Sample.with_remote).1
  = Resolved [Sample.remote_listing; Sample.locked_listing].
Proof. vm_compute. reflexivity. Qed.

(** The caller's object after [query]. *)
Example query_writes_caller_object :
  let w := set_heap (<[7%nat := {[ "mode" := VStr "duo" ]}]>) Sample.started in
  deref 7 (query (Some "chat") (Some 7%nat) w).2
  = {[ "mode" := VStr "duo"; "name" := VStr "chat"; "private" := VBool false ]}.
Proof. vm_compute. reflexivity. Qed.

(** A message with a code the reply handler does not know drops the
    channel and clears the timer without settling the promise. *)
Example remoteRoomCall_unknown_code :
  let w := set_network [Message IpcOther (Some "p2", VNull)] Sample.with_remote in
  let r := remoteRoomCall None Sample.classes Sample.JSON_stringify "r9" "roomId" None None w in
  r.1 = Unsettled ∧ channels (presence r.2) = ∅.
Proof. split; vm_compute; reflexivity. Qed.

(** A reply handed over while [publish] runs settles the call at once.
    The timer is armed after [clearTimeout] was called and is left
    pending; when it fires it drops the reply channel once more and
    its rejection is lost on the settled promise. *)
Example remoteRoomCall_answered_within_publish :
  let r := remoteRoomCall None Sample.classes Sample.JSON_stringify "r9" "roomId" None None
             Fixtures.answered_at_once in
  let s := remote_call Sample.JSON_stringify "r9" "roomId" None 2000 Fixtures.answered_at_once in
  let fired := handle Sample.JSON_stringify TimerFires s in
  r.1 = Resolved (Some "p2", VStr "r9")
  ∧ effects r.2 = [SetTimeout 2000; ClearTimeout]
  ∧ unsubscribeTimeout s.1 = true
  ∧ promise fired.1 = Resolved (Some "p2", VStr "r9")
  ∧ calls (presence fired.2) = Punsubscribe "r9:0" :: calls (presence s.2)
  ∧ effects fired.2 = [ClearTimeout; SetTimeout 2000; ClearTimeout].
Proof. repeat split; vm_compute; reflexivity. Qed.

(** An [onCreate] that is rejected with a value that has no message
    gives an error with the empty message. *)
Example createRoom_onCreate_rejects_without_message :
  (createRoom Fixtures.classes "relay" ∅ Fixtures.three_types).1
  = Rejected (MatchMakeError EmptyString ERR_MATCHMAKE_UNHANDLED).
Proof. vm_compute. reflexivity. Qed.

(** * Further properties *)

(** ** The paths of the transport *)

Lemma list_ascii_of_string_app (a b : string) :
  String.list_ascii_of_string (a +:+ b)
  = String.list_ascii_of_string a ++ String.list_ascii_of_string b.
Proof. induction a as [|c a IH]; simpl; [done|]. by rewrite IH. Qed.

Lemma list_ascii_of_string_nil (s : string) :
  String.list_ascii_of_string s = [] → s = EmptyString.
Proof. by destruct s. Qed.

Lemma slash_not_word : WebSocketTransport.word_char WebSocketTransport.slash = false.
Proof. reflexivity. Qed.

(** [span_word] splits off a run of word characters that is followed by
    another character. *)
Lemma span_word_run (a rest : list Ascii.ascii) (c : Ascii.ascii) :
  Forall (λ c, WebSocketTransport.word_char c = true) a →
  WebSocketTransport.word_char c = false →
  WebSocketTransport.span_word (a ++ c :: rest) = (a, c :: rest).
Proof.
  intros Ha Hc. induction Ha as [|d a Hd Ha IH]; simpl.
  - by rewrite Hc.
  - by rewrite Hd, IH.
Qed.

(** What [span_word] returns: a run of word characters and a rest that
    does not go on with one. *)
Lemma span_word_spec (l a b : list Ascii.ascii) :
  WebSocketTransport.span_word l = (a, b) →
  l = a ++ b ∧ Forall (λ c, WebSocketTransport.word_char c = true) a.
Proof.
  revert a b. induction l as [|c l IH]; intros a b; simpl.
  - by intros [= <- <-].
  - destruct (WebSocketTransport.word_char c) eqn:Hc.
    + destruct (WebSocketTransport.span_word l) as [a' b'].
      intros [= <- <-]. destruct (IH a' b' eq_refl) as [-> Ha'].
      split; [done|]. by constructor.
    + by intros [= <- <-].
Qed.

Lemma Forall_word_reverse (l : list Ascii.ascii) :
  Forall (λ c, WebSocketTransport.word_char c = true) l →
  Forall (λ c, WebSocketTransport.word_char c = true) (reverse l).
Proof. intros Hl. by apply Forall_reverse. Qed.

(** X1.  A path that ends in [/<name>/<roomId>], both non-empty words,
    gives the room id, whatever comes before. *)
Theorem match_room_path_complete (before name roomId : string) :
  word name → word roomId →
  WebSocketTransport.match_room_path (before +:+ "/" +:+ name +:+ "/" +:+ roomId)
  = Some roomId.
Proof.
  intros [Hname Hname_word] [Hid Hid_word].
  unfold WebSocketTransport.match_room_path.
  rewrite !list_ascii_of_string_app, !reverse_app. simpl String.list_ascii_of_string.
  rewrite !reverse_singleton, <- !(assoc_L (++)). simpl.
  rewrite (span_word_run _ _ WebSocketTransport.slash)
    by (by apply Forall_word_reverse || apply slash_not_word).
  destruct (reverse (String.list_ascii_of_string roomId)) as [|c last] eqn:Hlast.
  { apply (f_equal reverse) in Hlast. rewrite reverse_involutive in Hlast.
    by apply list_ascii_of_string_nil in Hlast. }
  rewrite (span_word_run _ _ WebSocketTransport.slash)
    by (by apply Forall_word_reverse || apply slash_not_word).
  destruct (reverse (String.list_ascii_of_string name)) as [|d mid] eqn:Hmid.
  { apply (f_equal reverse) in Hmid. rewrite reverse_involutive in Hmid.
    by apply list_ascii_of_string_nil in Hmid. }
  simpl. rewrite <- Hlast, reverse_involutive.
  by rewrite String.string_of_list_ascii_of_string.
Qed.

(** X2.  A room id is found only in a path of that shape: the id is a
    non-empty word, it ends the path, and a slash, a non-empty word and
    a slash come before it. *)
Theorem match_room_path_sound (path roomId : string) :
  WebSocketTransport.match_room_path path = Some roomId →
  word roomId
  ∧ ∃ before name, word name ∧ path = before +:+ "/" +:+ name +:+ "/" +:+ roomId.
Proof.
  unfold WebSocketTransport.match_room_path.
  destruct (WebSocketTransport.span_word (reverse (String.list_ascii_of_string path)))
    as [last rest] eqn:Hspan.
  apply span_word_spec in Hspan as [Hpath Hlast].
  destruct last as [|c last]; [done|]. destruct rest as [|s rest]; [done|].
  destruct (Ascii.eqb s WebSocketTransport.slash) eqn:Hs; [|done].
  apply Ascii.eqb_eq in Hs. subst s.
  destruct (WebSocketTransport.span_word rest) as [mid rest'] eqn:Hspan'.
  apply span_word_spec in Hspan' as [-> Hmid].
  destruct mid as [|d mid]; [done|]. destruct rest' as [|s' rest']; [done|].
  destruct (Ascii.eqb s' WebSocketTransport.slash) eqn:Hs'; [|done].
  apply Ascii.eqb_eq in Hs'. subst s'. intros [= <-].
  apply (f_equal reverse) in Hpath. rewrite reverse_involutive in Hpath.
  rewrite !reverse_app, !reverse_cons, !reverse_app, !reverse_cons in Hpath.
  assert (Hnonempty : ∀ (x : Ascii.ascii) l,
             String.string_of_list_ascii (reverse (x :: l)) ≠ EmptyString).
  { intros x l Hempty. apply (f_equal String.list_ascii_of_string) in Hempty.
    rewrite String.list_ascii_of_string_of_list_ascii in Hempty.
    apply (f_equal length) in Hempty. rewrite length_reverse in Hempty. done. }
  split.
  - split; [apply Hnonempty|].
    rewrite String.list_ascii_of_string_of_list_ascii. by apply Forall_word_reverse.
  - exists (String.string_of_list_ascii (reverse rest')),
           (String.string_of_list_ascii (reverse (d :: mid))).
    split.
    + split; [apply Hnonempty|].
      rewrite String.list_ascii_of_string_of_list_ascii. by apply Forall_word_reverse.
    + rewrite <- (String.string_of_list_ascii_of_string path), Hpath.
      rewrite <- (String.string_of_list_ascii_of_string
                    (String.string_of_list_ascii (reverse rest') +:+ _)).
      rewrite !list_ascii_of_string_app, !String.list_ascii_of_string_of_list_ascii.
      simpl String.list_ascii_of_string. rewrite !reverse_cons, <- !(assoc_L (++)). done.
Qed.

(** *** The matchmake path *)

Lemma flush_run (cur : list Ascii.ascii) l :
  Transport.word_runs [] cur ++ l
  = match cur with [] => [] | _ => [reverse cur] end ++ l.
Proof. done. Qed.

(** A character that is no word character ends the run being read. *)
Lemma word_runs_split (a l cur : list Ascii.ascii) (c : Ascii.ascii) :
  WebSocketTransport.word_char c = false →
  Transport.word_runs (a ++ c :: l) cur
  = Transport.word_runs a cur ++ Transport.word_runs l [].
Proof.
  intros Hc. revert cur. induction a as [|d a IH]; intros cur; simpl.
  - by rewrite Hc.
  - destruct (WebSocketTransport.word_char d); [apply IH|].
    by rewrite IH, (assoc_L (++)).
Qed.

(** A run of word characters is read into [cur]. *)
Lemma word_runs_word (x cur : list Ascii.ascii) :
  Forall (λ c, WebSocketTransport.word_char c = true) x →
  Transport.word_runs x cur
  = match reverse x ++ cur with [] => [] | run => [reverse run] end.
Proof.
  intros Hx. revert cur. induction Hx as [|c x Hc Hx IH]; intros cur; simpl.
  - by destruct cur.
  - rewrite Hc, IH, reverse_cons, <- (assoc_L (++)). done.
Qed.

Lemma word_runs_one (s : string) :
  word s →
  Transport.word_runs (String.list_ascii_of_string s) [] = [String.list_ascii_of_string s].
Proof.
  intros [Hs Hword]. rewrite word_runs_word by done. rewrite (right_id_L [] (++)).
  destruct (reverse (String.list_ascii_of_string s)) eqn:Hrev.
  - apply (f_equal reverse) in Hrev. rewrite reverse_involutive in Hrev.
    by apply list_ascii_of_string_nil in Hrev.
  - by rewrite <- Hrev, reverse_involutive.
Qed.

(** The runs of a URL that ends in [/<method>/<name>] are those of what
    comes before, then the method, then the name. *)
Lemma matchedParams_ends (before method name : string) :
  word method → word name →
  Transport.matchedParams (before +:+ "/" +:+ method +:+ "/" +:+ name)
  = Transport.matchedParams before ++ [method; name].
Proof.
  intros Hmethod Hname. unfold Transport.matchedParams.
  rewrite !list_ascii_of_string_app. simpl String.list_ascii_of_string.
  rewrite <- ?(assoc_L (++)). simpl.
  rewrite !(word_runs_split _ _ _ WebSocketTransport.slash) by apply slash_not_word.
  rewrite (word_runs_one method), (word_runs_one name) by done.
  rewrite !fmap_app. simpl.
  by rewrite !String.string_of_list_ascii_of_string.
Qed.

(** X3.  In a URL that ends in [/<method>/<name>], both non-empty
    words, the method is the last run but one and the name the last,
    whatever comes before: the handler of the first message is given
    these two. *)
Theorem matchedParams_method_name (before method name : string) :
  word method → word name →
  let params := Transport.matchedParams (before +:+ "/" +:+ method +:+ "/" +:+ name) in
  Transport.method_of params = Some method ∧ Transport.name_of params = Some name.
Proof.
  intros Hmethod Hname params. subst params.
  rewrite matchedParams_ends by done.
  unfold Transport.method_of, Transport.name_of. by rewrite reverse_app.
Qed.

Section Matchmake.

Context (env : option Z) (classes : string → RoomClass)
        (JSON_stringify : list JSValue → string)
        (defaultMaxRetries : nat) (defaultErrorWhiteList : list ErrorClass).

(** X4.  Whatever the URL and the body, when the last run but one of the
    URL is not one of the four exposed methods no method of the
    matchmaker is called: the world is left as it was, and the client
    is sent nothing or one ERR_MATCHMAKE_UNHANDLED error. *)
Theorem handleMatchmake_unexposed (url : string) (body : JSObject) (w : World) :
  (∀ m, Transport.method_of (Transport.matchedParams url) = Some m →
        m ∉ Transport.exposedMethods) →
  let r := Transport.handleMatchmake env classes JSON_stringify
             defaultMaxRetries defaultErrorWhiteList url body w in
  r.2 = w
  ∧ (r.1 = []
     ∨ ∃ message, r.1 = [Transport.ErrorReply ERR_MATCHMAKE_UNHANDLED (VStr message)]).
Proof.
  intros Hunexposed r. subst r. unfold Transport.handleMatchmake.
  destruct (Transport.name_of _) as [name|]; [|by auto].
  unfold Transport.handelMatchmake2.
  destruct (Transport.method_of _) as [m|] eqn:Hm; simpl.
  - specialize (Hunexposed m eq_refl). rewrite bool_decide_eq_false_2 by done.
    simpl. eauto.
  - eauto.
Qed.

End Matchmake.

(** *** Broken connections *)

Lemma beats_cons max b bs s :
  Transport.beats max (b :: bs) s = Transport.beats max bs (Transport.beat max s b).
Proof. done. Qed.

(** A terminated client is no longer pinged. *)
Lemma rounds_terminated max n s :
  Transport.terminated s = true →
  Transport.beats max (replicate n Transport.Round) s = s.
Proof.
  intros Hs. induction n as [|n IH]; [done|].
  simpl replicate. rewrite beats_cons. simpl. unfold Transport.ping_round.
  by rewrite Hs.
Qed.

(** A client that does not answer, from any count of pings. *)
Lemma rounds_silent max n s :
  Transport.terminated s = false →
  0 ≤ pingCount (Transport.client s) ≤ max →
  let s' := Transport.beats max (replicate n Transport.Round) s in
  if decide (pingCount (Transport.client s) + Z.of_nat n ≤ max)
  then Transport.terminated s' = false
       ∧ pingCount (Transport.client s') = pingCount (Transport.client s) + Z.of_nat n
       ∧ Transport.pings s' = (Transport.pings s + n)%nat
  else Transport.terminated s' = true
       ∧ Transport.pings s'
         = (Transport.pings s + Z.to_nat (max - pingCount (Transport.client s)))%nat.
Proof.
  revert s. induction n as [|n IH]; intros s Hs Hcount s'; subst s'; cbn [replicate].
  - change (Transport.beats max [] s) with s.
    rewrite decide_True by lia. repeat split; [done|lia|lia].
  - rewrite beats_cons. simpl Transport.beat. unfold Transport.ping_round. rewrite Hs.
    destruct (max <=? pingCount (Transport.client s)) eqn:Hmax.
    + apply Z.leb_le in Hmax. rewrite rounds_terminated by done. simpl.
      rewrite decide_False by lia. split; [done|]. lia.
    + apply Z.leb_gt in Hmax.
      set (s1 := {| Transport.client := _; Transport.pings := _; Transport.terminated := _ |}).
      specialize (IH s1 eq_refl). simpl in IH.
      assert (Hcount1 : 0 ≤ pingCount (Transport.client s) + 1 ≤ max) by lia.
      specialize (IH Hcount1).
      destruct (decide (pingCount (Transport.client s) + 1 + Z.of_nat n ≤ max)).
      * rewrite decide_True by lia. destruct IH as (? & ? & ?). repeat split; [done|lia|lia].
      * rewrite decide_False by lia. destruct IH as (? & ?). split; [done|]. lia.
Qed.

(** X5.  A client that joined (its count of pings is 0) and never
    answers is pinged once per round for [pingCountMax] rounds and
    terminated by the round after: after [n] rounds it is terminated
    exactly when [n] is more than [pingCountMax], and it has been sent
    [min n pingCountMax] pings. *)
Theorem silent_client_terminated (max : Z) (n : nat) (s : Transport.Socket) :
  0 ≤ max →
  Transport.terminated s = false →
  pingCount (Transport.client s) = 0 →
  let s' := Transport.beats max (replicate n Transport.Round) s in
  Transport.terminated s' = bool_decide (max < Z.of_nat n)
  ∧ Transport.pings s' = (Transport.pings s + n `min` Z.to_nat max)%nat.
Proof.
  intros Hmax Hs Hcount s'.
  pose proof (rounds_silent max n s Hs) as Hrounds. rewrite Hcount in Hrounds.
  specialize (Hrounds ltac:(lia)). fold s' in Hrounds.
  destruct (decide (0 + Z.of_nat n ≤ max)) as [Hle|Hgt].
  - destruct Hrounds as (-> & _ & ->). rewrite bool_decide_eq_false_2 by lia.
    split; [done|]. lia.
  - destruct Hrounds as (-> & ->). rewrite bool_decide_eq_true_2 by lia.
    split; [done|]. lia.
Qed.

Lemma beats_responsive max bs s :
  Transport.terminated s = false →
  0 ≤ pingCount (Transport.client s) →
  Transport.silent_at_most (Z.to_nat max) (Z.to_nat (pingCount (Transport.client s))) bs = true →
  Transport.terminated (Transport.beats max bs s) = false.
Proof.
  revert s. induction bs as [|[|] bs IH]; intros s Hs Hcount Hruns; [done|..].
  - rewrite beats_cons. cbn [Transport.silent_at_most] in Hruns.
    apply andb_true_iff in Hruns as [Hrun Hruns].
    apply Nat.leb_le in Hrun.
    simpl Transport.beat. unfold Transport.ping_round. rewrite Hs.
    rewrite (proj2 (Z.leb_gt _ _)) by lia.
    apply IH; simpl; [done|lia|].
    by replace (Z.to_nat (pingCount (Transport.client s) + 1))
      with (S (Z.to_nat (pingCount (Transport.client s)))) by lia.
  - rewrite beats_cons. cbn [Transport.silent_at_most] in Hruns. by apply IH.
Qed.

(** X6.  A client that joined and lets at most [pingCountMax] rounds in
    a row pass without a pong is never terminated, however long it
    stays. *)
Theorem responsive_client_kept (max : Z) (bs : list Transport.Beat) (s : Transport.Socket) :
  Transport.terminated s = false →
  pingCount (Transport.client s) = 0 →
  Transport.silent_at_most (Z.to_nat max) 0 bs = true →
  Transport.terminated (Transport.beats max bs s) = false.
Proof.
  intros Hs Hcount Hruns. apply beats_responsive; [done|lia|]. by rewrite Hcount.
Qed.

(** ** Rooms: creation, lookup, disposal *)

Section Rooms.

Context (env : option Z) (classes : string → RoomClass)
        (JSON_stringify : list JSValue → string).

(** [createRoom] by its steps, once the handler is found. *)
Lemma createRoom_steps roomName clientOptions w registeredHandler :
  handlers w !! roomName = Some registeredHandler →
  createRoom classes roomName clientOptions w
  = match run_onCreate classes registeredHandler
            (new_room classes registeredHandler roomName clientOptions w)
            clientOptions (generateId w).2 with
    | (Resolved room, w1) =>
        let room := bind_listeners (set_created room) roomName in
        (createRoomReferences room true;;
         step (set_driver (driver.save (listing room)));;
         step (effect (Emit roomName "create" (roomId room)));;
         mret (listing room)) w1
    | (Rejected e, w1) => (Rejected e, w1)
    | (Unsettled, w1) => (Unsettled, w1)
    end.
Proof.
  intros Hhandler. unfold createRoom, run_onCreate, new_room. rewrite Hhandler. simpl.
  destruct (onCreate (classes (klass registeredHandler))) as [hook|]; [|done].
  by destruct (hook _ _ _) as [[room|e|] w1].
Qed.

(** A listing with a string for room id is its own row. *)
Lemma same_row_stamped (l r : RoomListingData) (id : string) :
  get l "roomId" = VStr id →
  driver.same_row l r = true ↔ get r "roomId" = VStr id.
Proof.
  intros Hl. unfold driver.same_row. rewrite Hl.
  destruct (get r "roomId") as [| | | |s|]; simpl; split; try done.
  - intros Heq%String.eqb_eq. by subst.
  - intros [= ->]. apply String.eqb_refl.
Qed.

Lemma matches_roomId (r : RoomListingData) (id : string) :
  matches {[ "roomId" := VStr id ]} r = true ↔ get r "roomId" = VStr id.
Proof.
  unfold matches. rewrite bool_decide_eq_true, map_Forall_singleton.
  destruct (get r "roomId") as [| | | |s|]; simpl; split; try done.
  - intros Heq%String.eqb_eq. by subst.
  - intros [= ->]. apply String.eqb_refl.
Qed.

Lemma filter_none {A} (P : A → Prop) `{∀ x, Decision (P x)} (l : list A) :
  (∀ x, x ∈ l → ¬ P x) → filter P l = [].
Proof.
  induction l as [|x l IH]; intros Hl; [done|].
  rewrite filter_cons_False by (apply Hl; left).
  apply IH. intros y Hy. apply Hl. by right.
Qed.

Lemma filter_all {A} (P : A → Prop) `{∀ x, Decision (P x)} (l : list A) :
  (∀ x, x ∈ l → P x) → filter P l = l.
Proof.
  induction l as [|x l IH]; intros Hl; [done|].
  rewrite filter_cons_True by (apply Hl; left).
  f_equal. apply IH. intros y Hy. apply Hl. by right.
Qed.

(** After [save] the registry has one row with the id of the listing:
    the listing saved. *)
Lemma findOne_saved (l : RoomListingData) (id : string) (d : MatchMakerDriver) :
  get l "roomId" = VStr id →
  driver.await (driver.findOne {[ "roomId" := VStr id ]}) (driver.save l d) = Some l.
Proof.
  intros Hl. unfold driver.await, driver.findOne, driver.find, driver.save; simpl.
  rewrite filter_app.
  assert (Hnone : filter (λ room, matches {[ "roomId" := VStr id ]} room = true)
                    (filter (λ r, driver.same_row l r = false) (rooms d)) = []).
  { apply filter_none. intros r [Hkept _]%list_elem_of_filter Hr.
    apply matches_roomId in Hr. apply (same_row_stamped l r id Hl) in Hr. congruence. }
  rewrite Hnone; simpl. rewrite filter_cons_True; [done|]. by apply matches_roomId.
Qed.

(** The registry finds the listing of the room [createRoom] made. *)
Lemma createRoom_registers_found name clientOptions w registeredHandler made w1 :
  handlers w !! name = Some registeredHandler →
  run_onCreate classes registeredHandler
    (new_room classes registeredHandler name clientOptions w)
    clientOptions (generateId w).2 = (Resolved made, w1) →
  driver.await (driver.findOne {[ "roomId" := VStr (roomId made) ]})
    (driver (createRoom classes name clientOptions w).2)
  = Some (listing (bind_listeners (set_created made) name)).
Proof.
  intros Hhandler Hmade. rewrite (createRoom_steps _ _ _ _ Hhandler), Hmade.
  unfold createRoomReferences, mbind, Async_bind, mret, Async_ret, bind, ret, step.
  simpl. apply (findOne_saved _ (roomId made)).
  unfold get. simpl. by rewrite lookup_insert_ne, lookup_insert_eq.
Qed.

(** X7.  When the handler is registered and [onCreate], if the class has
    one, resolves, [createRoom] returns the listing of the room stamped
    with the room id and [maxClients]; the room, CREATED, is the local
    room at that id and the other local rooms are untouched; the id is
    in the presence set of its room name, the request handler of the
    room is subscribed to its channel, and the registry finds the
    listing by the room id. *)
Theorem createRoom_registers (name : string) (clientOptions : JSObject) (w : World)
    (registeredHandler : RegisteredHandler) (made : Room) (w1 : World) :
  handlers w !! name = Some registeredHandler →
  run_onCreate classes registeredHandler
    (new_room classes registeredHandler name clientOptions w)
    clientOptions (generateId w).2 = (Resolved made, w1) →
  let room := bind_listeners (set_created made) name in
  let r := createRoom classes name clientOptions w in
  r.1 = Resolved (listing room)
  ∧ get (listing room) "roomId" = VStr (roomId made)
  ∧ get (listing room) "maxClients" = maxClients made
  ∧ _internalState room = CREATED
  ∧ getRoomById (roomId made) r.2 = Some room
  ∧ (∀ other, other ≠ roomId made → getRoomById other r.2 = getRoomById other w1)
  ∧ roomId made ∈ presence.smembers (roomName made) (presence r.2)
  ∧ RoomChannelHandler (roomId made)
    ∈ default [] (channels (presence r.2) !! getRoomChannel (roomId made))
  ∧ driver.await (driver.findOne {[ "roomId" := VStr (roomId made) ]}) (driver r.2)
    = Some (listing room).
Proof.
  intros Hhandler Hmade room r.
  assert (Hstamp : get (listing room) "roomId" = VStr (roomId made)).
  { unfold get. simpl. by rewrite lookup_insert_ne, lookup_insert_eq. }
  subst r. rewrite (createRoom_steps _ _ _ _ Hhandler), Hmade.
  unfold createRoomReferences, mbind, Async_bind, mret, Async_ret, bind, ret, step.
  simpl.
  split; [done|]. split; [exact Hstamp|].
  split; [unfold get; simpl; by rewrite lookup_insert_eq|].
  split; [done|].
  split; [unfold getRoomById; simpl; by rewrite lookup_insert_eq|].
  split; [intros other Hother; unfold getRoomById; simpl; by rewrite lookup_insert_ne|].
  split; [|split].
  - unfold presence.smembers. simpl. rewrite lookup_insert_eq. simpl.
    apply elem_of_union_l, elem_of_singleton. done.
  - rewrite lookup_insert_eq. simpl. apply elem_of_app. right. left.
  - apply (findOne_saved _ (roomId made)). exact Hstamp.
Qed.


(** X8.  When [onCreate] rejects with an error object, [createRoom]
    rejects with ERR_MATCHMAKE_UNHANDLED and the message of the error,
    which is empty when the error has none, and no part of the room is
    registered: the world is the one [onCreate] left, the id drawn
    apart. *)
Theorem createRoom_onCreate_rejects (name : string) (clientOptions : JSObject) (w : World)
    (registeredHandler : RegisteredHandler)
    (hook : Room → JSObject → World → Outcome Room * World) (e : Thrown) (w1 : World) :
  handlers w !! name = Some registeredHandler →
  onCreate (classes (klass registeredHandler)) = Some hook →
  hook (new_room classes registeredHandler name clientOptions w)
    (merge ∅ clientOptions (options registeredHandler)) (generateId w).2
  = (Rejected e, w1) →
  let message := match message_of e with VStr message => message | _ => EmptyString end in
  createRoom classes name clientOptions w
  = (Rejected (MatchMakeError message ERR_MATCHMAKE_UNHANDLED), w1).
Proof.
  intros Hhandler Hhook Hrejects message. rewrite (createRoom_steps _ _ _ _ Hhandler).
  unfold run_onCreate. rewrite Hhook, Hrejects. subst message. by destruct e.
Qed.

(** What [disposeRoom] leaves, field by field. *)
Lemma disposeRoom_world name room w registeredHandler :
  handlers w !! name = Some registeredHandler →
  let r := disposeRoom name room w in
  r.1 = Resolved tt
  ∧ localRooms r.2 = delete (roomId room) (localRooms w)
  ∧ rooms (driver r.2) = filter (λ row, driver.same_row (listing room) row = false)
                           (rooms (driver w))
  ∧ channels (presence r.2) = delete (getRoomChannel (roomId room)) (channels (presence w))
  ∧ data (presence r.2) = data (presence.srem (roomName room) (roomId room) (presence w))
  ∧ keys (presence r.2)
    = delete (roomId room) (delete (getHandlerConcurrencyKey name) (keys (presence w)))
  ∧ handlers r.2 = handlers w.
Proof.
  intros Hhandler r. subst r.
  unfold disposeRoom, emit, mbind, Async_bind, bind, step. simpl. by rewrite Hhandler.
Qed.

(** X9.  Disposing a room of a registered type undoes every reference
    to it: no local room is left at its id, the id is out of the
    presence set of its room name, nothing is subscribed to its
    channel, the registry finds no listing with the id of its listing,
    and the counter of the admission gate of its type is back at 0.
    The other local rooms are untouched. *)
Theorem disposeRoom_clears (name : string) (room : Room) (w : World)
    (registeredHandler : RegisteredHandler) (id : string) :
  handlers w !! name = Some registeredHandler →
  get (listing room) "roomId" = VStr id →
  let r := disposeRoom name room w in
  r.1 = Resolved tt
  ∧ getRoomById (roomId room) r.2 = None
  ∧ (∀ other, other ≠ roomId room → getRoomById other r.2 = getRoomById other w)
  ∧ (roomId room ∉ presence.smembers (roomName room) (presence r.2))
  ∧ channels (presence r.2) !! getRoomChannel (roomId room) = None
  ∧ driver.await (driver.findOne {[ "roomId" := VStr id ]}) (driver r.2) = None
  ∧ presence.counter (getHandlerConcurrencyKey name) (presence r.2) = 0.
Proof.
  intros Hhandler Hid r.
  pose proof (disposeRoom_world name room w registeredHandler Hhandler)
    as (Hr & Hlocal & Hrows & Hchannels & Hdata & Hkeys & _).
  fold r in Hr, Hlocal, Hrows, Hchannels, Hdata, Hkeys.
  split; [exact Hr|]. unfold getRoomById. rewrite Hlocal.
  split; [apply lookup_delete_eq|].
  split; [intros other Hother; by apply lookup_delete_ne|].
  split; [|split; [|split]].
  - unfold presence.smembers. rewrite Hdata.
    change (default ∅ (data (presence.srem (roomName room) (roomId room) (presence w))
                       !! roomName room))
      with (presence.smembers (roomName room)
              (presence.srem (roomName room) (roomId room) (presence w))).
    rewrite (smembers_srem classes), elem_of_difference, elem_of_singleton.
    intros [_ Hne]. by apply Hne.
  - rewrite Hchannels. apply lookup_delete_eq.
  - unfold driver.await, driver.findOne, driver.find. simpl. rewrite Hrows.
    rewrite filter_none; [done|].
    intros row [Hkept _]%list_elem_of_filter Hrow.
    apply matches_roomId in Hrow. apply (same_row_stamped _ row id Hid) in Hrow. congruence.
  - unfold presence.counter. rewrite Hkeys.
    destruct (decide (roomId room = getHandlerConcurrencyKey name)) as [->|Hne].
    + by rewrite lookup_delete_eq.
    + by rewrite lookup_delete_ne, lookup_delete_eq.
Qed.

(** X10.  A room created and then disposed leaves no trace where its id
    was free: the local rooms, the rows of the registry and the
    subscriptions are those there were before the room was made, and
    the presence set of its room name is that set without the id. *)
Theorem createRoom_disposeRoom (name : string) (clientOptions : JSObject) (w : World)
    (registeredHandler registeredHandler' : RegisteredHandler) (made : Room) (w1 : World) :
  handlers w !! name = Some registeredHandler →
  run_onCreate classes registeredHandler
    (new_room classes registeredHandler name clientOptions w)
    clientOptions (generateId w).2 = (Resolved made, w1) →
  handlers w1 !! name = Some registeredHandler' →
  localRooms w1 !! roomId made = None →
  channels (presence w1) !! getRoomChannel (roomId made) = None →
  (∀ row, row ∈ rooms (driver w1) → get row "roomId" ≠ VStr (roomId made)) →
  let room := bind_listeners (set_created made) name in
  let created := (createRoom classes name clientOptions w).2 in
  let disposed := disposeRoom name room created in
  disposed.1 = Resolved tt
  ∧ localRooms disposed.2 = localRooms w1
  ∧ rooms (driver disposed.2) = rooms (driver w1)
  ∧ channels (presence disposed.2) = channels (presence w1)
  ∧ presence.smembers (roomName made) (presence disposed.2)
    = presence.smembers (roomName made) (presence w1) ∖ {[roomId made]}.
Proof.
  intros Hhandler Hmade Hhandler1 Hlocal Hchannel Hrows room created disposed.
  assert (Hstamp : get (listing room) "roomId" = VStr (roomId made)).
  { unfold get. simpl. by rewrite lookup_insert_ne, lookup_insert_eq. }
  assert (Hcreated : handlers created = handlers w1
            ∧ localRooms created = <[roomId made := room]> (localRooms w1)
            ∧ rooms (driver created)
              = filter (λ row, driver.same_row (listing room) row = false) (rooms (driver w1))
                ++ [listing room]
            ∧ channels (presence created)
              = <[getRoomChannel (roomId made) := [RoomChannelHandler (roomId made)]]>
                  (channels (presence w1))
            ∧ data (presence created)
              = data (presence.sadd (roomName made) (roomId made) (presence w1))).
  { subst created. rewrite (createRoom_steps _ _ _ _ Hhandler), Hmade.
    unfold createRoomReferences, mbind, Async_bind, mret, Async_ret, bind, ret, step.
    simpl. by rewrite Hchannel. }
  destruct Hcreated as (Hh & Hl & Hr & Hc & Hd).
  assert (Hhandler2 : handlers created !! name = Some registeredHandler') by by rewrite Hh.
  pose proof (disposeRoom_world name room created registeredHandler' Hhandler2)
    as (Hres & Hlocal' & Hrows' & Hchannels' & Hdata' & _).
  fold disposed in Hres, Hlocal', Hrows', Hchannels', Hdata'.
  assert (Hkeep : filter (λ row, driver.same_row (listing room) row = false)
                    (rooms (driver w1)) = rooms (driver w1)).
  { apply filter_all. intros row Hrow.
    destruct (driver.same_row (listing room) row) eqn:Hsame; [|done].
    apply (same_row_stamped _ row _ Hstamp) in Hsame. by destruct (Hrows row Hrow). }
  split; [exact Hres|]. split; [|split; [|split]].
  - rewrite Hlocal', Hl. change (roomId room) with (roomId made).
    by rewrite delete_insert_eq, delete_id.
  - rewrite Hrows', Hr, Hkeep, filter_app, Hkeep.
    rewrite filter_cons_False, filter_nil, (right_id_L [] (++)); [done|].
    rewrite (proj2 (same_row_stamped _ (listing room) _ Hstamp) Hstamp). done.
  - rewrite Hchannels', Hc. change (roomId room) with (roomId made).
    by rewrite delete_insert_eq, delete_id.
  - unfold presence.smembers at 1. rewrite Hdata'.
    change (roomName room) with (roomName made). change (roomId room) with (roomId made).
    change (default ∅ (data (presence.srem (roomName made) (roomId made) (presence created))
                       !! roomName made))
      with (presence.smembers (roomName made)
              (presence.srem (roomName made) (roomId made) (presence created))).
    rewrite (smembers_srem classes). unfold presence.smembers. rewrite Hd. simpl.
    rewrite lookup_insert_eq. simpl. apply set_eq. intros x.
    rewrite !elem_of_difference, elem_of_union, elem_of_singleton. tauto.
Qed.

(** X11.  Once a room is created, [joinById] with its id and options
    that carry no session id reserves a seat in it, as long as its
    listing is not locked. *)
Theorem joinById_created (name : string) (clientOptions options : JSObject) (w : World)
    (registeredHandler : RegisteredHandler) (made : Room) (w1 : World) :
  handlers w !! name = Some registeredHandler →
  run_onCreate classes registeredHandler
    (new_room classes registeredHandler name clientOptions w)
    clientOptions (generateId w).2 = (Resolved made, w1) →
  truthy (get options "sessionId") = false →
  truthy (get (listing made) "locked") = false →
  let room := bind_listeners (set_created made) name in
  let created := (createRoom classes name clientOptions w).2 in
  joinById env classes JSON_stringify (roomId made) options created
  = reserveSeatFor env classes JSON_stringify (listing room) options created.
Proof.
  intros Hhandler Hmade Hsession Hlocked room created.
  pose proof (createRoom_registers_found name clientOptions w registeredHandler made w1
                Hhandler Hmade) as Hfound.
  fold room created in Hfound.
  unfold joinById, mbind, Async_bind, bind, call. rewrite Hfound, Hsession.
  assert (Hunlocked : truthy (get (listing room) "locked") = false).
  { unfold get in *. simpl. by rewrite !lookup_insert_ne. }
  by rewrite Hunlocked.
Qed.

End Rooms.

(** ** Queries and remote calls *)

Section Calls.

Context (env : option Z) (classes : string → RoomClass)
        (JSON_stringify : list JSValue → string)
        (thrown_value : Thrown → JSValue).

Lemma strict_eq_eq (a b : JSValue) : strict_eq a b = true → a = b.
Proof.
  destruct a, b; simpl; try done.
  - by intros ->%Bool.eqb_prop.
  - by intros ->%Z.eqb_eq.
  - by intros ->%String.eqb_eq.
Qed.

(** [queryRoom] is the gate around the query of the handler. *)
Lemma queryRoom_query name options w handler :
  handlers w !! name = Some handler →
  (queryRoom env name options w).1
  = Resolved (driver.await (room_query handler name options) (driver w)).
Proof.
  intros Hhandler. unfold queryRoom, awaitRoomAvailable, room_query. simpl.
  rewrite Hhandler. by destruct (sortOptions handler).
Qed.

(** X12.  A room [queryRoom] returns is a row of the registry that is
    not locked, has the room name asked for and passes the filter
    options of the handler, provided these options set neither [locked]
    nor [name] themselves and the sort of the handler only reorders. *)
Theorem queryRoom_unlocked (name : string) (options : JSObject) (w : World)
    (handler : RegisteredHandler) (room : RoomListingData) :
  handlers w !! name = Some handler →
  getFilterOptions handler options !! "locked" = None →
  getFilterOptions handler options !! "name" = None →
  reorders handler →
  (queryRoom env name options w).1 = Resolved (Some room) →
  room ∈ rooms (driver w)
  ∧ get room "locked" = VBool false
  ∧ get room "name" = VStr name
  ∧ (∀ field v, getFilterOptions handler options !! field = Some v → get room field = v).
Proof.
  intros Hhandler Hlocked Hname Hsort. rewrite (queryRoom_query _ _ _ _ Hhandler).
  intros [= Hfound]. unfold driver.await, room_query in Hfound.
  set (conditions := getFilterOptions handler options
                     ∪ {[ "locked" := VBool false; "name" := VStr name ]}) in *.
  assert (Hin : room ∈ driver.find conditions (driver w)).
  { unfold reorders in Hsort. destruct (sortOptions handler) as [spec|]; simpl in Hfound.
    - apply (Hsort (driver.find conditions (driver w))).
      destruct (spec _) as [|x rest]; [done|]. injection Hfound as ->. left.
    - destruct (driver.find conditions (driver w)) as [|x rest]; [done|].
      injection Hfound as ->. left. }
  apply list_elem_of_filter in Hin as [Hpass Hrow].
  unfold matches in Hpass. apply bool_decide_eq_true in Hpass.
  assert (Hmeets : ∀ field v, conditions !! field = Some v → get room field = v).
  { intros field v Hfield. by apply strict_eq_eq, (Hpass field v). }
  split; [exact Hrow|]. split; [|split].
  - apply Hmeets. subst conditions. rewrite lookup_union_r by done.
    by rewrite lookup_insert_eq.
  - apply Hmeets. subst conditions. rewrite lookup_union_r by done.
    by rewrite lookup_insert_ne, lookup_singleton_eq.
  - intros field v Hfield. apply Hmeets. subst conditions.
    by apply lookup_union_Some_l.
Qed.

(** X13.  A remote call is settled by the first thing that happens to
    it and by nothing else.  When [publish] returns before any reply,
    a first SUCCESS reply resolves the call, a first ERROR reply
    rejects it with the data and the timer, when it is first, rejects
    it with the timeout error; a first reply with a code the handler
    does not know settles nothing.  In each case the reply handler is
    unsubscribed and the timer cleared, so that whatever follows, be it
    further replies or the timer, changes neither the promise nor the
    world: after a reply of unknown code the call never settles.  A
    SUCCESS or ERROR reply handed over while [publish] still runs
    settles the call before there is a timer; the timer armed after it
    stays pending, and neither it nor a later reply changes the promise
    or the channels. *)
Theorem remote_call_first_wins (roomId method : string) (args : option (list JSValue))
    (T : Z) (w : World) (ev : Event) (evs : list Event) :
  channels (presence w) !! (roomId +:+ ":" +:+ (generateId w).1) = None →
  let request :=
    method +:+ match args with
               | Some args => " with args " +:+ JSON_stringify args
               | None => EmptyString
               end in
  let timed_out :=
    Error ("remote room (" +:+ roomId +:+ ") timed out, requesting " +:+ dq +:+ request
           +:+ dq +:+ ". " +:+ "Timeout setting: " +:+ pretty T +:+ "ms") in
  let pending := send_request roomId method args T w in
  let first := handle JSON_stringify ev pending in
  promise first.1
  = match ev with
    | Arrives SUCCESS data => Resolved data
    | Arrives ERROR data => Rejected (RemoteError data)
    | Arrives IpcOther _ => Unsettled
    | TimerFires => Rejected timed_out
    end
  ∧ listening first.1 first.2 = false
  ∧ unsubscribeTimeout first.1 = false
  ∧ play JSON_stringify (ev :: evs) pending = first
  ∧ (∀ code data later,
       let handed := arm (handle JSON_stringify (Arrives code data)
                            (open_request roomId method args T w)) in
       code ≠ IpcOther →
       promise handed.1
       = match code with
         | SUCCESS => Resolved data
         | _ => Rejected (RemoteError data)
         end
       ∧ listening handed.1 handed.2 = false
       ∧ unsubscribeTimeout handed.1 = true
       ∧ promise (play JSON_stringify later handed).1 = promise handed.1
       ∧ channels (presence (play JSON_stringify later handed).2) = channels (presence w)).
Proof.
  intros Hfresh request timed_out pending first.
  split; [|split; [|split; [|split]]].
  - subst first pending.
    pose proof (send_request_pending classes roomId method args T w Hfresh) as Hpending.
    destruct (send_request roomId method args T w) as [rc w1] eqn:Hsend.
    destruct Hpending as (Hch & Hpromise & Htimer & HT & Hlisten & _).
    assert (Hrc : rc_roomId rc = roomId ∧ rc_method rc = method ∧ rc_args rc = args).
    { unfold send_request, arm, open_request in Hsend. by inversion Hsend. }
    destruct Hrc as (Hr1 & Hr2 & Hr3).
    rewrite (handle_first_promise JSON_stringify ev rc w1 Hlisten Htimer Hpromise).
    by rewrite Hr1, Hr2, Hr3, HT.
  - subst first pending.
    pose proof (send_request_pending classes roomId method args T w Hfresh) as Hpending.
    destruct (send_request roomId method args T w) as [rc w1] eqn:Hsend.
    destruct Hpending as (Hch & Hpromise & Htimer & HT & Hlisten & _).
    pose proof (handle_first_world JSON_stringify ev rc w1 Hlisten Htimer) as Hworld.
    pose proof (handle_first_call JSON_stringify ev rc w1 Hlisten Htimer) as (Hch' & _).
    destruct (handle JSON_stringify ev (rc, w1)) as [rc' w']; cbn [fst snd] in *.
    unfold listening. fold (channel_of rc'). rewrite Hch', Hworld; simpl.
    by rewrite lookup_delete_eq.
  - subst first pending.
    pose proof (send_request_pending classes roomId method args T w Hfresh) as Hpending.
    destruct (send_request roomId method args T w) as [rc w1] eqn:Hsend.
    destruct Hpending as (Hch & Hpromise & Htimer & HT & Hlisten & _).
    by pose proof (handle_first_call JSON_stringify ev rc w1 Hlisten Htimer) as (_ & _ & _ & ?).
  - subst first pending.
    pose proof (send_request_pending classes roomId method args T w Hfresh) as Hpending.
    destruct (send_request roomId method args T w) as [rc w1] eqn:Hsend.
    destruct Hpending as (Hch & _ & Htimer & _ & Hlisten & Hsubs & _).
    assert (Hrc : rc_roomId rc = roomId ∧ rc_requestId rc = (generateId w).1).
    { unfold send_request, arm, open_request in Hsend. by inversion Hsend. }
    destruct Hrc as [Hr Hq].
    apply play_first_wins; [exact Hlisten|exact Htimer|].
    by rewrite Hsubs, lookup_insert_eq, Hr, Hq.
  - intros code data later handed Hcode.
    pose proof (handed_over classes JSON_stringify roomId method args T w code data Hfresh)
      as (Hpromise & Hch & Hchannels & _ & Htimer).
    fold handed in Hpromise, Hch, Hchannels, Htimer.
    destruct handed as [rc w1]; cbn [fst snd] in *.
    assert (Hgone : channels (presence w1) !! channel_of rc = None)
      by by rewrite Hchannels, Hch.
    assert (Hsettled : promise rc ≠ Unsettled) by (rewrite Hpromise; by destruct code).
    destruct (play_settled JSON_stringify later rc w1 Hgone Hsettled) as [Hp Hc].
    split; [rewrite Hpromise; by destruct code|].
    split; [|split; [exact Htimer|split; [exact Hp|by rewrite Hc]]].
    unfold listening. fold (channel_of rc). rewrite Hgone. simpl.
    first [done | by rewrite bool_decide_eq_false_2 by apply not_elem_of_nil].
Qed.

(** What [reply] publishes. *)
Lemma reply_calls room requestId code data w :
  calls (presence (reply room requestId code data w))
  = Ppublish (roomId room +:+ ":" +:+ requestId) (Reply code (processId w, data))
      :: calls (presence w).
Proof. done. Qed.

(** The request handler answers as the local call does. *)
Lemma onRequest_local room method requestId args T w :
  localRooms w !! roomId room = Some room →
  match remoteRoomCall env classes JSON_stringify (roomId room) method args T w with
  | (Resolved (_, value), w') =>
      onRequest classes thrown_value room method requestId args w
      = reply room requestId SUCCESS value w'
  | (Rejected e, w') =>
      ∃ data, onRequest classes thrown_value room method requestId args w
              = reply room requestId ERROR data w'
  | (Unsettled, w') =>
      onRequest classes thrown_value room method requestId args w = w'
  end.
Proof.
  intros Hlocal. unfold remoteRoomCall, onRequest. rewrite Hlocal.
  destruct args as [args|], (member classes room method) as [v|f]; simpl.
  - destruct v; eauto.
  - destruct (f room args w) as [[v|e|] w']; eauto.
  - done.
  - destruct (f room [] w) as [[v|e|] w']; eauto.
Qed.

(** X14.  A remote call carried over Presence gives what the same call
    gives on the process that owns the room.  The caller publishes the
    request on the channel of the room; the request handler of the
    owner publishes its answer on the very channel the caller listens
    on; and when the call made locally on the owner resolves with a
    value, that answer is SUCCESS with the value, on which the promise
    of the caller resolves with it; when it is rejected the answer is
    ERROR and the promise of the caller is rejected; when it never
    settles nothing is answered. *)
Theorem remote_call_round_trip (owner caller : World) (room : Room) (method : string)
    (args : option (list JSValue)) (T : Z) :
  localRooms owner !! roomId room = Some room →
  localRooms caller !! roomId room = None →
  channels (presence caller) !! (roomId room +:+ ":" +:+ (generateId caller).1) = None →
  let pending := send_request (roomId room) method args T caller in
  let requestId := rc_requestId pending.1 in
  let answered := onRequest classes thrown_value room method requestId args owner in
  head (calls (presence pending.2))
  = Some (Ppublish (getRoomChannel (roomId room)) (Request method requestId args))
  ∧ match remoteRoomCall env classes JSON_stringify (roomId room) method args None owner with
    | (Resolved (_, value), owner') =>
        calls (presence answered)
        = Ppublish (channel_of pending.1) (Reply SUCCESS (processId owner', value))
            :: calls (presence owner')
        ∧ promise (handle JSON_stringify (Arrives SUCCESS (processId owner', value)) pending).1
          = Resolved (processId owner', value)
    | (Rejected e, owner') =>
        ∃ data,
          calls (presence answered)
          = Ppublish (channel_of pending.1) (Reply ERROR (processId owner', data))
              :: calls (presence owner')
          ∧ promise (handle JSON_stringify (Arrives ERROR (processId owner', data)) pending).1
            = Rejected (RemoteError (processId owner', data))
    | (Unsettled, owner') => answered = owner'
    end.
Proof.
  intros Hlocal Hremote Hfresh pending requestId answered.
  pose proof (send_request_pending classes (roomId room) method args T caller Hfresh)
    as Hpending.
  fold pending in Hpending.
  destruct pending as [rc w1] eqn:Hsend.
  destruct Hpending as (Hch & Hpromise & Htimer & _ & Hlisten & _ & Hcalls & _).
  assert (Hrc : rc_roomId rc = roomId room ∧ rc_requestId rc = (generateId caller).1).
  { unfold send_request in Hsend. by inversion Hsend. }
  destruct Hrc as [Hr Hq]. cbn [fst snd] in *.
  split; [subst requestId; by rewrite Hcalls, Hq|].
  pose proof (onRequest_local room method requestId args None owner Hlocal) as Hanswer.
  fold answered in Hanswer.
  assert (Hchannel : roomId room +:+ ":" +:+ requestId = channel_of rc).
  { subst requestId. unfold channel_of. by rewrite Hr. }
  destruct (remoteRoomCall _ _ _ (roomId room) method args None owner)
    as [[[pid value]|e|] owner'].
  - rewrite Hanswer, reply_calls, Hchannel. split; [done|].
    by rewrite (handle_first_promise JSON_stringify _ rc w1 Hlisten Htimer Hpromise).
  - destruct Hanswer as [data Hanswer]. exists data.
    rewrite Hanswer, reply_calls, Hchannel. split; [done|].
    by rewrite (handle_first_promise JSON_stringify _ rc w1 Hlisten Htimer Hpromise).
  - exact Hanswer.
Qed.

End Calls.

(** ** Room types, stale rooms and join *)

Section RoomTypes.

Context (env : option Z) (classes : string → RoomClass)
        (JSON_stringify : list JSValue → string)
        (defaultMaxRetries : nat) (defaultErrorWhiteList : list ErrorClass).

(** A room hosted here answers for its [roomId] in place: nothing is
    cleaned up and nothing changes. *)
Lemma cleanup_room_hosted name row w :
  hosted (localRooms w) row = true →
  cleanup_room env classes JSON_stringify name row w = w.
Proof.
  unfold hosted. intros [room Hroom]%bool_decide_eq_true.
  unfold cleanup_room, remoteRoomCall. rewrite Hroom. by unfold member, own.
Qed.

(** A room hosted elsewhere whose owner is silent is reaped. *)
Lemma cleanup_room_silent name row w :
  hosted (localRooms w) row = false →
  network w = [] →
  let w' := cleanup_room env classes JSON_stringify name row w in
  localRooms w' = localRooms w ∧ handlers w' = handlers w ∧ network w' = []
  ∧ rooms (driver w') = filter (λ r, driver.same_row row r = false) (rooms (driver w))
  ∧ data (presence w')
    = data (presence.srem name (toString (get row "roomId")) (presence w)).
Proof.
  unfold hosted. intros Hremote%bool_decide_eq_false Hsilent.
  assert (Hnone : localRooms w !! toString (get row "roomId") = None).
  { destruct (localRooms w !! toString (get row "roomId")) eqn:Hroom; [|done].
    destruct Hremote. by eexists. }
  unfold cleanup_room. rewrite remoteRoomCall_remote_unfold by done.
  rewrite remote_call_later by by rewrite Hsilent.
  unfold send_request, arm, open_request, next_event. simpl. rewrite Hsilent. simpl. done.
Qed.

(** Whatever the network does, cleaning up one room leaves the local
    rooms and the handlers alone and creates no presence key. *)
Lemma cleanup_room_frame name row w :
  let w' := cleanup_room env classes JSON_stringify name row w in
  localRooms w' = localRooms w ∧ handlers w' = handlers w
  ∧ (∀ key, keys (presence w) !! key = None → keys (presence w') !! key = None).
Proof.
  destruct (hosted (localRooms w) row) eqn:Hhosted.
  { by rewrite cleanup_room_hosted. }
  unfold hosted in Hhosted. apply bool_decide_eq_false in Hhosted.
  assert (Hnone : localRooms w !! toString (get row "roomId") = None).
  { destruct (localRooms w !! toString (get row "roomId")) eqn:Hroom; [|done].
    destruct Hhosted. by eexists. }
  pose proof (remoteRoomCall_remote_frame env classes JSON_stringify
                (toString (get row "roomId")) "roomId" None None w Hnone)
    as (Hh & Hl & _ & _ & _ & Hkeys & _).
  unfold cleanup_room.
  destruct (remoteRoomCall _ _ _ _ _ _ _ w) as [[v|e|] w1]; simpl in *.
  - split; [done|]. split; [done|]. intros key. by rewrite Hkeys.
  - split; [done|]. split; [done|]. intros key Hkey. rewrite Hkeys.
    destruct (decide (key = toString (get row "roomId"))) as [->|Hne].
    + apply lookup_delete_eq.
    + by rewrite lookup_delete_ne.
  - split; [done|]. split; [done|]. intros key. by rewrite Hkeys.
Qed.

Lemma cleanup_rooms_frame name cached w :
  let w' := foldl (λ w room, cleanup_room env classes JSON_stringify name room w) w cached in
  localRooms w' = localRooms w ∧ handlers w' = handlers w
  ∧ (∀ key, keys (presence w) !! key = None → keys (presence w') !! key = None).
Proof.
  revert w. induction cached as [|row cached IH]; intros w; [done|].
  simpl. pose proof (cleanup_room_frame name row w) as (Hl & Hh & Hk).
  destruct (IH (cleanup_room env classes JSON_stringify name row w)) as (Hl' & Hh' & Hk').
  split; [by rewrite Hl'|]. split; [by rewrite Hh'|]. intros key Hkey. by apply Hk', Hk.
Qed.

(** X15.  Registering a room type stores the handler under its name, in
    the place of an older one, answers with it, and leaves the other
    handlers and the local rooms as they are; the cleanup it starts
    leaves the counter of the admission gate of the type at 0,
    whatever the network does. *)
Theorem defineRoomType_registers (name : string) (registeredHandler : RegisteredHandler)
    (w : World) :
  let r := defineRoomType env classes JSON_stringify name registeredHandler w in
  r.1 = registeredHandler
  ∧ handlers r.2 = <[name := registeredHandler]> (handlers w)
  ∧ hasHandler name r.2 = true
  ∧ localRooms r.2 = localRooms w
  ∧ presence.counter (getHandlerConcurrencyKey name) (presence r.2) = 0.
Proof.
  intros r. subst r. unfold defineRoomType, cleanupStaleRooms. cbn [fst snd].
  match goal with
  | |- context [foldl _ ?w0 ?cached] =>
      pose proof (cleanup_rooms_frame name cached w0) as (Hl & Hh & Hk)
  end.
  cbv zeta in Hl, Hh, Hk.
  split; [done|]. split; [by rewrite Hh|].
  split; [unfold hasHandler; rewrite Hh; simpl; by rewrite lookup_insert_eq|].
  split; [by rewrite Hl|].
  unfold presence.counter. rewrite Hk; [done|]. simpl. apply lookup_delete_eq.
Qed.

(** The rows and the members of the presence set that are left when
    the owners of the rooms hosted elsewhere are silent. *)
Lemma cleanup_rooms_silent name cached w :
  network w = [] →
  let w' := foldl (λ w room, cleanup_room env classes JSON_stringify name room w) w cached in
  rooms (driver w')
  = filter (λ row, outlives (localRooms w) cached row = true) (rooms (driver w))
  ∧ (∀ x, x ∈ presence.smembers name (presence w') ↔
          x ∈ presence.smembers name (presence w)
          ∧ ∀ stale, stale ∈ cached → hosted (localRooms w) stale = false →
                     toString (get stale "roomId") ≠ x).
Proof.
  revert w. induction cached as [|row cached IH]; intros w Hsilent.
  { simpl. split.
    - symmetry. by apply filter_all.
    - intros x. split; [|tauto]. intros Hx. split; [done|]. by intros stale ?%elem_of_nil. }
  cbn [foldl]. cbv zeta.
  destruct (hosted (localRooms w) row) eqn:Hhosted.
  - rewrite cleanup_room_hosted by done.
    destruct (IH w Hsilent) as [Hrows Hset]. split.
    + rewrite Hrows. apply list_filter_iff. intros r. unfold outlives. simpl.
      by rewrite Hhosted.
    + intros x. rewrite Hset. split; intros [Hx Hstale]; (split; [done|]).
      * intros stale [->|Hin]%elem_of_cons; [congruence|by apply Hstale].
      * intros stale Hin. apply Hstale. by right.
  - pose proof (cleanup_room_silent name row w Hhosted Hsilent)
      as (Hl & _ & Hsilent' & Hrows1 & Hdata1).
    destruct (IH _ Hsilent') as [Hrows Hset]. rewrite Hl in Hrows, Hset. split.
    + rewrite Hrows, Hrows1, list_filter_filter. apply list_filter_iff. intros r.
      unfold outlives. simpl. rewrite Hhosted. simpl.
      rewrite andb_true_iff, negb_true_iff. tauto.
    + intros x. rewrite Hset.
      assert (Hmembers : x ∈ presence.smembers name
                           (presence (cleanup_room env classes JSON_stringify name row w))
                         ↔ x ∈ presence.smembers name (presence w)
                           ∧ x ≠ toString (get row "roomId")).
      { unfold presence.smembers at 1. rewrite Hdata1.
        change (default ∅ (data (presence.srem name (toString (get row "roomId"))
                                   (presence w)) !! name))
          with (presence.smembers name
                  (presence.srem name (toString (get row "roomId")) (presence w))).
        by rewrite (smembers_srem classes), elem_of_difference, elem_of_singleton. }
      rewrite Hmembers. split.
      * intros [[Hx Hrow] Hstale]. split; [done|].
        intros stale [->|Hin]%elem_of_cons; [congruence|by apply Hstale].
      * intros [Hx Hstale]. split; [split; [done|]|].
        -- intros Heq. apply (Hstale row); [left|done|done].
        -- intros stale Hin. apply Hstale. by right.
Qed.

Lemma matches_name (row : RoomListingData) (name : string) :
  matches {[ "name" := VStr name ]} row = true ↔ get row "name" = VStr name.
Proof.
  unfold matches. rewrite bool_decide_eq_true, map_Forall_singleton.
  destruct (get row "name") as [| | | |s|]; simpl; split; try done.
  - intros Heq%String.eqb_eq. by subst.
  - intros [= ->]. apply String.eqb_refl.
Qed.

(** X16.  When the owners of the rooms hosted elsewhere do not answer,
    the cleanup of a room type reaps exactly those: the listing of a
    room hosted by this process stays in the registry, and the listing
    of a room of that type hosted elsewhere is removed from the
    registry and its id from the presence set of the type. *)
Theorem cleanupStaleRooms_reaps (name : string) (w : World) :
  network w = [] →
  let w' := cleanupStaleRooms env classes JSON_stringify name w in
  (∀ row, row ∈ rooms (driver w) → hosted (localRooms w) row = true →
          row ∈ rooms (driver w'))
  ∧ (∀ row id, row ∈ rooms (driver w) →
               get row "name" = VStr name → get row "roomId" = VStr id →
               localRooms w !! id = None →
               (row ∉ rooms (driver w')) ∧ (id ∉ presence.smembers name (presence w'))).
Proof.
  intros Hsilent w'. subst w'. unfold cleanupStaleRooms.
  set (cached := driver.find {[ "name" := VStr name ]} (driver w)).
  set (w0 := set_presence (presence.del (getHandlerConcurrencyKey name)) w).
  destruct (cleanup_rooms_silent name cached w0 Hsilent) as [Hrows Hset].
  cbv zeta in Hrows, Hset. rewrite Hrows.
  change (localRooms w0) with (localRooms w) in *.
  change (rooms (driver w0)) with (rooms (driver w)) in *.
  split.
  - intros row Hrow Hhosted. apply list_elem_of_filter. split; [|done].
    unfold outlives. apply forallb_forall. intros stale _.
    destruct (hosted (localRooms w) stale) eqn:Hstale; [done|]. simpl.
    apply negb_true_iff. destruct (driver.same_row stale row) eqn:Hsame; [|done].
    apply strict_eq_eq in Hsame. unfold hosted in *. rewrite Hsame in Hstale. congruence.
  - intros row id Hrow Hname Hid Hremote.
    assert (Hcached : row ∈ cached).
    { apply list_elem_of_filter. split; [|done]. by apply matches_name. }
    assert (Hstale : hosted (localRooms w) row = false).
    { unfold hosted. rewrite Hid. simpl. rewrite Hremote.
      apply bool_decide_eq_false. by intros [? ?]. }
    split.
    + intros [Hout _]%list_elem_of_filter. unfold outlives in Hout.
      rewrite forallb_forall in Hout. apply list_elem_of_In in Hcached.
      specialize (Hout row Hcached). rewrite Hstale in Hout. simpl in Hout.
      apply negb_true_iff in Hout. unfold driver.same_row in Hout. rewrite Hid in Hout.
      simpl in Hout. by rewrite String.eqb_refl in Hout.
    + intros [_ Hout]%Hset. apply (Hout row Hcached Hstale). by rewrite Hid.
Qed.

(** *** join *)

(** A callback that is rejected the same way wherever an invariant
    holds, and keeps it, is rejected that way however often it is
    retried. *)
Lemma retry_rejects {A} (cb : Async A) (invariant : World → Prop) (e : Thrown)
    (maxRetries : nat) (errorWhiteList : list ErrorClass) (w : World) :
  (∀ w0, invariant w0 → ∃ w1, cb w0 = (Rejected e, w1) ∧ invariant w1) →
  invariant w →
  ∃ w', retry cb maxRetries errorWhiteList w = (Rejected e, w') ∧ invariant w'.
Proof.
  intros Hcb. revert w. induction maxRetries as [|n IH]; intros w Hw; simpl;
    destruct (Hcb w Hw) as (w1 & -> & Hw1).
  - exists w1. by case_bool_decide.
  - case_bool_decide; [by apply IH|by exists w1].
Qed.

(** With no room found every attempt of [join] fails the same way, so
    the retries, if any, change nothing. *)
Lemma join_rejects_no_room (name : string) (options : JSObject) (w : World)
    (handler : RegisteredHandler) :
  handlers w !! name = Some handler →
  driver.await (room_query handler name options) (driver w) = None →
  ∃ w',
    join env classes JSON_stringify defaultMaxRetries defaultErrorWhiteList name options w
    = (Rejected (MatchMakeError "no rooms found with provided criteria"
                   ERR_MATCHMAKE_INVALID_CRITERIA), w')
    ∧ driver w' = driver w ∧ localRooms w' = localRooms w
    ∧ presence.counter (getHandlerConcurrencyKey name) (presence w')
      = presence.counter (getHandlerConcurrencyKey name) (presence w).
Proof.
  intros Hhandler Hnone.
  set (invariant := λ w0, handlers w0 = handlers w ∧ driver w0 = driver w
                          ∧ localRooms w0 = localRooms w
                          ∧ presence.counter (getHandlerConcurrencyKey name) (presence w0)
                            = presence.counter (getHandlerConcurrencyKey name) (presence w)).
  destruct (retry_rejects
              (join_attempt env classes JSON_stringify name options) invariant
              (MatchMakeError "no rooms found with provided criteria"
                 ERR_MATCHMAKE_INVALID_CRITERIA)
              defaultMaxRetries defaultErrorWhiteList w) as (w' & Hjoin & Hw').
  - intros w0 (Hh & Hd & Hl & Hc).
    assert (Hhandler0 : handlers w0 !! name = Some handler) by by rewrite Hh.
    pose proof (queryRoom_query env name options w0 handler Hhandler0) as Hquery.
    rewrite Hd, Hnone in Hquery.
    pose proof (queryRoom_counter env name options w0) as Hcounter.
    assert (Hworld : handlers (queryRoom env name options w0).2 = handlers w0
                     ∧ driver (queryRoom env name options w0).2 = driver w0
                     ∧ localRooms (queryRoom env name options w0).2 = localRooms w0).
    { unfold queryRoom, awaitRoomAvailable. simpl. by rewrite Hhandler0. }
    destruct Hworld as (Hh' & Hd' & Hl').
    unfold join_attempt, mbind, Async_bind, bind, throw.
    destruct (queryRoom env name options w0) as [found w1]. simpl in *. subst found.
    exists w1. split; [done|]. unfold invariant. by rewrite Hh', Hd', Hl', Hcounter.
  - by unfold invariant.
  - exists w'. destruct Hw' as (_ & Hd & Hl & Hc). unfold join. by rewrite Hjoin.
Qed.

(** X17.  When the query of the handler finds no room, [join] fails
    with ERR_MATCHMAKE_INVALID_CRITERIA, whatever the defaults of
    [retry] are, and creates nothing: the registry and the local rooms
    are as they were and the counter of the admission gate is back at
    its value. *)
Theorem join_no_room (name : string) (options : JSObject) (w : World)
    (handler : RegisteredHandler) :
  handlers w !! name = Some handler →
  driver.await (room_query handler name options) (driver w) = None →
  ∃ message w',
    join env classes JSON_stringify defaultMaxRetries defaultErrorWhiteList name options w
    = (Rejected (MatchMakeError message ERR_MATCHMAKE_INVALID_CRITERIA), w')
    ∧ driver w' = driver w ∧ localRooms w' = localRooms w
    ∧ presence.counter (getHandlerConcurrencyKey name) (presence w')
      = presence.counter (getHandlerConcurrencyKey name) (presence w).
Proof.
  intros Hhandler Hnone.
  destruct (join_rejects_no_room name options w handler Hhandler Hnone) as (w' & Hjoin).
  by exists "no rooms found with provided criteria", w'.
Qed.

(** X18.  A client that asks, on a URL that ends in [/join/<name>], to
    join a registered room type of which the registry has no room to
    offer is sent one frame, the error ERR_MATCHMAKE_INVALID_CRITERIA
    with its message, and nothing is created for it: the registry and
    the local rooms are as they were. *)
Theorem handleMatchmake_join_no_room (before name : string) (body : JSObject) (w : World)
    (handler : RegisteredHandler) :
  word name →
  handlers w !! name = Some handler →
  driver.await (room_query handler name body) (driver w) = None →
  let r := Transport.handleMatchmake env classes JSON_stringify
             defaultMaxRetries defaultErrorWhiteList
             (before +:+ "/" +:+ "join" +:+ "/" +:+ name) body w in
  r.1 = [Transport.ErrorReply ERR_MATCHMAKE_INVALID_CRITERIA
           (VStr "no rooms found with provided criteria")]
  ∧ driver r.2 = driver w ∧ localRooms r.2 = localRooms w.
Proof.
  intros Hname Hhandler Hnone r. subst r.
  destruct (join_rejects_no_room name body w handler Hhandler Hnone)
    as (w' & Hjoin & Hdriver & Hlocal & _).
  assert (Hjoin_word : word "join") by (split; [done|repeat constructor]).
  unfold Transport.handleMatchmake.
  rewrite (matchedParams_ends before "join" name Hjoin_word Hname).
  unfold Transport.name_of, Transport.method_of. rewrite reverse_app. simpl.
  unfold Transport.handelMatchmake2.
  rewrite bool_decide_eq_true_2
    by (unfold Transport.exposedMethods; rewrite !elem_of_cons; auto).
  change (Transport.dispatch env classes JSON_stringify defaultMaxRetries
            defaultErrorWhiteList "join" name body)
    with (join env classes JSON_stringify defaultMaxRetries defaultErrorWhiteList name body).
  by rewrite Hjoin.
Qed.

End RoomTypes.

(** ** The further properties on the sample deployment *)

Lemma word_chat : word "chat".
Proof. split; [done|]. repeat constructor. Qed.

Lemma word_r9 : word "r-9_x".
Proof. split; [done|]. repeat constructor. Qed.

Lemma word_joinOrCreate : word "joinOrCreate".
Proof. split; [done|]. repeat constructor. Qed.

Lemma match_room_path_complete_witness :
  WebSocketTransport.match_room_path ("/game" +:+ "/" +:+ "chat" +:+ "/" +:+ "r-9_x")
  = Some "r-9_x".
Proof. exact (match_room_path_complete "/game" "chat" "r-9_x" word_chat word_r9). Defined.

Lemma match_room_path_sound_witness :
  word "r-9_x"
  ∧ ∃ before name, word name ∧ "/chat/r-9_x" = before +:+ "/" +:+ name +:+ "/" +:+ "r-9_x".
Proof. exact (match_room_path_sound "/chat/r-9_x" "r-9_x" eq_refl). Defined.

Lemma matchedParams_method_name_witness :
  let params := Transport.matchedParams
                  ("ws://host:2567/matchmake" +:+ "/" +:+ "joinOrCreate" +:+ "/" +:+ "chat") in
  Transport.method_of params = Some "joinOrCreate" ∧ Transport.name_of params = Some "chat".
Proof.
  exact (matchedParams_method_name "ws://host:2567/matchmake" "joinOrCreate" "chat"
           word_joinOrCreate word_chat).
Defined.

Lemma handleMatchmake_unexposed_witness :
  let r := Transport.handleMatchmake None Sample.classes Sample.JSON_stringify 3%nat []
             "/matchmake/query/chat" ∅ Sample.started in
  r.2 = Sample.started
  ∧ (r.1 = []
     ∨ ∃ message, r.1 = [Transport.ErrorReply ERR_MATCHMAKE_UNHANDLED (VStr message)]).
Proof.
  apply (handleMatchmake_unexposed None Sample.classes Sample.JSON_stringify 3%nat []
           "/matchmake/query/chat" ∅ Sample.started).
  intros m [= <-] Hin.
  repeat (apply elem_of_cons in Hin as [Heq|Hin]; [discriminate|]).
  by apply elem_of_nil in Hin.
Defined.

Lemma silent_client_terminated_witness :
  let s' := Transport.beats 2 (replicate 3 Transport.Round) Fixtures.joined in
  Transport.terminated s' = bool_decide (2 < Z.of_nat 3)
  ∧ Transport.pings s' = (Transport.pings Fixtures.joined + 3 `min` Z.to_nat 2)%nat.
Proof.
  apply (silent_client_terminated 2 3 Fixtures.joined); [lia|reflexivity|reflexivity].
Defined.

Lemma responsive_client_kept_witness :
  Transport.terminated
    (Transport.beats 2
       [Transport.Round; Transport.Round; Transport.Pong; Transport.Round; Transport.Pong;
        Transport.Round; Transport.Round]
       Fixtures.joined) = false.
Proof.
  apply (responsive_client_kept 2); reflexivity.
Defined.

Lemma createRoom_registers_witness :
  let room := bind_listeners (set_created Fixtures.made) "chat" in
  let r := createRoom Sample.classes "chat" ∅ Sample.started in
  r.1 = Resolved (listing room)
  ∧ getRoomById "0" r.2 = Some room
  ∧ driver.await (driver.findOne {[ "roomId" := VStr "0" ]}) (driver r.2)
    = Some (listing room).
Proof.
  assert (Hhandler : handlers Sample.started !! "chat" = Some Sample.chat) by reflexivity.
  assert (Hmade : run_onCreate Sample.classes Sample.chat
                    (new_room Sample.classes Sample.chat "chat" ∅ Sample.started)
                    ∅ (generateId Sample.started).2
                  = (Resolved Fixtures.made, (generateId Sample.started).2)) by reflexivity.
  pose proof (createRoom_registers Sample.classes "chat" ∅ Sample.started Sample.chat
                Fixtures.made _ Hhandler Hmade)
    as (Hresult & _ & _ & _ & Hlocal & _ & _ & _ & Hfound).
  split; [exact Hresult|]. split; [exact Hlocal|exact Hfound].
Defined.

Lemma createRoom_onCreate_rejects_witness :
  createRoom Fixtures.classes "arena" ∅ Fixtures.three_types
  = (Rejected (MatchMakeError "no arena left" ERR_MATCHMAKE_UNHANDLED),
     (generateId Fixtures.three_types).2).
Proof.
  apply (createRoom_onCreate_rejects Fixtures.classes "arena" ∅ Fixtures.three_types
           Fixtures.arena
           (λ room options w, (Rejected (Error "no arena left"), w))
           (Error "no arena left"));
    reflexivity.
Defined.

Lemma disposeRoom_clears_witness :
  let r := disposeRoom "chat" Sample.room0 Sample.one_room in
  r.1 = Resolved tt
  ∧ getRoomById "0" r.2 = None
  ∧ driver.await (driver.findOne {[ "roomId" := VStr "0" ]}) (driver r.2) = None.
Proof.
  assert (Hhandler : handlers Sample.one_room !! "chat" = Some Sample.chat)
    by (vm_compute; reflexivity).
  assert (Hid : get (listing Sample.room0) "roomId" = VStr "0") by (vm_compute; reflexivity).
  pose proof (disposeRoom_clears Sample.classes "chat" Sample.room0 Sample.one_room
                Sample.chat "0" Hhandler Hid)
    as (Hresult & Hlocal & _ & _ & _ & Hfound & _).
  split; [exact Hresult|]. split; [exact Hlocal|exact Hfound].
Defined.

Lemma createRoom_disposeRoom_witness :
  let room := bind_listeners (set_created Fixtures.made) "chat" in
  let created := (createRoom Sample.classes "chat" ∅ Sample.started).2 in
  let disposed := disposeRoom "chat" room created in
  localRooms disposed.2 = ∅ ∧ rooms (driver disposed.2) = [].
Proof.
  assert (Hhandler : handlers Sample.started !! "chat" = Some Sample.chat) by reflexivity.
  assert (Hmade : run_onCreate Sample.classes Sample.chat
                    (new_room Sample.classes Sample.chat "chat" ∅ Sample.started)
                    ∅ (generateId Sample.started).2
                  = (Resolved Fixtures.made, (generateId Sample.started).2)) by reflexivity.
  assert (Hrows : ∀ row, row ∈ rooms (driver (generateId Sample.started).2) →
                         get row "roomId" ≠ VStr (roomId Fixtures.made)).
  { intros row Hrow. by apply elem_of_nil in Hrow. }
  pose proof (createRoom_disposeRoom Sample.classes "chat" ∅ Sample.started Sample.chat
                Sample.chat Fixtures.made _ Hhandler Hmade eq_refl eq_refl eq_refl Hrows)
    as (_ & Hlocal & Hregistry & _).
  split; [exact Hlocal|exact Hregistry].
Defined.

Lemma joinById_created_witness :
  let room := bind_listeners (set_created Fixtures.made) "chat" in
  let created := (createRoom Sample.classes "chat" ∅ Sample.started).2 in
  joinById None Sample.classes Sample.JSON_stringify "0" ∅ created
  = reserveSeatFor None Sample.classes Sample.JSON_stringify (listing room) ∅ created.
Proof.
  assert (Hhandler : handlers Sample.started !! "chat" = Some Sample.chat) by reflexivity.
  assert (Hmade : run_onCreate Sample.classes Sample.chat
                    (new_room Sample.classes Sample.chat "chat" ∅ Sample.started)
                    ∅ (generateId Sample.started).2
                  = (Resolved Fixtures.made, (generateId Sample.started).2)) by reflexivity.
  exact (joinById_created None Sample.classes Sample.JSON_stringify "chat" ∅ ∅
           Sample.started Sample.chat Fixtures.made _ Hhandler Hmade eq_refl eq_refl).
Defined.

Lemma queryRoom_unlocked_witness :
  Sample.remote_listing ∈ rooms (driver Sample.with_remote)
  ∧ get Sample.remote_listing "locked" = VBool false
  ∧ get Sample.remote_listing "name" = VStr "chat".
Proof.
  assert (Hfound : (queryRoom None "chat" ∅ Sample.with_remote).1
                   = Resolved (Some Sample.remote_listing)) by (vm_compute; reflexivity).
  pose proof (queryRoom_unlocked None "chat" ∅ Sample.with_remote Sample.chat
                Sample.remote_listing eq_refl eq_refl eq_refl I Hfound)
    as (Hrow & Hlocked & Hname & _).
  split; [exact Hrow|]. split; [exact Hlocked|exact Hname].
Defined.

Lemma remote_call_first_wins_witness :
  let pending := send_request "r9" "roomId" None 2000 Sample.with_remote in
  let first := handle Sample.JSON_stringify (Arrives SUCCESS (Some "p2", VStr "r9")) pending in
  promise first.1 = Resolved (Some "p2", VStr "r9")
  ∧ play Sample.JSON_stringify
      [Arrives SUCCESS (Some "p2", VStr "r9"); TimerFires; Arrives ERROR (Some "p2", VNull)]
      pending
    = first.
Proof.
  pose proof (remote_call_first_wins Sample.classes Sample.JSON_stringify "r9" "roomId" None
                2000 Sample.with_remote (Arrives SUCCESS (Some "p2", VStr "r9"))
                [TimerFires; Arrives ERROR (Some "p2", VNull)] eq_refl)
    as (Hpromise & _ & _ & Hplay & _).
  split; [exact Hpromise|exact Hplay].
Defined.

Lemma remote_call_round_trip_witness :
  let pending := send_request (roomId Sample.room0) "hasReservedSeat" (Some [VStr "1"]) 2000
                   Sample.with_remote in
  let requestId := rc_requestId pending.1 in
  let answered := onRequest Sample.classes Fixtures.thrown_value Sample.room0
                    "hasReservedSeat" requestId (Some [VStr "1"]) Sample.one_room in
  head (calls (presence pending.2))
  = Some (Ppublish (getRoomChannel (roomId Sample.room0))
            (Request "hasReservedSeat" requestId (Some [VStr "1"])))
  ∧ match remoteRoomCall None Sample.classes Sample.JSON_stringify (roomId Sample.room0)
            "hasReservedSeat" (Some [VStr "1"]) None Sample.one_room with
    | (Resolved (_, value), owner') =>
        calls (presence answered)
        = Ppublish (channel_of pending.1) (Reply SUCCESS (processId owner', value))
            :: calls (presence owner')
        ∧ promise (handle Sample.JSON_stringify
                     (Arrives SUCCESS (processId owner', value)) pending).1
          = Resolved (processId owner', value)
    | (Rejected e, owner') =>
        ∃ data,
          calls (presence answered)
          = Ppublish (channel_of pending.1) (Reply ERROR (processId owner', data))
              :: calls (presence owner')
          ∧ promise (handle Sample.JSON_stringify
                       (Arrives ERROR (processId owner', data)) pending).1
            = Rejected (RemoteError (processId owner', data))
    | (Unsettled, owner') => answered = owner'
    end.
Proof.
  assert (Hlocal : localRooms Sample.one_room !! roomId Sample.room0 = Some Sample.room0)
    by (vm_compute; reflexivity).
  assert (Hremote : localRooms Sample.with_remote !! roomId Sample.room0 = None)
    by (vm_compute; reflexivity).
  assert (Hfresh : channels (presence Sample.with_remote)
                   !! (roomId Sample.room0 +:+ ":" +:+ (generateId Sample.with_remote).1)
                   = None) by (vm_compute; reflexivity).
  exact (remote_call_round_trip None Sample.classes Sample.JSON_stringify
           Fixtures.thrown_value Sample.one_room Sample.with_remote Sample.room0
           "hasReservedSeat" (Some [VStr "1"]) 2000 Hlocal Hremote Hfresh).
Defined.

Lemma cleanupStaleRooms_reaps_witness :
  let w' := cleanupStaleRooms None Sample.classes Sample.JSON_stringify "chat"
              Sample.with_remote in
  (Sample.remote_listing ∉ rooms (driver w'))
  ∧ ("r9" ∉ presence.smembers "chat" (presence w')).
Proof.
  pose proof (cleanupStaleRooms_reaps None Sample.classes Sample.JSON_stringify "chat"
                Sample.with_remote eq_refl) as [_ Hreaped].
  apply (Hreaped Sample.remote_listing "r9"); [left|reflexivity..].
Defined.

Lemma join_no_room_witness :
  ∃ message w',
    join None Sample.classes Sample.JSON_stringify 3 [SeatReservationErrorC] "chat" ∅
      Sample.started
    = (Rejected (MatchMakeError message ERR_MATCHMAKE_INVALID_CRITERIA), w')
    ∧ driver w' = driver Sample.started ∧ localRooms w' = localRooms Sample.started.
Proof.
  destruct (join_no_room None Sample.classes Sample.JSON_stringify 3 [SeatReservationErrorC]
              "chat" ∅ Sample.started Sample.chat eq_refl eq_refl)
    as (message & w' & Hjoin & Hdriver & Hlocal & _).
  exists message, w'. split; [exact Hjoin|]. split; [exact Hdriver|exact Hlocal].
Defined.

Lemma handleMatchmake_join_no_room_witness :
  let r := Transport.handleMatchmake None Sample.classes Sample.JSON_stringify 3
             [SeatReservationErrorC]
             ("ws://host:2567/matchmake" +:+ "/" +:+ "join" +:+ "/" +:+ "chat") ∅
             Sample.started in
  r.1 = [Transport.ErrorReply ERR_MATCHMAKE_INVALID_CRITERIA
           (VStr "no rooms found with provided criteria")]
  ∧ driver r.2 = driver Sample.started ∧ localRooms r.2 = localRooms Sample.started.
Proof.
  exact (handleMatchmake_join_no_room None Sample.classes Sample.JSON_stringify 3
           [SeatReservationErrorC] "ws://host:2567/matchmake" "chat" ∅ Sample.started
           Sample.chat word_chat eq_refl eq_refl).
Defined.
